(** * cush: job control core of the customizable shell

    A shallow embedding of [src/cush.c] (job registry, status reaper,
    job-control builtins and the read/eval loop) together with the
    properties of its specification.

    The shell's global variables ([job_list], [jid2job], the terminal state
    kept by termstate_management, the SIGCHLD mask) become one explicit
    state record; heap-allocated [struct job]s live in a store indexed by
    their address, so that the linked list and the id array alias the same
    job exactly as the two C structures do.  What the kernel answers to
    [waitpid], [pipe2] and [posix_spawnp] is an input of the model. *)

From stdpp Require Import gmap strings list pretty.

Local Open Scope Z_scope.

(** ** Constants of the platform (Linux, glibc) *)

Definition SIGKILL : Z := 9.
Definition SIGCHLD : Z := 17.
Definition SIGCONT : Z := 18.
Definition SIGSTOP : Z := 19.
Definition SIGTSTP : Z := 20.
Definition SIGTTIN : Z := 21.
Definition SIGTTOU : Z := 22.
Definition ENOENT : Z := 2.
Definition STDIN_FILENO : Z := 0.
Definition STDOUT_FILENO : Z := 1.

(** The status word filled in by [waitpid], decoded as <bits/waitstatus.h>
    does.  [WIFSIGNALED] casts [(status & 0x7f) + 1] to a signed char before
    shifting. *)
Definition WEXITSTATUS (status : Z) : Z := Z.shiftr (Z.land status 0xff00) 8.
Definition WTERMSIG (status : Z) : Z := Z.land status 0x7f.
Definition WSTOPSIG (status : Z) : Z := WEXITSTATUS status.
Definition WIFEXITED (status : Z) : bool := WTERMSIG status =? 0.
Definition signed_char (v : Z) : Z :=
  let b := Z.land v 0xff in if 128 <=? b then b - 256 else b.
Definition WIFSIGNALED (status : Z) : bool :=
  0 <? Z.shiftr (signed_char (Z.land status 0x7f + 1)) 1.
Definition WIFSTOPPED (status : Z) : bool := Z.land status 0xff =? 0x7f.

Definition tab : string := String (Ascii.ascii_of_nat 9) "".
Definition nl : string := String (Ascii.ascii_of_nat 10) "".

(** [strsignal] of libc, for the signals a job normally dies of. *)
Definition strsignal (sig : Z) : string :=
  if sig =? 1 then "Hangup"
  else if sig =? 2 then "Interrupt"
  else if sig =? 3 then "Quit"
  else if sig =? 6 then "Aborted"
  else if sig =? 8 then "Floating point exception"
  else if sig =? 9 then "Killed"
  else if sig =? 11 then "Segmentation fault"
  else if sig =? 13 then "Broken pipe"
  else if sig =? 15 then "Terminated"
  else "Unknown signal " +:+ pretty sig.

(** ** Data model *)

(** The parsed command line handed over by the parser (shell-ast.h). *)
Record ast_command := {
  argv : list string;
  dup_stderr_to_stdout : bool
}.

Record ast_pipeline := {
  commands : list ast_command;
  iored_input : option string;
  iored_output : option string;
  append_to_output : bool;
  bg_job : bool
}.

Record ast_command_line := { pipes : list ast_pipeline }.

Inductive job_status :=
  | FOREGROUND | BACKGROUND | STOPPED | NEEDSTERMINAL | TERMINATED.

Inductive proc_status := PSTAT_RUNNING | PSTAT_STOPPED.

#[global] Instance job_status_eq_dec : EqDecision job_status.
Proof. solve_decision. Defined.
#[global] Instance proc_status_eq_dec : EqDecision proc_status.
Proof. solve_decision. Defined.

(** A saved terminal mode ([struct termios]); only its identity matters. *)
Definition termios := Z.

Record process := {
  pid : Z;
  pstatus : proc_status;
  command : ast_command
}.

(** [struct job].  [procs] is the heap array the job points to: its length
    is the number of slots that were allocated, and only the first
    [num_processes_alive] slots are meaningful. *)
Record job := {
  pipe : ast_pipeline;
  jid : Z;
  status : job_status;
  num_processes_alive : Z;
  saved_tty_state : termios;
  pgid : Z;
  procs : list process
}.

(** Addresses of heap-allocated jobs. *)
Definition ptr := nat.

Inductive event :=
  | EStdout (s : string)
  | EStderr (s : string)
  | EKill (target : Z) (sig : Z)
  | EClose (fd : Z)
  | EChdir (path : option string)
  | EHistory.

Record shell := {
  job_list : list ptr;
  jid2job : gmap Z ptr;
  heap : gmap ptr job;
  next_ptr : ptr;
  tty_owner : Z;
  tty_mode : termios;
  shell_tty_state : termios;
  shell_pgrp : Z;
  sigchld_blocked : bool;
  log : list event
}.

(** Field updates. *)
Definition set_status (s : job_status) (j : job) : job :=
  {| pipe := pipe j; jid := jid j; status := s;
     num_processes_alive := num_processes_alive j;
     saved_tty_state := saved_tty_state j; pgid := pgid j; procs := procs j |}.

Definition set_jid (i : Z) (j : job) : job :=
  {| pipe := pipe j; jid := i; status := status j;
     num_processes_alive := num_processes_alive j;
     saved_tty_state := saved_tty_state j; pgid := pgid j; procs := procs j |}.

Definition set_num_processes_alive (n : Z) (j : job) : job :=
  {| pipe := pipe j; jid := jid j; status := status j;
     num_processes_alive := n;
     saved_tty_state := saved_tty_state j; pgid := pgid j; procs := procs j |}.

Definition set_saved_tty_state (t : termios) (j : job) : job :=
  {| pipe := pipe j; jid := jid j; status := status j;
     num_processes_alive := num_processes_alive j;
     saved_tty_state := t; pgid := pgid j; procs := procs j |}.

Definition set_pgid (g : Z) (j : job) : job :=
  {| pipe := pipe j; jid := jid j; status := status j;
     num_processes_alive := num_processes_alive j;
     saved_tty_state := saved_tty_state j; pgid := g; procs := procs j |}.

Definition set_procs (a : list process) (j : job) : job :=
  {| pipe := pipe j; jid := jid j; status := status j;
     num_processes_alive := num_processes_alive j;
     saved_tty_state := saved_tty_state j; pgid := pgid j; procs := a |}.

Definition set_pstatus (s : proc_status) (p : process) : process :=
  {| pid := pid p; pstatus := s; command := command p |}.

Definition set_job_list (l : list ptr) (st : shell) : shell :=
  {| job_list := l; jid2job := jid2job st; heap := heap st;
     next_ptr := next_ptr st; tty_owner := tty_owner st;
     tty_mode := tty_mode st; shell_tty_state := shell_tty_state st;
     shell_pgrp := shell_pgrp st; sigchld_blocked := sigchld_blocked st;
     log := log st |}.

Definition set_jid2job (t : gmap Z ptr) (st : shell) : shell :=
  {| job_list := job_list st; jid2job := t; heap := heap st;
     next_ptr := next_ptr st; tty_owner := tty_owner st;
     tty_mode := tty_mode st; shell_tty_state := shell_tty_state st;
     shell_pgrp := shell_pgrp st; sigchld_blocked := sigchld_blocked st;
     log := log st |}.

Definition set_heap (h : gmap ptr job) (st : shell) : shell :=
  {| job_list := job_list st; jid2job := jid2job st; heap := h;
     next_ptr := next_ptr st; tty_owner := tty_owner st;
     tty_mode := tty_mode st; shell_tty_state := shell_tty_state st;
     shell_pgrp := shell_pgrp st; sigchld_blocked := sigchld_blocked st;
     log := log st |}.

Definition set_next_ptr (n : ptr) (st : shell) : shell :=
  {| job_list := job_list st; jid2job := jid2job st; heap := heap st;
     next_ptr := n; tty_owner := tty_owner st;
     tty_mode := tty_mode st; shell_tty_state := shell_tty_state st;
     shell_pgrp := shell_pgrp st; sigchld_blocked := sigchld_blocked st;
     log := log st |}.

Definition set_tty_owner (g : Z) (st : shell) : shell :=
  {| job_list := job_list st; jid2job := jid2job st; heap := heap st;
     next_ptr := next_ptr st; tty_owner := g;
     tty_mode := tty_mode st; shell_tty_state := shell_tty_state st;
     shell_pgrp := shell_pgrp st; sigchld_blocked := sigchld_blocked st;
     log := log st |}.

Definition set_tty_mode (t : termios) (st : shell) : shell :=
  {| job_list := job_list st; jid2job := jid2job st; heap := heap st;
     next_ptr := next_ptr st; tty_owner := tty_owner st;
     tty_mode := t; shell_tty_state := shell_tty_state st;
     shell_pgrp := shell_pgrp st; sigchld_blocked := sigchld_blocked st;
     log := log st |}.

Definition set_shell_tty_state (t : termios) (st : shell) : shell :=
  {| job_list := job_list st; jid2job := jid2job st; heap := heap st;
     next_ptr := next_ptr st; tty_owner := tty_owner st;
     tty_mode := tty_mode st; shell_tty_state := t;
     shell_pgrp := shell_pgrp st; sigchld_blocked := sigchld_blocked st;
     log := log st |}.

Definition set_sigchld_blocked (b : bool) (st : shell) : shell :=
  {| job_list := job_list st; jid2job := jid2job st; heap := heap st;
     next_ptr := next_ptr st; tty_owner := tty_owner st;
     tty_mode := tty_mode st; shell_tty_state := shell_tty_state st;
     shell_pgrp := shell_pgrp st; sigchld_blocked := b;
     log := log st |}.

Definition set_log (l : list event) (st : shell) : shell :=
  {| job_list := job_list st; jid2job := jid2job st; heap := heap st;
     next_ptr := next_ptr st; tty_owner := tty_owner st;
     tty_mode := tty_mode st; shell_tty_state := shell_tty_state st;
     shell_pgrp := shell_pgrp st; sigchld_blocked := sigchld_blocked st;
     log := l |}.

(** ** Outcomes

    A call either returns to its caller or ends the shell process:
    [exit(code)], [abort()] or a failed [assert], [utils_fatal_error], a
    memory fault (a freed job or a slot outside an array is touched), or a
    [waitpid] that never returns because the kernel has nothing more to
    report.  [OutOfFuel] only marks a bounded loop of the model that was
    given too few iterations. *)
Inductive halt :=
  | Exited (code : Z) | Aborted | FatalError | Fault | Blocked | OutOfFuel.

Inductive result (A : Type) :=
  | Ret (a : A) (st : shell)
  | Halt (h : halt) (st : shell).
Arguments Ret {A} a st.
Arguments Halt {A} h st.

Definition M (A : Type) : Type := shell → result A.

Definition ret {A} (a : A) : M A := λ st, Ret a st.
Definition bind {A B} (c : M A) (k : A → M B) : M B :=
  λ st, match c st with
        | Ret a st' => k a st'
        | Halt h st' => Halt h st'
        end.
Definition stop {A} (h : halt) : M A := λ st, Halt h st.
Definition gets {A} (f : shell → A) : M A := λ st, Ret (f st) st.
Definition modify (f : shell → shell) : M unit := λ st, Ret tt (f st).

Notation "'let*' x ':=' c 'in' k" := (bind c (λ x, k))
  (at level 10, x pattern, c at level 100, k at level 200).
Notation "c ';;' k" := (bind c (λ _, k))
  (at level 100, k at level 200, right associativity).

Definition emit (e : event) : M unit :=
  modify (λ st, set_log (log st ++ [e]) st).
Definition printf (s : string) : M unit := emit (EStdout s).
Definition fprintf_stderr (s : string) : M unit := emit (EStderr s).
Definition kill (target sig : Z) : M unit := emit (EKill target sig).
Definition close (fd : Z) : M unit := emit (EClose fd).

(** Dereferencing a job pointer; a freed or never allocated block faults. *)
Definition load_job (p : ptr) : M job :=
  λ st, match heap st !! p with
        | Some j => Ret j st
        | None => Halt Fault st
        end.

Definition store_job (p : ptr) (j : job) : M unit :=
  λ st, match heap st !! p with
        | Some _ => Ret tt (set_heap (<[p := j]> (heap st)) st)
        | None => Halt Fault st
        end.

(** The assignment [job->status = s]. *)
Definition assign_status (job : ptr) (s : job_status) : M unit :=
  let* j := load_job job in store_job job (set_status s j).

(** ** Job registry *)

Definition MAXJOBS : Z := Z.shiftl 1 16.

(** Reading [jid2job[i]]: the array has [MAXJOBS] cells, a read outside of
    it is a fault, an empty cell is the null pointer. *)
Definition jid2job_read (t : gmap Z ptr) (i : Z) : option (option ptr) :=
  if (0 <=? i) && (i <? MAXJOBS) then Some (t !! i) else None.

(** [get_job_from_jid].  The conjunction is evaluated left to right, the
    array is read only once both bounds tests have passed. *)
Definition get_job_from_jid (jid : Z) : M (option ptr) :=
  λ st,
    if 0 <? jid then
      if jid <? MAXJOBS then
        match jid2job_read (jid2job st) jid with
        | None => Halt Fault st
        | Some (Some p) => Ret (Some p) st
        | Some None => Ret None st
        end
      else Ret None st
    else Ret None st.

(** The scan [for (i = 1; i < MAXJOBS; i++)] of [add_job]: [n] cells are
    still to be visited, starting with cell [i]. *)
Fixpoint first_free_jid (t : gmap Z ptr) (i : Z) (n : nat) : option Z :=
  match n with
  | O => None
  | S n' => match t !! i with
            | None => Some i
            | Some _ => first_free_jid t (i + 1) n'
            end
  end.

(** [add_job].  [uninit] stands for what [malloc] returned: the fields
    [add_job] does not assign keep whatever it holds. *)
Definition add_job (pipeline : ast_pipeline) (uninit : job) : M ptr :=
  λ st,
    let p := next_ptr st in
    let job := set_num_processes_alive 0
                 {| pipe := pipeline; jid := jid uninit;
                    status := status uninit;
                    num_processes_alive := num_processes_alive uninit;
                    saved_tty_state := saved_tty_state uninit;
                    pgid := pgid uninit; procs := procs uninit |} in
    let st1 := set_next_ptr (S p) (set_heap (<[p := job]> (heap st)) st) in
    let st2 := set_job_list (job_list st1 ++ [p]) st1 in
    match first_free_jid (jid2job st2) 1 (Z.to_nat (MAXJOBS - 1)) with
    | Some i =>
        Ret p (set_heap (<[p := set_jid i job]> (heap st2))
                 (set_jid2job (<[i := p]> (jid2job st2)) st2))
    | None =>
        Halt Aborted
          (set_log (log st2 ++ [EStderr ("Maximum number of jobs exceeded" +:+ nl)]) st2)
    end.

(** [list_remove (&job->elem)]. *)
Definition list_remove (p : ptr) (l : list ptr) : list ptr :=
  filter (λ q, q ≠ p) l.

(** [delete_job]: [jid2job[jid]->jid = -1; jid2job[jid] = NULL;] and the
    job is freed. *)
Definition delete_job (p : ptr) : M unit :=
  let* j := load_job p in
  if jid j =? -1 then stop Aborted
  else
    let* t := gets jid2job in
    match jid2job_read t (jid j) with
    | None | Some None => stop Fault
    | Some (Some q) =>
        let* jq := load_job q in
        store_job q (set_jid (-1) jq) ;;
        modify (λ st, set_jid2job (delete (jid j) (jid2job st)) st) ;;
        modify (λ st, set_heap (delete p (heap st)) st)
    end.

(** The three statements with which every caller drops a job:
    [free(job->procs); list_remove(&job->elem); delete_job(job);]. *)
Definition remove_job (p : ptr) : M unit :=
  let* _ := load_job p in
  modify (λ st, set_job_list (list_remove p (job_list st)) st) ;;
  delete_job p.

Definition get_status (s : job_status) : string :=
  match s with
  | FOREGROUND => "Foreground"
  | BACKGROUND => "Running"
  | STOPPED => "Stopped"
  | NEEDSTERMINAL => "Stopped (tty)"
  | _ => "Unknown"
  end.

(** [print_cmdline] renders the pipeline; a command without [argv[0]]
    makes it read through a null pointer. *)
Definition cmd_text (c : ast_command) : option string :=
  match argv c with
  | [] => None
  | a :: args => Some (a +:+ foldr (λ x acc, " " +:+ x +:+ acc) "" args)
  end.

Fixpoint cmdline_text (first : bool) (cs : list ast_command) : option string :=
  match cs with
  | [] => Some ""
  | c :: cs' =>
      match cmd_text c, cmdline_text false cs' with
      | Some s, Some r => Some ((if first then "" else "| ") +:+ s +:+ r)
      | _, _ => None
      end
  end.

Definition print_cmdline (pipeline : ast_pipeline) : M unit :=
  match cmdline_text true (commands pipeline) with
  | Some s => printf s
  | None => stop Fault
  end.

Definition print_job (p : ptr) : M unit :=
  let* j := load_job p in
  printf ("[" +:+ pretty (jid j) +:+ "]" +:+ tab +:+ get_status (status j)
          +:+ tab +:+ tab +:+ "(") ;;
  print_cmdline (pipe j) ;;
  printf (")" +:+ nl).

(** ** Terminal ownership *)

(** Modelled from the spec: termstate_management.c is not part of the
    sources.  [save] captures the current terminal mode into a slot,
    [give_to] restores a saved mode and makes [pgid] the controlling group,
    [give_back_to_shell] restores the shell's own mode and group, [sample]
    re-captures the shell's mode. *)
Definition termstate_save : M termios := gets tty_mode.

Definition termstate_give_terminal_to (saved : termios) (pgrp : Z) : M unit :=
  modify (λ st, set_tty_owner pgrp (set_tty_mode saved st)).

Definition termstate_give_terminal_back_to_shell : M unit :=
  modify (λ st, set_tty_owner (shell_pgrp st) (set_tty_mode (shell_tty_state st) st)).

Definition termstate_sample : M unit :=
  modify (λ st, set_shell_tty_state (tty_mode st) st).

Definition termstate_get_current_terminal_owner : M Z := gets tty_owner.

(** Modelled from the spec: signal_support.c is not part of the sources.
    Child-status notifications are suppressed while the flag is set. *)
Definition signal_block_sigchld : M unit := modify (set_sigchld_blocked true).
Definition signal_unblock_sigchld : M unit := modify (set_sigchld_blocked false).
Definition signal_is_blocked_sigchld : M bool := gets sigchld_blocked.

Definition assert (b : bool) : M unit := if b then ret tt else stop Aborted.

(** Modelled from the spec: [utils_fatal_error] (utils.c) prints its
    diagnostic and ends the process with a non-zero status. *)
Definition utils_fatal_error {A} (msg : string) : M A :=
  fprintf_stderr msg ;; stop FatalError.

(** ** Status reaper *)

(** Reading [job->procs[i]]: a slot outside the allocated array faults. *)
Definition procs_read (a : list process) (i : nat) : M process :=
  match a !! i with
  | Some pr => ret pr
  | None => stop Fault
  end.

(** The loop of [all_procs_stopped], [n] slots still to visit from [i]. *)
Fixpoint all_procs_stopped_from (a : list process) (i n : nat) : M bool :=
  match n with
  | O => ret true
  | S n' =>
      let* pr := procs_read a i in
      if decide (pstatus pr = PSTAT_RUNNING) then ret false
      else all_procs_stopped_from a (S i) n'
  end.

Definition all_procs_stopped (job : ptr) : M bool :=
  let* j := load_job job in
  all_procs_stopped_from (procs j) 0 (Z.to_nat (num_processes_alive j)).

(** The inner loop of [find_pid] over one job's live slots. *)
Fixpoint find_pid_in_procs (a : list process) (pid0 : Z) (i n : nat)
  : M (option nat) :=
  match n with
  | O => ret None
  | S n' =>
      let* pr := procs_read a i in
      if pid pr =? pid0 then ret (Some i)
      else find_pid_in_procs a pid0 (S i) n'
  end.

(** The outer loop of [find_pid] over the job list. *)
Fixpoint find_pid_from (l : list ptr) (pid0 : Z) : M (option (ptr * nat)) :=
  match l with
  | [] => ret None
  | p :: l' =>
      let* j := load_job p in
      let* r := find_pid_in_procs (procs j) pid0 0
                  (Z.to_nat (num_processes_alive j)) in
      match r with
      | Some i => ret (Some (p, i))
      | None => find_pid_from l' pid0
      end
  end.

(** [find_pid]: the job and the slot of the process. *)
Definition find_pid (pid0 : Z) : M (option (ptr * nat)) :=
  let* l := gets job_list in find_pid_from l pid0.

Definition is_tty_stop (status : Z) : bool :=
  (WSTOPSIG status =? SIGTTOU) || (WSTOPSIG status =? SIGTTIN).

Definition handle_stopped_child (pid0 status0 : Z) (job : ptr) (proc : nat)
  : M unit :=
  let* j := load_job job in
  if is_tty_stop status0 && bool_decide (status j = FOREGROUND) then
    termstate_give_terminal_to (saved_tty_state j) (pgid j) ;;
    kill (-1 * pgid j) SIGCONT
  else
    let* pr := procs_read (procs j) proc in
    let j1 := set_procs (<[proc := set_pstatus PSTAT_STOPPED pr]> (procs j)) j in
    store_job job j1 ;;
    let* all := all_procs_stopped job in
    if all then
      let* t := termstate_save in
      store_job job
        (set_saved_tty_state t
           (set_status (if is_tty_stop status0 then NEEDSTERMINAL else STOPPED)
              j1)) ;;
      print_job job
    else ret tt.

(** [memmove (a + dst, a + src, len * sizeof (process_t))] inside the
    array [a]; a negative length, or a range that leaves the array, faults. *)
Definition memmove_procs (a : list process) (dst src : nat) (len : Z)
  : option (list process) :=
  if len <? 0 then None
  else
    let n := Z.to_nat len in
    if bool_decide (src + n ≤ length a)%nat && bool_decide (dst + n ≤ length a)%nat
    then Some (take dst a ++ take n (drop src a) ++ drop (dst + n) a)
    else None.

Definition handle_terminated_child (pid0 status0 : Z) (job : ptr) (proc : nat)
  : M unit :=
  (if WIFSIGNALED status0 then printf (strsignal (WTERMSIG status0) +:+ nl)
   else ret tt) ;;
  let* j := load_job job in
  let procs_i := Z.of_nat proc in
  match memmove_procs (procs j) proc (S proc)
          (num_processes_alive j - procs_i - 1) with
  | None => stop Fault
  | Some a =>
      let j1 := set_num_processes_alive (num_processes_alive j - 1)
                  (set_procs a j) in
      store_job job j1 ;;
      if num_processes_alive j1 =? 0 then
        if bool_decide (status j1 = FOREGROUND) then
          (if WIFEXITED status0 && (WEXITSTATUS status0 =? 0)
           then termstate_sample else ret tt) ;;
          store_job job (set_status TERMINATED j1)
        else remove_job job
      else ret tt
  end.

Definition handle_child_status (pid0 status0 : Z) : M unit :=
  let* blocked := signal_is_blocked_sigchld in
  assert blocked ;;
  let* found := find_pid pid0 in
  match found with
  | None =>
      fprintf_stderr ("Received child status for unrecognized pid "
                      +:+ pretty pid0 +:+ nl) ;;
      stop (Exited 1)
  | Some (job, proc) =>
      if WIFSTOPPED status0 then handle_stopped_child pid0 status0 job proc
      else if WIFEXITED status0 || WIFSIGNALED status0
           then handle_terminated_child pid0 status0 job proc
           else ret tt
  end.

(** ** Waiting *)

(** One answer of [waitpid]: the child (or [-1], or [0] when [WNOHANG]
    finds nothing), the status word, and the mode in which the children
    have left the terminal by then. *)
Record wait_result := {
  w_child : Z;
  w_status : Z;
  w_tty : termios
}.

(** The loop of [wait_for_job]; a call blocks for ever once the kernel has
    no further answer. *)
Fixpoint wait_for_job_loop (ws : list wait_result) (job : ptr)
  : M (list wait_result) :=
  let* j := load_job job in
  if bool_decide (status j = FOREGROUND) && (0 <? num_processes_alive j) then
    match ws with
    | [] => stop Blocked
    | w :: ws' =>
        modify (set_tty_mode (w_tty w)) ;;
        if negb (w_child w =? -1) then
          handle_child_status (w_child w) (w_status w) ;;
          wait_for_job_loop ws' job
        else utils_fatal_error "waitpid failed, see code for explanation"
    end
  else ret ws.

Definition wait_for_job (ws : list wait_result) (job : ptr)
  : M (list wait_result) :=
  let* blocked := signal_is_blocked_sigchld in
  assert blocked ;;
  wait_for_job_loop ws job.

(** The loop of [sigchld_handler]: [WNOHANG] never blocks, and with nothing
    left to report [waitpid] returns a value that ends the loop. *)
Fixpoint sigchld_handler_loop (ws : list wait_result) : M (list wait_result) :=
  match ws with
  | [] => ret []
  | w :: ws' =>
      if 0 <? w_child w then
        modify (set_tty_mode (w_tty w)) ;;
        handle_child_status (w_child w) (w_status w) ;;
        sigchld_handler_loop ws'
      else ret ws'
  end.

Definition sigchld_handler (sig : Z) (ws : list wait_result)
  : M (list wait_result) :=
  assert (sig =? SIGCHLD) ;;
  sigchld_handler_loop ws.

(** Delivery of SIGCHLD: nothing happens while the signal is blocked; the
    kernel keeps it blocked for as long as the handler runs. *)
Definition deliver_sigchld (ws : list wait_result) : M unit :=
  let* blocked := signal_is_blocked_sigchld in
  if blocked then ret tt
  else
    signal_block_sigchld ;;
    sigchld_handler SIGCHLD ws ;;
    signal_unblock_sigchld.

(** ** Job control builtins *)

(** [list_next] on the job list: [None] when [e] is not linked in [l]
    (its links are no longer valid), [Some None] for [list_end]. *)
Fixpoint list_next (l : list ptr) (e : ptr) : option (option ptr) :=
  match l with
  | [] => None
  | x :: l' => if decide (x = e) then Some (head l') else list_next l' e
  end.

(** The loop of [exit_builtin]; [e] is the cursor [jobs_l_elem], [None]
    once it has reached [list_end].  The loop cannot run more often than
    the list is long, which bounds [fuel]. *)
Fixpoint exit_builtin_loop {A} (fuel : nat) (ws : list wait_result)
    (e : option ptr) : M A :=
  match e with
  | None => stop (Exited 0)
  | Some job =>
      match fuel with
      | O => stop OutOfFuel
      | S fuel' =>
          assign_status job FOREGROUND ;;
          let* j := load_job job in
          kill (-1 * pgid j) SIGKILL ;;
          let* ws' := wait_for_job ws job in
          let* l := gets job_list in
          match list_next l job with
          | None => stop Fault
          | Some e' => exit_builtin_loop fuel' ws' e'
          end
      end
  end.

(** [exit_builtin]; its two descriptor arguments are unused. *)
Definition exit_builtin {A} (ws : list wait_result) : M A :=
  let* l := gets job_list in
  exit_builtin_loop (length l) ws (head l).

Fixpoint jobs_builtin_loop (l : list ptr) : M unit :=
  match l with
  | [] => ret tt
  | p :: l' => print_job p ;; jobs_builtin_loop l'
  end.

Definition jobs_builtin : M unit :=
  let* l := gets job_list in jobs_builtin_loop l.

(** [atoi]: optional white space and sign, then the leading digits. *)
Definition is_space (c : Ascii.ascii) : bool :=
  let n := Ascii.nat_of_ascii c in
  (n =? 32)%nat || ((9 <=? n)%nat && (n <=? 13)%nat).

Definition digit_of (c : Ascii.ascii) : option Z :=
  let n := Ascii.nat_of_ascii c in
  if (48 <=? n)%nat && (n <=? 57)%nat then Some (Z.of_nat n - 48) else None.

Fixpoint atoi_digits (s : string) (acc : Z) : Z :=
  match s with
  | String c s' =>
      match digit_of c with
      | Some d => atoi_digits s' (10 * acc + d)
      | None => acc
      end
  | EmptyString => acc
  end.

Fixpoint atoi_skip (s : string) : string :=
  match s with
  | String c s' => if is_space c then atoi_skip s' else s
  | EmptyString => s
  end.

Definition atoi (s : string) : Z :=
  match atoi_skip s with
  | String c s' =>
      if Ascii.eqb c (Ascii.ascii_of_nat 45) then - atoi_digits s' 0
      else if Ascii.eqb c (Ascii.ascii_of_nat 43) then atoi_digits s' 0
      else atoi_digits (String c s') 0
  | EmptyString => 0
  end.

Definition no_such_job (a0 a1 : string) : M unit :=
  printf (a0 +:+ " " +:+ a1 +:+ ": No such job" +:+ nl).

(** The common prologue of [kill], [bg], [fg] and [stop]: [argv[1]] is
    converted (a missing argument is a null pointer handed to [atoi]), a
    number below 1 is reported, and the job is looked up all the same. *)
Definition builtin_job (args : list string) : M (Z * option ptr) :=
  match args with
  | a0 :: a1 :: _ =>
      let jid := atoi a1 in
      (if jid <? 1 then no_such_job a0 a1 else ret tt) ;;
      let* job := get_job_from_jid jid in
      ret (jid, job)
  | _ => stop Fault
  end.

(** The message of the [else] branch, printed from [argv[0]] and [argv[1]]. *)
Definition no_such_job_args (args : list string) : M unit :=
  match args with
  | a0 :: a1 :: _ => no_such_job a0 a1
  | _ => stop Fault
  end.

Definition kill_builtin (ws : list wait_result) (args : list string)
  : M (list wait_result) :=
  let* r := builtin_job args in
  match r.2 with
  | Some job =>
      assign_status job FOREGROUND ;;
      let* j := load_job job in
      kill (-1 * pgid j) SIGKILL ;;
      let* ws' := wait_for_job ws job in
      remove_job job ;;
      ret ws'
  | None => no_such_job_args args ;; ret ws
  end.

Definition bg_builtin (args : list string) : M unit :=
  let* r := builtin_job args in
  match r.2 with
  | Some job =>
      assign_status job BACKGROUND ;;
      let* j := load_job job in
      kill (-1 * pgid j) SIGCONT ;;
      printf ("[" +:+ pretty r.1 +:+ "] " +:+ pretty (pgid j) +:+ nl)
  | None => no_such_job_args args
  end.

Definition fg_builtin (ws : list wait_result) (args : list string)
  : M (list wait_result) :=
  let* r := builtin_job args in
  match r.2 with
  | Some job =>
      assign_status job FOREGROUND ;;
      let* j := load_job job in
      termstate_give_terminal_to (saved_tty_state j) (pgid j) ;;
      kill (-1 * pgid j) SIGCONT ;;
      print_cmdline (pipe j) ;;
      printf nl ;;
      let* ws' := wait_for_job ws job in
      let* j' := load_job job in
      (if bool_decide (status j' = TERMINATED) then remove_job job else ret tt) ;;
      ret ws'
  | None => no_such_job_args args ;; ret ws
  end.

Definition stop_builtin (args : list string) : M unit :=
  let* r := builtin_job args in
  match r.2 with
  | Some job =>
      let* j := load_job job in
      kill (-1 * pgid j) SIGSTOP
  | None => no_such_job_args args
  end.

(** [history] and [cd] only touch the history list and the working
    directory, which are outside of the job-control state. *)
Definition history_builtin (args : list string) : M unit := emit EHistory.

Definition cd_builtin (args : list string) : M unit :=
  match args !! 1%nat with
  | Some a1 => if String.eqb a1 "" then emit (EChdir None) else emit (EChdir (Some a1))
  | None => emit (EChdir None)
  end.

(** ** Spawning a pipeline *)

(** Answers of the kernel to [pipe2] and [posix_spawnp]. *)
Record pipe_result := { pipe_rc : Z; pipe_rd : Z; pipe_wr : Z }.
Record spawn_result := { spawn_rc : Z; spawn_pid : Z }.

(** Everything the kernel will answer while one command line runs. *)
Record world := {
  w_pipes : list pipe_result;
  w_spawns : list spawn_result;
  w_waits : list wait_result
}.

Definition set_w_waits (ws : list wait_result) (w : world) : world :=
  {| w_pipes := w_pipes w; w_spawns := w_spawns w; w_waits := ws |}.

(** The variables of the pipeline loop: [job], [prev_pipe], [pgrp]. *)
Record locals := {
  l_job : option ptr;
  l_prev_pipe : Z * Z;
  l_pgrp : Z
}.

Definition close_pipe (fds : Z * Z) : M unit :=
  (if 2 <? fds.1 then close fds.1 else ret tt) ;;
  (if 2 <? fds.2 then close fds.2 else ret tt).

(** What [malloc] hands out before the program has written to it. *)
Definition uninit_process : process :=
  {| pid := 0; pstatus := PSTAT_RUNNING;
     command := {| argv := []; dup_stderr_to_stdout := false |} |}.

Definition uninit_job (pipeline : ast_pipeline) : job :=
  {| pipe := pipeline; jid := 0; status := FOREGROUND;
     num_processes_alive := 0; saved_tty_state := 0; pgid := 0; procs := [] |}.

(** The branch "Process created successfully".  Modelled from the spec:
    spawn.h is not part of the sources; for a pipeline that is not a
    background job the spawn installs the new process group as the
    terminal's controlling group as part of process creation. *)
Definition spawn_success (pipeline : ast_pipeline) (command : ast_command)
    (proc_pid : Z) (loc : locals) : M locals :=
  let pgrp := if l_pgrp loc =? 0 then proc_pid else l_pgrp loc in
  (if bg_job pipeline then ret tt else modify (set_tty_owner pgrp)) ;;
  let* job :=
    match l_job loc with
    | Some job => ret job
    | None =>
        let* job := add_job pipeline (uninit_job pipeline) in
        let* j := load_job job in
        let* t := termstate_save in
        store_job job
          (set_saved_tty_state t
             (set_status (if bg_job pipeline then BACKGROUND else FOREGROUND)
                (set_procs (replicate (length (commands pipeline)) uninit_process)
                   (set_pgid pgrp j)))) ;;
        ret job
    end in
  let* j := load_job job in
  let n := num_processes_alive j in
  if (0 <=? n) && (n <? Z.of_nat (length (procs j))) then
    store_job job
      (set_num_processes_alive (n + 1)
         (set_procs (<[Z.to_nat n :=
                       {| pid := proc_pid; pstatus := PSTAT_RUNNING;
                          command := command |}]> (procs j)) j)) ;;
    ret {| l_job := Some job; l_prev_pipe := l_prev_pipe loc; l_pgrp := pgrp |}
  else stop Fault.

(** The block "Create pipe" of the loop over the commands: the values of
    [new_pipe] and what the kernel is still to answer. *)
Definition create_pipe (last : bool) (w : world) : M ((Z * Z) * world) :=
  if last then ret ((-1, STDOUT_FILENO), w)
  else
    match w_pipes w with
    | [] => stop OutOfFuel
    | r :: rs =>
        if pipe_rc r <? 0 then
          fprintf_stderr "pipe2 error" ;;
          exit_builtin (w_waits w)
        else ret ((pipe_rd r, pipe_wr r),
                  {| w_pipes := rs; w_spawns := w_spawns w;
                     w_waits := w_waits w |})
    end.

(** The chain of [strcmp]s on [argv[0]]: the builtin that runs, if the
    command names one; it returns the answers of [waitpid] that are left. *)
Definition run_builtin (a0 : string) (args : list string)
    (ws : list wait_result) : option (M (list wait_result)) :=
  if String.eqb a0 "exit" then Some (exit_builtin ws)
  else if String.eqb a0 "jobs" then Some (jobs_builtin ;; ret ws)
  else if String.eqb a0 "kill" then Some (kill_builtin ws args)
  else if String.eqb a0 "bg" then Some (bg_builtin args ;; ret ws)
  else if String.eqb a0 "fg" then Some (fg_builtin ws args)
  else if String.eqb a0 "stop" then Some (stop_builtin args ;; ret ws)
  else if String.eqb a0 "history" then Some (history_builtin args ;; ret ws)
  else if String.eqb a0 "cd" then Some (cd_builtin args ;; ret ws)
  else None.

(** The block "Not a builtin: execute external program". *)
Definition spawn_command (pipeline : ast_pipeline) (command : ast_command)
    (a0 : string) (new_pipe : Z * Z) (loc : locals) (w : world)
  : M (locals * world) :=
  match w_spawns w with
  | [] => stop OutOfFuel
  | r :: rs =>
      let* loc' :=
        (if spawn_rc r =? ENOENT then
           printf (a0 +:+ ": No such file or directory" +:+ nl) ;;
           ret loc
         else if negb (spawn_rc r =? 0) then
           fprintf_stderr ("posix_spawnp error: " +:+ pretty (spawn_rc r)
                           +:+ nl) ;;
           exit_builtin (w_waits w)
         else spawn_success pipeline command (spawn_pid r) loc) in
      close_pipe (l_prev_pipe loc') ;;
      ret ({| l_job := l_job loc'; l_prev_pipe := new_pipe;
              l_pgrp := l_pgrp loc' |},
           {| w_pipes := w_pipes w; w_spawns := rs; w_waits := w_waits w |})
  end.

(** One round of the loop over the commands of a pipeline. *)
Definition run_command (pipeline : ast_pipeline) (command : ast_command)
    (last : bool) (loc : locals) (w : world) : M (locals * world) :=
  let* npw := create_pipe last w in
  let new_pipe := npw.1 in
  let w := npw.2 in
  match argv command with
  | [] => stop Fault
  | a0 :: _ =>
      match run_builtin a0 (argv command) (w_waits w) with
      | Some builtin =>
          let* ws := builtin in
          ret (loc, set_w_waits ws w)
      | None => spawn_command pipeline command a0 new_pipe loc w
      end
  end.

Fixpoint run_commands (pipeline : ast_pipeline) (cs : list ast_command)
    (loc : locals) (w : world) : M (locals * world) :=
  match cs with
  | [] => ret (loc, w)
  | c :: cs' =>
      let* r := run_command pipeline c (bool_decide (cs' = [])) loc w in
      run_commands pipeline cs' r.1 r.2
  end.

(** One round of the loop over the pipelines of a command line. *)
Definition run_pipeline (pipeline : ast_pipeline) (w : world) : M world :=
  let* r := run_commands pipeline (commands pipeline)
              {| l_job := None; l_prev_pipe := (STDIN_FILENO, -1); l_pgrp := 0 |}
              w in
  let loc := r.1 in
  let w := r.2 in
  match l_job loc with
  | Some job =>
      if negb (bg_job pipeline) then
        let* j := load_job job in
        termstate_give_terminal_to (saved_tty_state j) (l_pgrp loc) ;;
        let* ws := wait_for_job (w_waits w) job in
        let* j' := load_job job in
        (if bool_decide (status j' = TERMINATED) then remove_job job else ret tt) ;;
        ret (set_w_waits ws w)
      else
        let* j := load_job job in
        printf ("[" +:+ pretty (jid j) +:+ "] " +:+ pretty (pgid j) +:+ nl) ;;
        ret w
  | None => ret w
  end.

Fixpoint run_pipelines (ps : list ast_pipeline) (w : world) : M world :=
  match ps with
  | [] => ret w
  | p :: ps' => let* w' := run_pipeline p w in run_pipelines ps' w'
  end.

(** ** The read/eval loop *)

(** What happens around one prompt: the SIGCHLD deliveries while the shell
    sits in [readline], the line read ([None] at end of file, [Some None]
    when the parser rejects it), the kernel's answers while the line runs,
    and the delivery that follows the unblocking of SIGCHLD, if one is
    pending. *)
Record prompt_input := {
  in_async : list (list wait_result);
  in_line : option (option ast_command_line);
  in_world : world;
  in_pending : option (list wait_result)
}.

Fixpoint deliver_all (l : list (list wait_result)) : M unit :=
  match l with
  | [] => ret tt
  | ws :: l' => deliver_sigchld ws ;; deliver_all l'
  end.

(** The body of [for (;;)] up to and including the decision to leave the
    loop: [true] is "break". *)
Definition shell_loop_body (i : prompt_input) : M bool :=
  let* blocked := signal_is_blocked_sigchld in
  assert (negb blocked) ;;
  let* owner := termstate_get_current_terminal_owner in
  let* pgrp := gets shell_pgrp in
  assert (owner =? pgrp) ;;
  deliver_all (in_async i) ;;
  match in_line i with
  | None => ret true
  | Some None => ret false
  | Some (Some cline) =>
      match pipes cline with
      | [] => ret false
      | _ =>
          signal_block_sigchld ;;
          run_pipelines (pipes cline) (in_world i) ;;
          signal_unblock_sigchld ;;
          match in_pending i with
          | Some ws => deliver_sigchld ws
          | None => ret tt
          end ;;
          termstate_give_terminal_back_to_shell ;;
          ret false
      end
  end.

(** [shell_loop] followed by the [return 0] of [main].  A run that has
    used up its input sits at the prompt. *)
Fixpoint shell_loop (inputs : list prompt_input) : M unit :=
  match inputs with
  | [] => ret tt
  | i :: inputs' =>
      let* leave := shell_loop_body i in
      if leave then stop (Exited 0) else shell_loop inputs'
  end.

(** The state in which [main] enters [shell_loop]. *)
Definition init_shell (pgrp : Z) (mode : termios) : shell :=
  {| job_list := []; jid2job := ∅; heap := ∅; next_ptr := 0%nat;
     tty_owner := pgrp; tty_mode := mode; shell_tty_state := mode;
     shell_pgrp := pgrp; sigchld_blocked := false; log := [] |}.

(** ** Outcomes of a computation

    [post c st Q H]: run from [st], [c] either returns a value and a state
    that satisfy [Q] or ends the process in a way and a state that satisfy
    [H]. *)
Definition post {A} (c : M A) (st : shell)
    (Q : A → shell → Prop) (H : halt → shell → Prop) : Prop :=
  match c st with
  | Ret a st' => Q a st'
  | Halt h st' => H h st'
  end.

(** A state predicate that [c] cannot break: it holds again whenever [c]
    returns. *)
Definition preserves {A} (I : shell → Prop) (c : M A) : Prop :=
  ∀ st, I st → post c st (λ _ st', I st') (λ _ _, True).


(** The ways in which [c] can end the process all satisfy [Hs]. *)
Definition halts_in {A} (Hs : halt → Prop) (c : M A) : Prop :=
  ∀ st, post c st (λ _ _, True) (λ h _, Hs h).

(** How the status reaper can end the process: a failed assertion, a
    memory fault, or [exit(1)] for a pid it does not know. *)
Definition reaper_halt (h : halt) : Prop :=
  h = Aborted ∨ h = Fault ∨ h = Exited 1.

(** ** What one step of the reaper may do

    [job_step j j']: a job that survives a call of [handle_child_status]
    keeps its array, its process group and its pipeline; either its count
    is unchanged and its status is unchanged or becomes one of the two
    stopped ones, or one live process is gone, and the status changes only
    when the last one of a Foreground job went. *)
Definition job_step (j j' : job) : Prop :=
  length (procs j') = length (procs j)
  ∧ pgid j' = pgid j
  ∧ pipe j' = pipe j
  ∧ ((num_processes_alive j' = num_processes_alive j
      ∧ (status j' = status j
         ∨ (0 < num_processes_alive j
            ∧ (status j' = STOPPED ∨ status j' = NEEDSTERMINAL))))
     ∨ (0 < num_processes_alive j ≤ Z.of_nat (length (procs j))
        ∧ num_processes_alive j' = num_processes_alive j - 1
        ∧ ((0 < num_processes_alive j' ∧ status j' = status j)
           ∨ (status j = FOREGROUND ∧ status j' = TERMINATED
              ∧ num_processes_alive j' = 0)))).

Definition reaper_rel (st st' : shell) : Prop :=
  (∀ p j', heap st' !! p = Some j' →
     ∃ j, heap st !! p = Some j ∧ job_step j j')
  ∧ (∀ p, p ∈ job_list st' → p ∈ job_list st)
  ∧ jid2job st' ⊆ jid2job st
  ∧ next_ptr st' = next_ptr st
  ∧ shell_pgrp st' = shell_pgrp st
  ∧ sigchld_blocked st' = sigchld_blocked st
  ∧ (tty_owner st' = tty_owner st
     ∨ ∃ p j, heap st !! p = Some j ∧ status j = FOREGROUND
         ∧ tty_owner st' = pgid j).

(** What [remove_job p] does to the state when it returns. *)
Definition removal_rel (p : ptr) (st st' : shell) : Prop :=
  (∀ r j', heap st' !! r = Some j' →
     r ≠ p ∧ ∃ j, heap st !! r = Some j ∧ (j' = j ∨ j' = set_jid (-1) j))
  ∧ heap st' !! p = None
  ∧ job_list st' = list_remove p (job_list st)
  ∧ jid2job st' ⊆ jid2job st
  ∧ next_ptr st' = next_ptr st
  ∧ tty_owner st' = tty_owner st
  ∧ tty_mode st' = tty_mode st
  ∧ shell_tty_state st' = shell_tty_state st
  ∧ shell_pgrp st' = shell_pgrp st
  ∧ sigchld_blocked st' = sigchld_blocked st
  ∧ log st' = log st.

(** State predicates that survive everything the shell does to jobs that
    already exist: a step of the reaper, the removal of a job, a change of
    some job's status, and any change to the terminal, the signal mask or
    the output. *)
Record steady (I : shell → Prop) : Prop := {
  steady_reaper : ∀ st st', I st → reaper_rel st st' → I st';
  steady_removal : ∀ p st st', I st → removal_rel p st st' → I st';
  steady_status : ∀ p j s st, I st → heap st !! p = Some j →
                  I (set_heap (<[p := set_status s j]> (heap st)) st);
  steady_log : ∀ l st, I st → I (set_log l st);
  steady_tty_mode : ∀ t st, I st → I (set_tty_mode t st);
  steady_tty_owner : ∀ g st, I st → I (set_tty_owner g st);
  steady_shell_tty_state : ∀ t st, I st → I (set_shell_tty_state t st);
  steady_sigchld_blocked : ∀ b st, I st → I (set_sigchld_blocked b st)
}.

(** ** The live processes of a job *)

(** The live-process sequence of a job: the first [num_processes_alive]
    slots of its array. *)
Definition live_procs (j : job) : list process :=
  take (Z.to_nat (num_processes_alive j)) (procs j).

Definition count_ok (j : job) : Prop :=
  0 ≤ num_processes_alive j ≤ Z.of_nat (length (procs j)).

Definition counts_ok (st : shell) : Prop :=
  ∀ p j, heap st !! p = Some j → count_ok j.

(** While a pipeline is being spawned, its job has a free slot for each of
    the [k] commands that are still to come. *)
Definition room (cur : option ptr) (k : Z) (st : shell) : Prop :=
  ∀ p j, cur = Some p → heap st !! p = Some j →
    num_processes_alive j + k ≤ Z.of_nat (length (procs j)).

Definition spawn_inv (cur : option ptr) (k : Z) (st : shell) : Prop :=
  counts_ok st ∧ room cur k st.

(** No job has been created between [st0] and [st]: nothing was
    allocated, and both registry structures hold only what they held. *)
Definition no_new_jobs (st0 st : shell) : Prop :=
  next_ptr st = next_ptr st0
  ∧ (∀ p, p ∈ job_list st → p ∈ job_list st0)
  ∧ jid2job st ⊆ jid2job st0.

(** ** Sample states and sessions *)

Definition sample_command (args : list string) : ast_command :=
  {| argv := args; dup_stderr_to_stdout := false |}.

Definition sample_pipeline (cs : list (list string)) (bg : bool) : ast_pipeline :=
  {| commands := sample_command <$> cs; iored_input := None;
     iored_output := None; append_to_output := false; bg_job := bg |}.

(** A job running [sleep 100] in each of the processes [pids]. *)
Definition sample_job (i : Z) (s : job_status) (pids : list Z) : job :=
  {| pipe := sample_pipeline ((λ _, ["sleep"; "100"]) <$> pids)
               (bool_decide (s = BACKGROUND));
     jid := i; status := s;
     num_processes_alive := Z.of_nat (length pids);
     saved_tty_state := 0; pgid := default 0 (head pids);
     procs := (λ p, {| pid := p; pstatus := PSTAT_RUNNING;
                       command := sample_command ["sleep"; "100"] |}) <$> pids |}.

(** A shell whose registry holds [jobs], the k-th of them at address k. *)
Definition sample_shell (jobs : list job) (blocked : bool) : shell :=
  {| job_list := seq 0 (length jobs);
     jid2job := list_to_map (zip (jid <$> jobs) (seq 0 (length jobs)));
     heap := list_to_map (zip (seq 0 (length jobs)) jobs);
     next_ptr := length jobs;
     tty_owner := 1; tty_mode := 0; shell_tty_state := 0; shell_pgrp := 1;
     sigchld_blocked := blocked; log := [] |}.

Definition answer (child status0 : Z) : wait_result :=
  {| w_child := child; w_status := status0; w_tty := 7 |}.

(** Status words: exit with code 0, death by SIGKILL, stops by SIGTSTP and
    by SIGTTIN. *)
Definition status_exit0 : Z := 0.
Definition status_killed : Z := SIGKILL.
Definition status_tstp : Z := Z.lor (Z.shiftl SIGTSTP 8) 0x7f.
Definition status_ttin : Z := Z.lor (Z.shiftl SIGTTIN 8) 0x7f.

Definition no_answers : world :=
  {| w_pipes := []; w_spawns := []; w_waits := [] |}.

(** Typing [line] at a quiet prompt, the kernel answering [w]. *)
Definition typed (line : list ast_pipeline) (w : world) : prompt_input :=
  {| in_async := []; in_line := Some (Some {| pipes := line |});
     in_world := w; in_pending := None |}.

Definition end_of_file : prompt_input :=
  {| in_async := []; in_line := None; in_world := no_answers;
     in_pending := None |}.

(** [sleep 100 &], spawned as process 100. *)
Definition sleep_in_background : prompt_input :=
  typed [sample_pipeline [["sleep"; "100"]] true]
    {| w_pipes := []; w_spawns := [{| spawn_rc := 0; spawn_pid := 100 |}];
       w_waits := [] |}.

(** [sleep 1 | fg 1 | fg 2]: process 200 exits while [fg 1] waits, then
    job 1 is stopped from the keyboard. *)
Definition sleep_fg_fg : prompt_input :=
  typed [sample_pipeline [["sleep"; "1"]; ["fg"; "1"]; ["fg"; "2"]] false]
    {| w_pipes := [{| pipe_rc := 0; pipe_rd := 3; pipe_wr := 4 |};
                   {| pipe_rc := 0; pipe_rd := 5; pipe_wr := 6 |}];
       w_spawns := [{| spawn_rc := 0; spawn_pid := 200 |}];
       w_waits := [answer 200 status_exit0; answer 100 status_tstp] |}.

(** [cat | wc] when [pipe2] fails. *)
Definition pipe_failure : prompt_input :=
  typed [sample_pipeline [["cat"]; ["wc"]] false]
    {| w_pipes := [{| pipe_rc := -1; pipe_rd := 0; pipe_wr := 0 |}];
       w_spawns := []; w_waits := [answer 100 status_killed] |}.

(** [nosuchprogram], which [posix_spawnp] does not find. *)
Definition not_found : prompt_input :=
  typed [sample_pipeline [["nosuchprogram"]] false]
    {| w_pipes := []; w_spawns := [{| spawn_rc := ENOENT; spawn_pid := 0 |}];
       w_waits := [] |}.

(** The state a run ends in, whichever way it ends. *)
Definition final_state {A} (r : result A) : shell :=
  match r with Ret _ st => st | Halt _ st => st end.

(** ** What the kernel reports after [exit] has killed the jobs *)

(** The death by SIGKILL of a process. *)
Definition killed (t : termios) (pr : process) : wait_result :=
  {| w_child := pid pr; w_status := status_killed; w_tty := t |}.

Definition job_live_procs (st : shell) (p : ptr) : list process :=
  match heap st !! p with
  | Some j => live_procs j
  | None => []
  end.

(** The deaths of all live processes of the jobs [l], job after job. *)
Definition kill_answers (t : termios) (st : shell) (l : list ptr)
  : list wait_result :=
  l ≫= (λ p, killed t <$> job_live_procs st p).

(** What [exit_builtin] relies on: SIGCHLD is blocked, the job list links
    each job once, every linked job is allocated with a count inside its
    array, and no live process has the pid -1. *)
Record exit_ready (st : shell) : Prop := {
  exit_ready_blocked : sigchld_blocked st = true;
  exit_ready_nodup : NoDup (job_list st);
  exit_ready_jobs : ∀ p, p ∈ job_list st →
                    ∃ j, heap st !! p = Some j ∧ count_ok j;
  exit_ready_pids : ∀ p pr, p ∈ job_list st → pr ∈ job_live_procs st p →
                    pid pr ≠ -1
}.

(** ** What the loops of the reaper compute *)

(** The job and the slot that a scan of the job list in order, and of the
    live slots of each job in order, meets first for a pid. *)
Fixpoint first_live (st : shell) (l : list ptr) (pid0 : Z) : option (ptr * nat) :=
  match l with
  | [] => None
  | p :: l' =>
      match list_find (λ pr, pid pr = pid0) (job_live_procs st p) with
      | Some (k, _) => Some (p, k)
      | None => first_live st l' pid0
      end
  end.

(** Every linked job is allocated and its count lies inside its array. *)
Definition jobs_allocated (st : shell) : Prop :=
  ∀ p, p ∈ job_list st → ∃ j, heap st !! p = Some j ∧ count_ok j.

(** At most one job is Foreground, and a Foreground job's process group
    owns the terminal. *)
Definition foreground_owner (st : shell) : Prop :=
  (∀ p q j j', heap st !! p = Some j → heap st !! q = Some j' →
     status j = FOREGROUND → status j' = FOREGROUND → p = q)
  ∧ (∀ p j, heap st !! p = Some j → status j = FOREGROUND →
       tty_owner st = pgid j).

(** The three pieces in which [print_job] writes its line. *)
Definition job_line (j : job) (cmdline : string) : list event :=
  [EStdout ("[" +:+ pretty (jid j) +:+ "]" +:+ tab +:+ get_status (status j)
            +:+ tab +:+ tab +:+ "(");
   EStdout cmdline;
   EStdout (")" +:+ nl)].

(** ** Deaths reported by the kernel *)





(** ** Pipelines of external commands *)

(** A command whose [argv[0]] is none of the builtins' names. *)
Definition external (c : ast_command) : Prop :=
  ∃ a0 rest, argv c = a0 :: rest ∧ run_builtin a0 (argv c) [] = None.

(** The slot written for command [c] when its spawn answered [r]. *)
Definition spawned (c : ast_command) (r : spawn_result) : process :=
  {| pid := spawn_pid r; pstatus := PSTAT_RUNNING; command := c |}.

(** What [close_pipe] closes. *)
Definition close_events (fds : Z * Z) : list event :=
  (if 2 <? fds.1 then [EClose fds.1] else [])
  ++ (if 2 <? fds.2 then [EClose fds.2] else []).

Definition pipe_closes (r : pipe_result) : list event :=
  close_events (pipe_rd r, pipe_wr r).

(** The job a pipeline has after each of its commands was spawned. *)
Definition spawned_job (pipeline : ast_pipeline) (i : Z) (t : termios)
    (rs : list spawn_result) : job :=
  {| pipe := pipeline; jid := i;
     status := if bg_job pipeline then BACKGROUND else FOREGROUND;
     num_processes_alive := Z.of_nat (length (commands pipeline));
     saved_tty_state := t;
     pgid := default 0 (spawn_pid <$> head rs);
     procs := zip_with spawned (commands pipeline) rs |}.

(** ** File actions of a spawned command *)

Definition STDERR_FILENO : Z := 2.

(** Flags of [open] (fcntl.h on Linux). *)
Definition O_RDONLY : Z := 0.
Definition O_WRONLY : Z := 1.
Definition O_CREAT : Z := 64.
Definition O_TRUNC : Z := 512.
Definition O_APPEND : Z := 1024.

(** What [posix_spawn_file_actions_addopen], [_adddup2] and [_addclose]
    append to the list. *)
Inductive file_action :=
| FA_open (fd : Z) (path : string) (oflag mode : Z)
| FA_dup2 (fd newfd : Z)
| FA_close (fd : Z).

(** [setup_file_actions].  [first] and [last] are the comparisons of
    [&command->elem] with [list_begin] and [list_rbegin] of the pipeline's
    commands. *)
Definition setup_file_actions (pipeline : ast_pipeline) (first last : bool)
    (command : ast_command) (prev_pipe new_pipe : Z * Z) : list file_action :=
  (if first then
     match iored_input pipeline with
     | Some f => [FA_open STDIN_FILENO f O_RDONLY 0]
     | None => []
     end
   else [])
  ++ (if last then
        match iored_output pipeline with
        | Some f =>
            let o_flags := Z.lor O_WRONLY O_CREAT in
            let o_flags := if append_to_output pipeline
                           then Z.lor o_flags O_APPEND else o_flags in
            [FA_open STDOUT_FILENO f o_flags 438]
        | None => []
        end
      else [])
  ++ (if 2 <? prev_pipe.1 then [FA_dup2 prev_pipe.1 STDIN_FILENO] else [])
  ++ (if 2 <? new_pipe.2 then [FA_dup2 new_pipe.2 STDOUT_FILENO] else [])
  ++ (if 2 <? prev_pipe.1 then [FA_close prev_pipe.1] else [])
  ++ (if 2 <? prev_pipe.2 then [FA_close prev_pipe.2] else [])
  ++ (if 2 <? new_pipe.1 then [FA_close new_pipe.1] else [])
  ++ (if 2 <? new_pipe.2 then [FA_close new_pipe.2] else [])
  ++ (if dup_stderr_to_stdout command
      then [FA_dup2 STDOUT_FILENO STDERR_FILENO] else []).

(** What a descriptor of the child refers to: an open file of the shell,
    inherited, or a file opened by an action. *)
Inductive file :=
| Inherited (n : nat)
| Opened (path : string) (oflag mode : Z).

(** Modelled from the spec: ../posix_spawn/spawn.h is not part of the
    sources.  The child starts with the shell's descriptors and performs
    the actions in the order in which they were added: an open binds the
    descriptor to the file, a dup2 copies a binding and fails when its
    source is not open, a close drops a binding. *)
Definition run_action (t : gmap Z file) (a : file_action) : option (gmap Z file) :=
  match a with
  | FA_open fd path oflag mode => Some (<[fd := Opened path oflag mode]> t)
  | FA_dup2 fd newfd =>
      match t !! fd with
      | Some f => Some (<[newfd := f]> t)
      | None => None
      end
  | FA_close fd => Some (delete fd t)
  end.

Fixpoint run_actions (l : list file_action) (t : gmap Z file)
  : option (gmap Z file) :=
  match l with
  | [] => Some t
  | a :: l' =>
      match run_action t a with
      | Some t' => run_actions l' t'
      | None => None
      end
  end.
(** * Reasoning about the model *)

Lemma post_bind {A B} (c : M A) (k : A → M B) st Q H :
  post c st (λ a st', post (k a) st' Q H) H → post (bind c k) st Q H.
Proof. unfold post, bind. destruct (c st); auto. Qed.

Lemma post_mono {A} (c : M A) st (Q Q' : A → shell → Prop)
    (H H' : halt → shell → Prop) :
  post c st Q H →
  (∀ a s, Q a s → Q' a s) → (∀ h s, H h s → H' h s) →
  post c st Q' H'.
Proof. unfold post. destruct (c st); auto. Qed.

Lemma post_ret {A} (a : A) st (Q : A → shell → Prop) H : Q a st → post (ret a) st Q H.
Proof. done. Qed.

Lemma post_stop {A} h st (Q : A → shell → Prop) (H : halt → shell → Prop) :
  H h st → post (stop h) st Q H.
Proof. done. Qed.

Lemma post_gets {A} (f : shell → A) st (Q : A → shell → Prop) H :
  Q (f st) st → post (gets f) st Q H.
Proof. done. Qed.

Lemma post_modify (f : shell → shell) st (Q : unit → shell → Prop) H :
  Q tt (f st) → post (modify f) st Q H.
Proof. done. Qed.

Lemma post_load_job p st (Q : job → shell → Prop) (H : halt → shell → Prop) :
  (∀ j, heap st !! p = Some j → Q j st) →
  (heap st !! p = None → H Fault st) →
  post (load_job p) st Q H.
Proof. unfold post, load_job. destruct (heap st !! p); auto. Qed.

Lemma post_store_job p j st (Q : unit → shell → Prop) (H : halt → shell → Prop) :
  (∀ j0, heap st !! p = Some j0 → Q tt (set_heap (<[p := j]> (heap st)) st)) →
  (heap st !! p = None → H Fault st) →
  post (store_job p j) st Q H.
Proof. unfold post, store_job. destruct (heap st !! p); eauto. Qed.

Lemma post_assert b st (Q : unit → shell → Prop) (H : halt → shell → Prop) :
  (b = true → Q tt st) → (b = false → H Aborted st) → post (assert b) st Q H.
Proof. destruct b; unfold post; simpl; auto. Qed.

Lemma post_if {A} (b : bool) (c1 c2 : M A) st Q H :
  (b = true → post c1 st Q H) → (b = false → post c2 st Q H) →
  post (if b then c1 else c2) st Q H.
Proof. destruct b; auto. Qed.

Lemma preserves_bind {A B} I (c : M A) (k : A → M B) :
  preserves I c → (∀ a, preserves I (k a)) → preserves I (bind c k).
Proof.
  intros Hc Hk st HI. apply post_bind.
  eapply post_mono; [apply Hc, HI | | done].
  intros a s Hs. by apply Hk.
Qed.

Lemma preserves_ret {A} I (a : A) : preserves I (ret a).
Proof. by intros st HI. Qed.

Lemma preserves_stop {A} I h : preserves I (@stop A h).
Proof. by intros st HI. Qed.

Lemma post_any {A} (c : M A) st (Q : A → shell → Prop) (H : halt → shell → Prop) :
  (∀ a st', Q a st') → (∀ h st', H h st') → post c st Q H.
Proof. intros HQ HH. unfold post. destruct (c st); auto. Qed.

Lemma preserves_gets {A} I (f : shell → A) : preserves I (gets f).
Proof. by intros st HI. Qed.

Lemma preserves_modify I (f : shell → shell) :
  (∀ st, I st → I (f st)) → preserves I (modify f).
Proof. intros Hf st HI. by apply Hf. Qed.

Lemma preserves_if {A} I (b : bool) (c1 c2 : M A) :
  preserves I c1 → preserves I c2 → preserves I (if b then c1 else c2).
Proof. by destruct b. Qed.

Lemma preserves_assert I b : preserves I (assert b).
Proof. destruct b; [apply preserves_ret | apply preserves_stop]. Qed.

(** ** The job registry *)

Lemma MAXJOBS_eq : MAXJOBS = 65536.
Proof. reflexivity. Qed.

Lemma first_free_jid_spec (t : gmap Z ptr) (n : nat) (i : Z) :
  match first_free_jid t i n with
  | Some k => i ≤ k < i + Z.of_nat n ∧ t !! k = None
              ∧ ∀ m, i ≤ m < k → is_Some (t !! m)
  | None => ∀ m, i ≤ m < i + Z.of_nat n → is_Some (t !! m)
  end.
Proof.
  revert i. induction n as [|n IH]; intros i; simpl.
  - intros m Hm. lia.
  - destruct (t !! i) as [q|] eqn:Hi.
    + specialize (IH (i + 1)).
      destruct (first_free_jid t (i + 1) n) as [k|].
      * destruct IH as (Hk & Hfree & Hused). split; [lia|]. split; [done|].
        intros m Hm. destruct (decide (m = i)) as [->|]; [by rewrite Hi|].
        apply Hused. lia.
      * intros m Hm. destruct (decide (m = i)) as [->|]; [by rewrite Hi|].
        apply IH. lia.
    + split; [lia|]. split; [done|]. intros m Hm. lia.
Qed.

(** C9.  [get_job_from_jid] returns the job mapped at [jid] exactly when
    [0 < jid < 65536], and the null pointer for every other integer; it
    never reads outside of [jid2job] and never changes the state, so the
    ids that can name a job are 1 to 65535. *)
Theorem get_job_from_jid_spec (jid0 : Z) (st : shell) :
  MAXJOBS = 65536 ∧
  get_job_from_jid jid0 st =
    Ret (if bool_decide (0 < jid0 < 65536) then jid2job st !! jid0 else None) st.
Proof.
  split; [reflexivity|].
  unfold get_job_from_jid, jid2job_read. rewrite MAXJOBS_eq.
  destruct (Z.ltb_spec 0 jid0) as [H0|H0];
    destruct (Z.ltb_spec jid0 65536) as [H1|H1];
    try (rewrite bool_decide_eq_false_2 by lia; reflexivity).
  rewrite bool_decide_eq_true_2 by lia.
  replace (0 <=? jid0) with true by (symmetry; apply Z.leb_le; lia).
  simpl. by destruct (jid2job st !! jid0).
Qed.

(** C6.  [add_job] creates the job with no live process, gives it the
    smallest id of 1..65535 whose [jid2job] cell is empty, stores it in that
    cell and appends it to [job_list]; it aborts the process, instead of
    returning, exactly when every cell is taken. *)
Theorem add_job_spec (pipeline : ast_pipeline) (uninit : job) (st : shell) :
  match add_job pipeline uninit st with
  | Ret p st' =>
      ∃ j, heap st' !! p = Some j
        ∧ num_processes_alive j = 0
        ∧ pipe j = pipeline
        ∧ 0 < jid j < MAXJOBS
        ∧ jid2job st !! jid j = None
        ∧ (∀ k, 0 < k < jid j → is_Some (jid2job st !! k))
        ∧ jid2job st' = <[jid j := p]> (jid2job st)
        ∧ job_list st' = job_list st ++ [p]
  | Halt h st' =>
      h = Aborted ∧ ∀ k, 0 < k < MAXJOBS → is_Some (jid2job st !! k)
  end.
Proof.
  unfold add_job.
  pose proof (first_free_jid_spec (jid2job st) (Z.to_nat (MAXJOBS - 1)) 1) as Hscan.
  assert (Hn : Z.of_nat (Z.to_nat (MAXJOBS - 1)) = MAXJOBS - 1)
    by (rewrite Z2Nat.id; [done | rewrite MAXJOBS_eq; lia]).
  rewrite Hn in Hscan. cbn [jid2job set_job_list set_next_ptr set_heap].
  destruct (first_free_jid (jid2job st) 1 (Z.to_nat (MAXJOBS - 1))) as [i|].
  - destruct Hscan as (Hi & Hfree & Hused).
    eexists. cbn [heap set_heap set_jid2job jid2job job_list set_job_list].
    rewrite lookup_insert_eq. split; [reflexivity|]. cbn.
    repeat split; try done; try lia.
    intros k Hk. apply Hused. lia.
  - split; [done|]. intros k Hk. apply Hscan. lia.
Qed.

(** ** The status reaper *)

Lemma find_pid_in_procs_spec (a : list process) (pid0 : Z) (n i : nat) st :
  match find_pid_in_procs a pid0 i n st with
  | Ret (Some k) st' =>
      st' = st ∧ (i ≤ k < i + n)%nat
      ∧ ∃ pr, a !! k = Some pr ∧ pid pr = pid0
  | Ret None st' =>
      st' = st
      ∧ ∀ k pr, (i ≤ k < i + n)%nat → a !! k = Some pr → pid pr ≠ pid0
  | Halt h st' => h = Fault ∧ st' = st
  end.
Proof.
  revert i. induction n as [|n IH]; intros i; simpl.
  - unfold ret. split; [done|]. intros; lia.
  - unfold bind, procs_read. destruct (a !! i) as [pr|] eqn:Hi; simpl; [|done].
    destruct (Z.eqb_spec (pid pr) pid0) as [Heq|Hne].
    + unfold ret. split; [done|]. split; [lia|]. eauto.
    + specialize (IH (S i)).
      destruct (find_pid_in_procs a pid0 (S i) n st) as [[k|] st'|h st'].
      * destruct IH as (-> & Hk & Hpr). split; [done|]. split; [lia|]. done.
      * destruct IH as (-> & Hno). split; [done|].
        intros k pr' Hk Hk'. destruct (decide (k = i)) as [->|].
        -- congruence.
        -- eapply Hno; [|done]. lia.
      * done.
Qed.

Lemma find_pid_from_spec (l : list ptr) (pid0 : Z) st :
  match find_pid_from l pid0 st with
  | Ret (Some (p, k)) st' =>
      st' = st ∧ p ∈ l
      ∧ ∃ j pr, heap st !! p = Some j
          ∧ (k < Z.to_nat (num_processes_alive j))%nat
          ∧ procs j !! k = Some pr ∧ pid pr = pid0
  | Ret None st' => st' = st
  | Halt h st' => h = Fault ∧ st' = st
  end.
Proof.
  induction l as [|p l IH]; simpl; [done|].
  unfold bind at 1. unfold load_job.
  destruct (heap st !! p) as [j|] eqn:Hj; [|done].
  unfold bind.
  pose proof (find_pid_in_procs_spec (procs j) pid0
                (Z.to_nat (num_processes_alive j)) 0 st) as Hin.
  destruct (find_pid_in_procs (procs j) pid0 0 (Z.to_nat (num_processes_alive j)) st)
    as [[k|] st'|h st'].
  - destruct Hin as (-> & Hk & pr & Hpr & Hpid). unfold ret.
    split; [done|]. split; [apply elem_of_cons; by left|]. exists j, pr. repeat split; try done. lia.
  - destruct Hin as (-> & _).
    destruct (find_pid_from l pid0 st) as [[[q k]|] st'|h st']; try done.
    destruct IH as (-> & Hq & Hrest). split; [done|]. split; [apply elem_of_cons; by right|]. done.
  - done.
Qed.

Lemma find_pid_spec (pid0 : Z) st :
  match find_pid pid0 st with
  | Ret (Some (p, k)) st' =>
      st' = st ∧ p ∈ job_list st
      ∧ ∃ j pr, heap st !! p = Some j
          ∧ (k < Z.to_nat (num_processes_alive j))%nat
          ∧ procs j !! k = Some pr ∧ pid pr = pid0
  | Ret None st' => st' = st
  | Halt h st' => h = Fault ∧ st' = st
  end.
Proof. unfold find_pid, bind, gets. apply find_pid_from_spec. Qed.

Lemma is_tty_stop_true status0 :
  WSTOPSIG status0 = SIGTTIN ∨ WSTOPSIG status0 = SIGTTOU →
  is_tty_stop status0 = true.
Proof.
  unfold is_tty_stop. intros [->| ->]; reflexivity.
Qed.

(** C4.  A process of a Foreground job is reported stopped by SIGTTIN or
    SIGTTOU: the reaper hands the terminal to the job (its saved mode, its
    process group), sends SIGCONT to the group, and changes nothing else:
    the jobs, their processes (one recorded Running stays Running) and
    both registry structures are as before, and nothing is printed. *)
Theorem tty_stop_of_foreground_job (st : shell) (pid0 status0 : Z)
    (jp : ptr) (proc : nat) (j : job) :
  sigchld_blocked st = true →
  find_pid pid0 st = Ret (Some (jp, proc)) st →
  heap st !! jp = Some j →
  status j = FOREGROUND →
  WIFSTOPPED status0 = true →
  WSTOPSIG status0 = SIGTTIN ∨ WSTOPSIG status0 = SIGTTOU →
  ∃ st',
    handle_child_status pid0 status0 st = Ret tt st'
    ∧ tty_owner st' = pgid j
    ∧ tty_mode st' = saved_tty_state j
    ∧ log st' = log st ++ [EKill (- pgid j) SIGCONT]
    ∧ heap st' = heap st
    ∧ job_list st' = job_list st
    ∧ jid2job st' = jid2job st
    ∧ shell_tty_state st' = shell_tty_state st
    ∧ (∀ pr, procs j !! proc = Some pr → pstatus pr = PSTAT_RUNNING →
         ∃ j' pr', heap st' !! jp = Some j' ∧ status j' = FOREGROUND
           ∧ procs j' = procs j ∧ procs j' !! proc = Some pr'
           ∧ pstatus pr' = PSTAT_RUNNING).
Proof.
  intros Hblk Hfind Hj Hfg Hstop Hsig.
  unfold handle_child_status, bind, signal_is_blocked_sigchld, gets.
  rewrite Hblk. simpl. rewrite Hfind, Hstop.
  unfold handle_stopped_child, bind, load_job. rewrite Hj.
  rewrite (is_tty_stop_true _ Hsig), Hfg. simpl.
  eexists. split; [reflexivity|]. simpl.
  replace (- pgid j) with (-1 * pgid j) by lia.
  repeat split; try done.
  intros pr Hpr Hrun. exists j, pr. by rewrite Hj.
Qed.

Lemma memmove_procs_last (a : list process) (pr : process) :
  a !! 0%nat = Some pr → memmove_procs a 0 1 0 = Some a.
Proof.
  intros Ha. unfold memmove_procs. simpl.
  assert (1 ≤ length a)%nat by (destruct a; simpl in *; [done | lia]).
  rewrite !bool_decide_eq_true_2 by lia. simpl. by rewrite drop_0.
Qed.

Lemma elem_of_list_remove (p q : ptr) (l : list ptr) :
  q ∈ list_remove p l ↔ q ∈ l ∧ q ≠ p.
Proof. unfold list_remove. rewrite list_elem_of_filter. tauto. Qed.


(** Stepping through a computation whose next action is known. *)
Lemma post_load_job_known p j st (Q : job → shell → Prop) (H : halt → shell → Prop) :
  heap st !! p = Some j → Q j st → post (load_job p) st Q H.
Proof. intros Hp HQ. unfold post, load_job. by rewrite Hp. Qed.

Lemma post_store_job_known p j j0 st (Q : unit → shell → Prop)
    (H : halt → shell → Prop) :
  heap st !! p = Some j0 →
  Q tt (set_heap (<[p := j]> (heap st)) st) → post (store_job p j) st Q H.
Proof. intros Hp HQ. unfold post, store_job. by rewrite Hp. Qed.

Lemma post_known {A} (c : M A) st a st' (Q : A → shell → Prop)
    (H : halt → shell → Prop) :
  c st = Ret a st' → Q a st' → post c st Q H.
Proof. intros Hc HQ. unfold post. by rewrite Hc. Qed.

Lemma post_emit e st (Q : unit → shell → Prop) (H : halt → shell → Prop) :
  Q tt (set_log (log st ++ [e]) st) → post (emit e) st Q H.
Proof. done. Qed.

Lemma post_returns {A} (c : M A) st (Q : A → shell → Prop) :
  post c st Q (λ _ _, False) → ∃ a st', c st = Ret a st' ∧ Q a st'.
Proof. unfold post. destruct (c st); [eauto | done]. Qed.

Ltac fields :=
  cbn [job_list jid2job heap next_ptr tty_owner tty_mode shell_tty_state
       shell_pgrp sigchld_blocked log
       set_job_list set_jid2job set_heap set_next_ptr set_tty_owner
       set_tty_mode set_shell_tty_state set_sigchld_blocked set_log
       pipe jid status num_processes_alive saved_tty_state pgid procs
       set_status set_jid set_num_processes_alive set_saved_tty_state
       set_pgid set_procs pid pstatus command set_pstatus fst snd] in *.

Ltac wp :=
  cbv beta;
  lazymatch goal with
  | |- post (bind _ _) _ _ _ => apply post_bind
  | |- post (ret _) _ _ _ => apply post_ret
  | |- post (stop _) _ _ _ => apply post_stop
  | |- post (gets _) _ _ _ => apply post_gets
  | |- post (modify _) _ _ _ => apply post_modify
  | |- post (emit _) _ _ _ => apply post_emit
  | |- post (printf _) _ _ _ => apply post_emit
  | |- post (fprintf_stderr _) _ _ _ => apply post_emit
  | |- post (kill _ _) _ _ _ => apply post_emit
  | |- post (close _) _ _ _ => apply post_emit
  | |- post (signal_is_blocked_sigchld) _ _ _ => apply post_gets
  | |- post (signal_block_sigchld) _ _ _ => apply post_modify
  | |- post (signal_unblock_sigchld) _ _ _ => apply post_modify
  | |- post (termstate_save) _ _ _ => apply post_gets
  | |- post (termstate_get_current_terminal_owner) _ _ _ => apply post_gets
  | |- post (termstate_give_terminal_to _ _) _ _ _ => apply post_modify
  | |- post (termstate_give_terminal_back_to_shell) _ _ _ => apply post_modify
  | |- post (termstate_sample) _ _ _ => apply post_modify
  | |- post (assert _) _ _ _ => apply post_assert; intros ?; try discriminate
  end;
  cbv beta; fields.

(** C2.  The reaper sees the last live process of a job terminate.  A
    Foreground job stays in both registry structures with status
    Terminated and no live process, and the shell's terminal mode is
    sampled exactly when the process exited with status 0; any other job
    is unlinked from [job_list], its [jid2job] cell is cleared and it is
    freed, the shell's terminal mode being left alone. *)
Theorem last_process_terminated (st : shell) (pid0 status0 : Z)
    (jp : ptr) (proc : nat) (j : job) :
  sigchld_blocked st = true →
  find_pid pid0 st = Ret (Some (jp, proc)) st →
  heap st !! jp = Some j →
  num_processes_alive j = 1 →
  0 < jid j < MAXJOBS →
  jid2job st !! jid j = Some jp →
  WIFSTOPPED status0 = false →
  (WIFEXITED status0 || WIFSIGNALED status0) = true →
  ∃ st',
    handle_child_status pid0 status0 st = Ret tt st'
    ∧ (if bool_decide (status j = FOREGROUND) then
        job_list st' = job_list st
        ∧ jid2job st' = jid2job st
        ∧ (∃ j', heap st' !! jp = Some j' ∧ status j' = TERMINATED
             ∧ num_processes_alive j' = 0)
        ∧ shell_tty_state st' =
            (if WIFEXITED status0 && (WEXITSTATUS status0 =? 0)
             then tty_mode st else shell_tty_state st)
      else
        job_list st' = list_remove jp (job_list st)
        ∧ (jp ∉ job_list st')
        ∧ jid2job st' = delete (jid j) (jid2job st)
        ∧ heap st' = delete jp (heap st)
        ∧ shell_tty_state st' = shell_tty_state st).
Proof.
  intros Hblk Hfind Hj Hone Hjid Hcell Hstop Hterm.
  pose proof (find_pid_spec pid0 st) as Hspec. rewrite Hfind in Hspec.
  destruct Hspec as (_ & _ & j0 & pr & Hj0 & Hproc & Hpr & _).
  rewrite Hj in Hj0. injection Hj0 as <-. rewrite Hone in Hproc.
  assert (proc = 0%nat) as -> by lia.
  match goal with
  | |- ∃ st', _ = Ret tt st' ∧ @?Q st' =>
      cut (post (handle_child_status pid0 status0) st (λ _, Q) (λ _ _, False))
  end.
  { intros Hp. apply post_returns in Hp as ([] & st' & Hrun & HQ). eauto. }
  unfold handle_child_status. wp. wp. rewrite Hblk. wp. wp.
  wp. eapply post_known; [exact Hfind|]. cbv beta iota. rewrite Hstop, Hterm.
  unfold handle_terminated_child. wp.
  set (sig_line := EStdout (strsignal (WTERMSIG status0) +:+ nl)).
  assert (Hpre : ∀ Q' : unit → shell → Prop,
            (Q' tt st ∧ Q' tt (set_log (log st ++ [sig_line]) st)) →
            post (if WIFSIGNALED status0
                  then printf (strsignal (WTERMSIG status0) +:+ nl) else ret tt)
              st Q' (λ _ _, False)).
  { intros Q' [H1 H2]. destruct (WIFSIGNALED status0); by wp. }
  apply Hpre. clear Hpre.
  cut (∀ st1, heap st1 = heap st → job_list st1 = job_list st →
              jid2job st1 = jid2job st → shell_tty_state st1 = shell_tty_state st →
              tty_mode st1 = tty_mode st →
         post
           (let* j0 := load_job jp in
            match memmove_procs (procs j0) 0 1 (num_processes_alive j0 - Z.of_nat 0 - 1) with
            | Some a =>
                let j1 := set_num_processes_alive (num_processes_alive j0 - 1) (set_procs a j0) in
                store_job jp j1;;
                (if num_processes_alive j1 =? 0
                 then
                  if bool_decide (status j1 = FOREGROUND)
                  then
                   (if WIFEXITED status0 && (WEXITSTATUS status0 =? 0)
                    then termstate_sample else ret ());;
                   store_job jp (set_status TERMINATED j1)
                  else remove_job jp
                 else ret ())
            | None => stop Fault
            end) st1
           (λ _ st',
              if bool_decide (status j = FOREGROUND)
              then
               job_list st' = job_list st
               ∧ jid2job st' = jid2job st
                 ∧ (∃ j', heap st' !! jp = Some j' ∧ status j' = TERMINATED
                      ∧ num_processes_alive j' = 0)
                   ∧ shell_tty_state st' =
                     (if WIFEXITED status0 && (WEXITSTATUS status0 =? 0)
                      then tty_mode st else shell_tty_state st)
              else
               job_list st' = list_remove jp (job_list st)
               ∧ (jp ∉ job_list st')
                 ∧ jid2job st' = delete (jid j) (jid2job st)
                   ∧ heap st' = delete jp (heap st)
                     ∧ shell_tty_state st' = shell_tty_state st)
           (λ _ _, False)).
  { intros Hcut. split; by apply Hcut. }
  intros st1 Hheap1 Hlist1 Htab1 Hsh1 Hmode1.
  wp. eapply post_load_job_known; [by rewrite Hheap1|].
  rewrite Hone. change (1 - Z.of_nat 0 - 1) with 0.
  rewrite (memmove_procs_last _ _ Hpr). cbv zeta.
  wp. eapply post_store_job_known; [by rewrite Hheap1|]. fields.
  change (1 - 1 =? 0) with true. cbv iota.
  destruct (decide (status j = FOREGROUND)) as [Hfg|Hbg].
  - rewrite !bool_decide_eq_true_2 by done. wp.
    destruct (WIFEXITED status0 && (WEXITSTATUS status0 =? 0)); wp;
      (eapply post_store_job_known; [fields; apply lookup_insert_eq|]); fields;
      rewrite lookup_insert_eq; repeat split; eauto.
  - rewrite !bool_decide_eq_false_2 by done.
    unfold remove_job. wp.
    eapply post_load_job_known; [fields; apply lookup_insert_eq|].
    wp. wp. unfold delete_job. wp.
    eapply post_load_job_known; [fields; apply lookup_insert_eq|]. fields.
    destruct (Z.eqb_spec (jid j) (-1)) as [Hm|_]; [lia|].
    wp. wp. unfold jid2job_read. rewrite Htab1.
    replace ((0 <=? jid j) && (jid j <? MAXJOBS)) with true
      by (symmetry; apply andb_true_iff; split; [apply Z.leb_le | apply Z.ltb_lt]; lia).
    rewrite Hcell. wp.
    eapply post_load_job_known; [fields; apply lookup_insert_eq|]. wp.
    eapply post_store_job_known; [fields; apply lookup_insert_eq|]. wp. wp. wp.
    rewrite Hlist1, Hsh1, Hheap1.
    repeat split; try done.
    + rewrite elem_of_list_remove. tauto.
    + by rewrite Htab1.
    + by rewrite !delete_insert_eq.
Qed.

(** ** Ways of ending the process *)

Lemma halts_bind {A B} Hs (c : M A) (k : A → M B) :
  halts_in Hs c → (∀ a, halts_in Hs (k a)) → halts_in Hs (bind c k).
Proof.
  intros Hc Hk st. apply post_bind.
  eapply post_mono; [apply Hc | | done]. intros a s _. apply Hk.
Qed.

Lemma halts_ret {A} Hs (a : A) : halts_in Hs (ret a).
Proof. by intros st. Qed.

Lemma halts_gets {A} Hs (f : shell → A) : halts_in Hs (gets f).
Proof. by intros st. Qed.

Lemma halts_modify Hs f : halts_in Hs (modify f).
Proof. by intros st. Qed.

Lemma halts_stop {A} (Hs : halt → Prop) h : Hs h → halts_in Hs (@stop A h).
Proof. by intros Hh st. Qed.

Lemma halts_load_job (Hs : halt → Prop) p : Hs Fault → halts_in Hs (load_job p).
Proof. intros Hf st. unfold post, load_job. by destruct (heap st !! p). Qed.

Lemma halts_store_job (Hs : halt → Prop) p j : Hs Fault → halts_in Hs (store_job p j).
Proof. intros Hf st. unfold post, store_job. by destruct (heap st !! p). Qed.

Lemma halts_mono {A} (Hs Hs' : halt → Prop) (c : M A) :
  halts_in Hs c → (∀ h, Hs h → Hs' h) → halts_in Hs' c.
Proof. intros Hc Himp st. eapply post_mono; [apply Hc | done | eauto]. Qed.

Create HintDb halts.

#[local] Hint Resolve halts_ret halts_gets halts_modify : halts.
#[local] Hint Extern 1 (reaper_halt _) => (unfold reaper_halt; tauto) : halts.

Ltac halts_step :=
  lazymatch goal with
  | |- halts_in _ (bind _ _) => apply halts_bind; [| intros ?]
  | |- halts_in _ (ret _) => apply halts_ret
  | |- halts_in _ (gets _) => apply halts_gets
  | |- halts_in _ (modify _) => apply halts_modify
  | |- halts_in _ (emit _) => apply halts_modify
  | |- halts_in _ (printf _) => apply halts_modify
  | |- halts_in _ (fprintf_stderr _) => apply halts_modify
  | |- halts_in _ (kill _ _) => apply halts_modify
  | |- halts_in _ (close _) => apply halts_modify
  | |- halts_in _ signal_is_blocked_sigchld => apply halts_gets
  | |- halts_in _ signal_block_sigchld => apply halts_modify
  | |- halts_in _ signal_unblock_sigchld => apply halts_modify
  | |- halts_in _ termstate_save => apply halts_gets
  | |- halts_in _ termstate_get_current_terminal_owner => apply halts_gets
  | |- halts_in _ (termstate_give_terminal_to _ _) => apply halts_modify
  | |- halts_in _ termstate_give_terminal_back_to_shell => apply halts_modify
  | |- halts_in _ termstate_sample => apply halts_modify
  | |- halts_in _ (stop _) => apply halts_stop; auto with halts
  | |- halts_in _ (load_job _) => apply halts_load_job; auto with halts
  | |- halts_in _ (store_job _ _) => apply halts_store_job; auto with halts
  | |- halts_in _ (assert ?b) => destruct b; [apply halts_ret | apply halts_stop; auto with halts]
  | |- halts_in _ (procs_read _ _) => unfold procs_read
  | |- halts_in _ (if ?b then _ else _) => destruct b
  | |- halts_in _ (match ?x with _ => _ end) => destruct x
  | |- halts_in _ (let _ := _ in _) => cbv zeta
  end.

Ltac halts := repeat first [ halts_step | solve [ eauto with halts ] ].

Lemma all_procs_stopped_from_halts a i n :
  halts_in reaper_halt (all_procs_stopped_from a i n).
Proof. revert i. induction n; intros i; simpl; halts. Qed.
#[local] Hint Resolve all_procs_stopped_from_halts : halts.

Lemma all_procs_stopped_halts p : halts_in reaper_halt (all_procs_stopped p).
Proof. unfold all_procs_stopped. halts. Qed.
#[local] Hint Resolve all_procs_stopped_halts : halts.

Lemma find_pid_in_procs_halts a pid0 i n :
  halts_in reaper_halt (find_pid_in_procs a pid0 i n).
Proof. revert i. induction n; intros i; simpl; halts. Qed.
#[local] Hint Resolve find_pid_in_procs_halts : halts.

Lemma find_pid_halts pid0 : halts_in reaper_halt (find_pid pid0).
Proof.
  unfold find_pid. halts. induction a as [|p l IH]; simpl; halts.
Qed.
#[local] Hint Resolve find_pid_halts : halts.

Lemma print_job_halts p : halts_in reaper_halt (print_job p).
Proof. unfold print_job, print_cmdline. halts. Qed.
#[local] Hint Resolve print_job_halts : halts.

Lemma delete_job_halts p : halts_in reaper_halt (delete_job p).
Proof. unfold delete_job, jid2job_read. halts. Qed.
#[local] Hint Resolve delete_job_halts : halts.

Lemma remove_job_halts p : halts_in reaper_halt (remove_job p).
Proof. unfold remove_job. halts. Qed.
#[local] Hint Resolve remove_job_halts : halts.

Lemma handle_child_status_halts pid0 status0 :
  halts_in reaper_halt (handle_child_status pid0 status0).
Proof.
  unfold handle_child_status, handle_stopped_child, handle_terminated_child.
  halts.
Qed.
#[local] Hint Resolve handle_child_status_halts : halts.

Lemma sigchld_handler_loop_halts ws : halts_in reaper_halt (sigchld_handler_loop ws).
Proof. induction ws as [|w ws IH]; simpl; halts. Qed.
#[local] Hint Resolve sigchld_handler_loop_halts : halts.

Lemma sigchld_handler_halts sig ws : halts_in reaper_halt (sigchld_handler sig ws).
Proof. unfold sigchld_handler. halts. Qed.
#[local] Hint Resolve sigchld_handler_halts : halts.

(** ** Failure of [waitpid] *)

Lemma sigchld_handler_stops (w : wait_result) ws st :
  w_child w ≤ 0 → sigchld_handler SIGCHLD (w :: ws) st = Ret ws st.
Proof.
  intros Hw. unfold sigchld_handler, bind. simpl.
  destruct (Z.ltb_spec 0 (w_child w)); [lia | done].
Qed.

Lemma sigchld_handler_drains (w : wait_result) ws st :
  0 < w_child w →
  sigchld_handler SIGCHLD (w :: ws) st =
    (modify (set_tty_mode (w_tty w)) ;;
     handle_child_status (w_child w) (w_status w) ;;
     sigchld_handler SIGCHLD ws) st.
Proof.
  intros Hw. unfold sigchld_handler, bind. simpl.
  destruct (Z.ltb_spec 0 (w_child w)); [done | lia].
Qed.

Lemma sigchld_handler_never_blocks ws st h st' :
  sigchld_handler SIGCHLD ws st = Halt h st' → h ≠ Blocked ∧ h ≠ FatalError.
Proof.
  intros Hrun. pose proof (sigchld_handler_halts SIGCHLD ws st) as Hh.
  unfold post in Hh. rewrite Hrun in Hh.
  destruct Hh as [->|[->| ->]]; done.
Qed.

(** C10.  The same failed [waitpid] (-1) is ignored by the handler and is
    fatal to [wait_for_job].  The handler handles every answer that names a
    child and goes on with the next one, returns silently, leaving the
    state as it is, at the first answer that names none, and never blocks;
    [wait_for_job], waiting for a Foreground job that has live processes,
    ends the process with a diagnostic. *)
Theorem wait_failure_policy (w : wait_result) (ws : list wait_result)
    (st : shell) (jp : ptr) (j : job) :
  w_child w = -1 →
  sigchld_blocked st = true →
  heap st !! jp = Some j →
  status j = FOREGROUND →
  0 < num_processes_alive j →
  sigchld_handler SIGCHLD (w :: ws) st = Ret ws st
  ∧ wait_for_job (w :: ws) jp st =
      Halt FatalError
        (set_log (log st ++ [EStderr "waitpid failed, see code for explanation"])
           (set_tty_mode (w_tty w) st))
  ∧ (∀ w0 ws0 st0, w_child w0 ≤ 0 →
       sigchld_handler SIGCHLD (w0 :: ws0) st0 = Ret ws0 st0)
  ∧ (∀ w0 ws0 st0, 0 < w_child w0 →
       sigchld_handler SIGCHLD (w0 :: ws0) st0 =
         (modify (set_tty_mode (w_tty w0)) ;;
          handle_child_status (w_child w0) (w_status w0) ;;
          sigchld_handler SIGCHLD ws0) st0)
  ∧ (∀ ws0 st0 h st', sigchld_handler SIGCHLD ws0 st0 = Halt h st' →
       h ≠ Blocked ∧ h ≠ FatalError).
Proof.
  intros Hw Hblk Hj Hfg Hlive.
  split; [apply sigchld_handler_stops; lia|].
  split; [|split; [apply sigchld_handler_stops|
           split; [apply sigchld_handler_drains | apply sigchld_handler_never_blocks]]].
  unfold wait_for_job, bind, signal_is_blocked_sigchld, gets. rewrite Hblk.
  simpl. unfold bind, load_job. rewrite Hj, Hfg.
  rewrite bool_decide_eq_true_2 by done.
  replace (0 <? num_processes_alive j) with true by (symmetry; apply Z.ltb_lt; lia).
  simpl. rewrite Hw. reflexivity.
Qed.

(** ** One step of the reaper, as a relation between two states *)

Lemma job_step_refl j : job_step j j.
Proof. unfold job_step. repeat split; auto. Qed.

Lemma job_step_set_jid j i : job_step j (set_jid i j).
Proof. unfold job_step. fields. repeat split; auto. Qed.

Lemma reaper_rel_refl st : reaper_rel st st.
Proof.
  unfold reaper_rel. repeat split; auto.
  intros p j' Hp. exists j'. split; [done | apply job_step_refl].
Qed.

Lemma memmove_procs_spec a dst src len a' :
  memmove_procs a dst src len = Some a' →
  length a' = length a ∧ 0 ≤ len ∧ (src + Z.to_nat len ≤ length a)%nat.
Proof.
  unfold memmove_procs. destruct (Z.ltb_spec len 0) as [|Hlen]; [done|].
  destruct (bool_decide _) eqn:Hsrc; [|done].
  destruct (bool_decide (dst + _ ≤ _)%nat) eqn:Hdst; [|done].
  apply bool_decide_eq_true in Hsrc, Hdst. simpl. intros [= <-].
  split; [|split; [lia | done]].
  rewrite !length_app, !length_take, !length_drop. lia.
Qed.

Lemma all_procs_stopped_from_state a i n st :
  post (all_procs_stopped_from a i n) st (λ _ st', st' = st) (λ _ _, True).
Proof.
  revert i. induction n as [|n IH]; intros i; simpl; [by wp|].
  wp. unfold procs_read. destruct (a !! i); [|by wp]. wp.
  destruct (decide _); [by wp | apply IH].
Qed.

Lemma all_procs_stopped_state p st :
  post (all_procs_stopped p) st (λ _ st', st' = st) (λ _ _, True).
Proof.
  unfold all_procs_stopped. wp. apply post_load_job; [intros j Hj | done].
  apply all_procs_stopped_from_state.
Qed.

Lemma print_job_log p st :
  post (print_job p) st
    (λ _ st', ∃ l, st' = set_log l st) (λ _ _, True).
Proof.
  unfold print_job. wp. apply post_load_job; [intros j Hj | done]. wp. wp. wp.
  unfold print_cmdline. destruct (cmdline_text _ _); wp; [|done]. wp.
  by eexists.
Qed.

Lemma remove_job_spec p st :
  post (remove_job p) st (λ _ st', removal_rel p st st') (λ _ _, True).
Proof.
  unfold remove_job. wp. apply post_load_job; [intros j Hj | done].
  wp. wp. unfold delete_job. wp.
  eapply post_load_job_known; [exact Hj|].
  destruct (jid j =? -1); [by wp|]. wp. wp.
  destruct (jid2job_read _ _) as [[q|]|]; [|by wp..]. wp.
  apply post_load_job; [intros jq Hq | done]. fields. wp.
  eapply post_store_job_known; [exact Hq|]. wp. wp. wp.
  unfold removal_rel. fields.
  repeat split; try done.
  - intros ->. by rewrite lookup_delete_eq in H.
  - destruct (decide (r = p)) as [->|Hne]; [by rewrite lookup_delete_eq in H|].
    rewrite lookup_delete_ne in H by done.
    destruct (decide (r = q)) as [->|Hnq].
    + rewrite lookup_insert_eq in H. injection H as <-. eauto.
    + rewrite lookup_insert_ne in H by done. eauto.
  - apply lookup_delete_eq.
  - apply delete_subseteq.
Qed.

Lemma reaper_rel_update p j j' st st' :
  heap st !! p = Some j →
  heap st' = <[p := j']> (heap st) →
  job_step j j' →
  job_list st' = job_list st →
  jid2job st' = jid2job st →
  next_ptr st' = next_ptr st →
  shell_pgrp st' = shell_pgrp st →
  sigchld_blocked st' = sigchld_blocked st →
  tty_owner st' = tty_owner st →
  reaper_rel st st'.
Proof.
  intros Hj Hheap Hstep Hl Ht Hn Hg Hb Ho. unfold reaper_rel.
  rewrite Hheap, Hl, Ht, Hn, Hg, Hb, Ho. repeat split; auto.
  intros r jr Hr. destruct (decide (r = p)) as [->|Hne].
  - rewrite lookup_insert_eq in Hr. injection Hr as <-. eauto.
  - rewrite lookup_insert_ne in Hr by done. exists jr. split; [done | apply job_step_refl].
Qed.

Lemma handle_stopped_child_rel pid0 status0 p k j pr st :
  heap st !! p = Some j →
  (k < Z.to_nat (num_processes_alive j))%nat →
  procs j !! k = Some pr →
  post (handle_stopped_child pid0 status0 p k) st
    (λ _ st', reaper_rel st st') (λ _ _, True).
Proof.
  intros Hj Hk Hpr. unfold handle_stopped_child. wp.
  eapply post_load_job_known; [exact Hj|].
  destruct (is_tty_stop status0 && bool_decide (status j = FOREGROUND)) eqn:Htty.
  - apply andb_true_iff in Htty as [_ Hfg]. apply bool_decide_eq_true in Hfg.
    wp. wp. wp. unfold reaper_rel. fields. repeat split; auto.
    + intros r jr Hr. exists jr. split; [done | apply job_step_refl].
    + right. eauto.
  - wp. unfold procs_read. rewrite Hpr. wp. cbv zeta. wp.
    eapply post_store_job_known; [exact Hj|]. wp.
    eapply post_mono; [apply all_procs_stopped_state | | done].
    intros all st1 ->. cbv beta. destruct all.
    + wp. wp. wp.
      eapply post_store_job_known; [fields; apply lookup_insert_eq|].
      eapply post_mono; [apply print_job_log | | done].
      intros _ st2 [l ->]. eapply (reaper_rel_update p j); fields; try done.
      * by rewrite insert_insert_eq.
      * unfold job_step. fields. rewrite length_insert.
        repeat split; auto. left. split; [done|]. right. split; [lia|].
        destruct (is_tty_stop status0); auto.
    + wp. eapply (reaper_rel_update p j); fields; try done.
      unfold job_step. fields. rewrite length_insert. repeat split; auto.
Qed.

Lemma handle_terminated_child_rel pid0 status0 p k j pr st :
  heap st !! p = Some j →
  (k < Z.to_nat (num_processes_alive j))%nat →
  procs j !! k = Some pr →
  post (handle_terminated_child pid0 status0 p k) st
    (λ _ st', reaper_rel st st') (λ _ _, True).
Proof.
  intros Hj Hk Hpr. unfold handle_terminated_child. wp.
  apply (post_mono _ _ (λ _ st1, ∃ l, st1 = set_log l st) _ (λ _ _, True));
    [destruct (WIFSIGNALED status0); wp; [by eexists | exists (log st); by destruct st] | | done].
  intros _ st1 [l ->]. wp.
  eapply post_load_job_known; [exact Hj|].
  destruct (memmove_procs _ _ _ _) as [a|] eqn:Hmv; [|by wp].
  apply memmove_procs_spec in Hmv as (Hlen & Hnn & Hsrc). cbv zeta. wp.
  eapply post_store_job_known; [exact Hj|].
  set (j1 := set_num_processes_alive (num_processes_alive j - 1) (set_procs a j)).
  assert (Hstep1 : 0 < num_processes_alive j ≤ Z.of_nat (length (procs j))) by lia.
  destruct (Z.eqb_spec (num_processes_alive j - 1) 0) as [Hz|Hnz].
  - destruct (decide (status j = FOREGROUND)) as [Hfg|Hbg].
    + rewrite bool_decide_eq_true_2 by done. wp.
      apply (post_mono _ _ (λ _ st2, ∃ t, st2 = set_shell_tty_state t
                 (set_heap (<[p:=j1]> (heap st)) (set_log l st))) _ (λ _ _, True));
        [destruct (_ && _); wp; by eexists | | done].
      intros _ st2 [t ->].
      eapply post_store_job_known; [fields; apply lookup_insert_eq|].
      eapply (reaper_rel_update p j); fields; try done.
      * by rewrite insert_insert_eq.
      * unfold job_step. subst j1. fields. repeat split; auto.
        right. split; [done|]. split; [done|]. right. auto.
    + rewrite bool_decide_eq_false_2 by done.
      eapply post_mono; [apply remove_job_spec | | done].
      intros [] st2 Hrm. unfold removal_rel in Hrm. fields.
      destruct Hrm as (Hh & Hp & Hl & Ht & Hn & Ho & _ & _ & Hg & Hb & _).
      unfold reaper_rel. rewrite Hl, Hn, Ho, Hg, Hb. repeat split; auto.
      * intros r jr Hr. apply Hh in Hr as (Hne & j0 & Hj0 & Hjr).
        rewrite lookup_insert_ne in Hj0 by done. exists j0. split; [done|].
        destruct Hjr as [->| ->]; [apply job_step_refl | apply job_step_set_jid].
      * intros r Hr. apply elem_of_list_remove in Hr. tauto.
  - wp. eapply (reaper_rel_update p j); fields; try done.
    unfold job_step. subst j1. fields. repeat split; auto.
    right. split; [done|]. split; [done|]. left. split; [lia | done].
Qed.

Lemma handle_child_status_rel pid0 status0 st :
  post (handle_child_status pid0 status0) st
    (λ _ st', reaper_rel st st') (λ _ _, True).
Proof.
  unfold handle_child_status. wp. wp. wp. wp; [|done]. wp.
  pose proof (find_pid_spec pid0 st) as Hf. unfold post at 1.
  destruct (find_pid pid0 st) as [[[p k]|] st1|h st1]; [| |done].
  - destruct Hf as (-> & _ & j & pr & Hj & Hk & Hpr & _).
    destruct (WIFSTOPPED status0).
    + by eapply handle_stopped_child_rel.
    + destruct (_ || _); [by eapply handle_terminated_child_rel|].
      wp. apply reaper_rel_refl.
  - subst st1. wp. wp. done.
Qed.

(** ** Steady state predicates are preserved by the builtins *)

Lemma preserves_load_job I p : preserves I (load_job p).
Proof. intros st HI. apply post_load_job; auto. Qed.

Lemma preserves_post {A} I (c : M A) (R : shell → shell → Prop) :
  (∀ st, post c st (λ _ st', R st st') (λ _ _, True)) →
  (∀ st st', I st → R st st' → I st') →
  preserves I c.
Proof.
  intros Hc HR st HI. eapply post_mono; [apply Hc | | done].
  intros a s Hs. by eapply HR.
Qed.

Lemma preserves_any {A} I (c : M A) :
  (∀ st, post c st (λ _ _, False) (λ _ _, True)) → preserves I c.
Proof.
  intros Hc st HI. eapply post_mono; [apply Hc | | done]. intros ? ? [].
Qed.

Create HintDb pres.
#[local] Hint Resolve preserves_ret preserves_gets preserves_stop
  preserves_load_job preserves_assert : pres.

Ltac steady_env :=
  cbv beta;
  lazymatch goal with
  | HI : steady ?I |- ?I _ =>
      repeat first
        [ assumption
        | apply (steady_log _ HI)
        | apply (steady_tty_mode _ HI)
        | apply (steady_tty_owner _ HI)
        | apply (steady_shell_tty_state _ HI)
        | apply (steady_sigchld_blocked _ HI) ]
  end.

Ltac pres_modify := apply preserves_modify; intros ? ?; steady_env.

Ltac pres_step :=
  lazymatch goal with
  | |- preserves _ (bind _ _) => apply preserves_bind; [| intros ?]
  | |- preserves _ (ret _) => apply preserves_ret
  | |- preserves _ (stop _) => apply preserves_stop
  | |- preserves _ (gets _) => apply preserves_gets
  | |- preserves _ (modify _) => pres_modify
  | |- preserves _ (emit _) => pres_modify
  | |- preserves _ (printf _) => pres_modify
  | |- preserves _ (fprintf_stderr _) => pres_modify
  | |- preserves _ (kill _ _) => pres_modify
  | |- preserves _ (close _) => pres_modify
  | |- preserves _ signal_is_blocked_sigchld => apply preserves_gets
  | |- preserves _ signal_block_sigchld => pres_modify
  | |- preserves _ signal_unblock_sigchld => pres_modify
  | |- preserves _ termstate_save => apply preserves_gets
  | |- preserves _ termstate_get_current_terminal_owner => apply preserves_gets
  | |- preserves _ (termstate_give_terminal_to _ _) => pres_modify
  | |- preserves _ termstate_give_terminal_back_to_shell => pres_modify
  | |- preserves _ termstate_sample => pres_modify
  | |- preserves _ (load_job _) => apply preserves_load_job
  | |- preserves _ (assert _) => apply preserves_assert
  | |- preserves _ (if ?b then _ else _) => destruct b
  | |- preserves _ (match ?x with _ => _ end) => destruct x
  | |- preserves _ (let _ := _ in _) => cbv zeta
  end.

Ltac pres := repeat first [ pres_step | solve [ eauto with pres ] ].

Section Steady.
Context (I : shell → Prop) (HI : steady I).

Lemma assign_status_steady p s : preserves I (assign_status p s).
Proof.
  intros st Hst. unfold assign_status. wp.
  apply post_load_job; [intros j Hj | done].
  eapply post_store_job_known; [exact Hj|]. by eapply steady_status.
Qed.

Lemma remove_job_steady p : preserves I (remove_job p).
Proof.
  eapply preserves_post; [apply remove_job_spec|].
  intros st st' Hst Hr. by eapply steady_removal.
Qed.

Lemma handle_child_status_steady pid0 status0 :
  preserves I (handle_child_status pid0 status0).
Proof.
  eapply preserves_post; [apply handle_child_status_rel|].
  intros st st' Hst Hr. by eapply steady_reaper.
Qed.

Hint Resolve assign_status_steady remove_job_steady
  handle_child_status_steady : pres.

Lemma wait_for_job_loop_steady ws p : preserves I (wait_for_job_loop ws p).
Proof. induction ws as [|w ws IH]; simpl; unfold utils_fatal_error; pres. Qed.
Hint Resolve wait_for_job_loop_steady : pres.

Lemma wait_for_job_steady ws p : preserves I (wait_for_job ws p).
Proof. unfold wait_for_job. pres. Qed.

Lemma sigchld_handler_loop_steady ws : preserves I (sigchld_handler_loop ws).
Proof. induction ws as [|w ws IH]; simpl; pres. Qed.
Hint Resolve sigchld_handler_loop_steady : pres.

Lemma deliver_sigchld_steady ws : preserves I (deliver_sigchld ws).
Proof. unfold deliver_sigchld, sigchld_handler. pres. Qed.

Lemma deliver_all_steady l : preserves I (deliver_all l).
Proof.
  induction l as [|ws l IH]; simpl; pres. apply deliver_sigchld_steady.
Qed.

Lemma print_job_steady p : preserves I (print_job p).
Proof. unfold print_job, print_cmdline. pres. Qed.
Hint Resolve print_job_steady wait_for_job_steady : pres.

Lemma jobs_builtin_steady : preserves I jobs_builtin.
Proof.
  unfold jobs_builtin. pres. induction a as [|p l IH]; simpl; pres.
Qed.

Lemma get_job_from_jid_steady i : preserves I (get_job_from_jid i).
Proof.
  intros st Hst. unfold post. destruct (get_job_from_jid_spec i st) as [_ ->].
  done.
Qed.
Hint Resolve get_job_from_jid_steady : pres.

Lemma builtin_job_steady args : preserves I (builtin_job args).
Proof. unfold builtin_job, no_such_job. pres. Qed.

Lemma no_such_job_args_steady args : preserves I (no_such_job_args args).
Proof. unfold no_such_job_args, no_such_job. pres. Qed.
Hint Resolve builtin_job_steady no_such_job_args_steady : pres.

Lemma kill_builtin_steady ws args : preserves I (kill_builtin ws args).
Proof. unfold kill_builtin. pres. Qed.

Lemma bg_builtin_steady args : preserves I (bg_builtin args).
Proof. unfold bg_builtin. pres. Qed.

Lemma fg_builtin_steady ws args : preserves I (fg_builtin ws args).
Proof. unfold fg_builtin, print_cmdline. pres. Qed.

Lemma stop_builtin_steady args : preserves I (stop_builtin args).
Proof. unfold stop_builtin. pres. Qed.

Lemma history_builtin_steady args : preserves I (history_builtin args).
Proof. unfold history_builtin. pres. Qed.

Lemma cd_builtin_steady args : preserves I (cd_builtin args).
Proof. unfold cd_builtin. pres. Qed.

Lemma close_pipe_steady fds : preserves I (close_pipe fds).
Proof. unfold close_pipe. pres. Qed.
End Steady.

(** ** [exit_builtin] never returns *)

Lemma exit_builtin_loop_no_return {A} fuel ws e st :
  post (@exit_builtin_loop A fuel ws e) st (λ _ _, False) (λ _ _, True).
Proof.
  revert ws e st. induction fuel as [|fuel IH]; intros ws e st;
    destruct e as [p|]; simpl; try by wp.
  wp. apply post_any; [|done]. intros _ st1.
  wp. apply post_any; [|done]. intros j st2.
  wp. wp. wp. apply post_any; [|done]. intros ws' st3.
  wp. wp. destruct (list_next _ _) as [e'|]; [apply IH | by wp].
Qed.

Lemma exit_builtin_no_return {A} ws st :
  post (@exit_builtin A ws) st (λ _ _, False) (λ _ _, True).
Proof. unfold exit_builtin. wp. wp. apply exit_builtin_loop_no_return. Qed.

Lemma exit_builtin_preserves {A} I ws : preserves I (@exit_builtin A ws).
Proof. apply preserves_any. apply exit_builtin_no_return. Qed.

(** ** Counts and arrays *)

Lemma count_ok_live_procs j :
  count_ok j ↔ Z.of_nat (length (live_procs j)) = num_processes_alive j.
Proof.
  unfold count_ok, live_procs. rewrite length_take. lia.
Qed.

Lemma job_step_count_ok j j' : job_step j j' → count_ok j → count_ok j'.
Proof.
  unfold job_step, count_ok. intros (Hlen & _ & _ & Hc) Hok. rewrite Hlen.
  destruct Hc as [[-> _]|(Hpos & -> & _)]; lia.
Qed.

Lemma job_step_count_le j j' :
  job_step j j' →
  num_processes_alive j' ≤ num_processes_alive j
  ∧ length (procs j') = length (procs j).
Proof.
  unfold job_step. intros (Hlen & _ & _ & Hc). split; [|done].
  destruct Hc as [[-> _]|(Hpos & -> & _)]; lia.
Qed.

Lemma spawn_inv_steady cur k : steady (spawn_inv cur k).
Proof.
  split.
  - intros st st' [Hc Hr] (Hjobs & _). split.
    + intros p j' Hp. apply Hjobs in Hp as (j & Hj & Hstep).
      eapply job_step_count_ok; eauto.
    + intros p j' Hcur Hp. apply Hjobs in Hp as (j & Hj & Hstep).
      apply job_step_count_le in Hstep as [Hle Hlen]. rewrite Hlen.
      specialize (Hr p j Hcur Hj). lia.
  - intros q st st' [Hc Hr] (Hjobs & _). split.
    + intros p j' Hp. apply Hjobs in Hp as (_ & j & Hj & [->| ->]);
        [by eapply Hc | apply (Hc _ _ Hj)].
    + intros p j' Hcur Hp. apply Hjobs in Hp as (_ & j & Hj & [->| ->]);
        apply (Hr _ _ Hcur Hj).
  - intros q j s st [Hc Hr] Hq. split.
    + intros p j' Hp. fields. destruct (decide (p = q)) as [->|Hne].
      * rewrite lookup_insert_eq in Hp. injection Hp as <-. apply (Hc _ _ Hq).
      * rewrite lookup_insert_ne in Hp by done. by eapply Hc.
    + intros p j' Hcur Hp. fields. destruct (decide (p = q)) as [->|Hne].
      * rewrite lookup_insert_eq in Hp. injection Hp as <-. apply (Hr _ _ Hcur Hq).
      * rewrite lookup_insert_ne in Hp by done. by eapply Hr.
  - intros l st H. exact H.
  - intros l st H. exact H.
  - intros l st H. exact H.
  - intros l st H. exact H.
  - intros l st H. exact H.
Qed.

Lemma spawn_inv_weaken cur k k' st :
  k' ≤ k → spawn_inv cur k st → spawn_inv cur k' st.
Proof.
  intros Hk [Hc Hr]. split; [done|]. intros p j Hcur Hp.
  specialize (Hr p j Hcur Hp). lia.
Qed.

Lemma counts_ok_insert p j st :
  counts_ok st → count_ok j → counts_ok (set_heap (<[p := j]> (heap st)) st).
Proof.
  intros Hc Hj q jq Hq. fields. destruct (decide (q = p)) as [->|Hne].
  - rewrite lookup_insert_eq in Hq. by injection Hq as <-.
  - rewrite lookup_insert_ne in Hq by done. by eapply Hc.
Qed.

Lemma add_job_heap pipeline uninit st :
  post (add_job pipeline uninit) st
    (λ p st', ∃ j, heap st' = <[p := j]> (heap st)
                ∧ num_processes_alive j = 0 ∧ procs j = procs uninit)
    (λ _ _, True).
Proof.
  unfold post, add_job. fields.
  destruct (first_free_jid _ _ _); [|done]. fields.
  eexists. split; [by rewrite insert_insert_eq|]. by fields.
Qed.

Lemma spawn_success_spawn_inv pipeline cmd proc_pid loc k st :
  0 ≤ k →
  spawn_inv (l_job loc) (k + 1) st →
  (l_job loc = None → k + 1 ≤ Z.of_nat (length (commands pipeline))) →
  post (spawn_success pipeline cmd proc_pid loc) st
    (λ loc' st', spawn_inv (l_job loc') k st') (λ _ _, True).
Proof.
  intros Hk Hinv Hcap. unfold spawn_success. cbv zeta. wp.
  apply (post_mono _ _ (λ _ st1, spawn_inv (l_job loc) (k + 1) st1) _ (λ _ _, True));
    [destruct (bg_job pipeline); wp; [done | by apply (steady_tty_owner _ (spawn_inv_steady _ _))]
    | | done].
  intros _ st1 Hinv1. clear st Hinv. wp.
  apply (post_mono _ _ (λ p st2, spawn_inv (Some p) (k + 1) st2) _ (λ _ _, True));
    [| | done].
  - destruct (l_job loc) as [p|] eqn:Hcur; [by wp|]. wp.
    eapply post_mono; [apply add_job_heap | | done].
    intros p st2 (j0 & Hheap & Hzero & _). destruct Hinv1 as [Hc _].
    wp. eapply post_load_job_known; [rewrite Hheap; apply lookup_insert_eq|].
    wp. wp. wp.
    eapply post_store_job_known; [rewrite Hheap; apply lookup_insert_eq|].
    wp. rewrite Hheap, insert_insert_eq.
    set (jn := set_saved_tty_state _ _).
    assert (Hjn : num_processes_alive jn = 0
                  ∧ length (procs jn) = length (commands pipeline)).
    { subst jn; fields. by rewrite length_replicate. }
    destruct Hjn as [Hn Hl]. split.
    + intros q jq Hq. fields. destruct (decide (q = p)) as [->|Hne].
      * rewrite lookup_insert_eq in Hq. injection Hq as <-.
        unfold count_ok. lia.
      * rewrite lookup_insert_ne in Hq by done. by eapply Hc.
    + intros q jq [= <-] Hq. fields. rewrite lookup_insert_eq in Hq.
      injection Hq as <-. specialize (Hcap eq_refl). lia.
  - intros p st2 [Hc Hr]. wp.
    apply post_load_job; [intros j Hj | done]. cbv zeta.
    pose proof (Hc _ _ Hj) as Hok. unfold count_ok in Hok.
    pose proof (Hr _ _ eq_refl Hj) as Hroom.
    destruct (_ && _) eqn:Hguard; [|by wp].
    wp. eapply post_store_job_known; [exact Hj|]. wp. fields.
    split.
    + apply counts_ok_insert; [done|]. unfold count_ok. fields.
      rewrite length_insert. lia.
    + intros q jq [= <-] Hq. fields. rewrite lookup_insert_eq in Hq.
      injection Hq as <-. fields. rewrite length_insert. lia.
Qed.

(** The slot that the spawn loop writes is inside the array. *)
Lemma spawn_slot_in_bounds p j k st :
  0 ≤ k → spawn_inv (Some p) (k + 1) st → heap st !! p = Some j →
  (0 <=? num_processes_alive j)
  && (num_processes_alive j <? Z.of_nat (length (procs j))) = true.
Proof.
  intros Hk [Hc Hr] Hj. pose proof (Hc _ _ Hj) as Hok.
  pose proof (Hr _ _ eq_refl Hj). unfold count_ok in Hok.
  apply andb_true_iff. split; [apply Z.leb_le | apply Z.ltb_lt]; lia.
Qed.

(** ** The loop over the commands of a pipeline *)

Lemma create_pipe_state last w st :
  post (create_pipe last w) st
    (λ r st', st' = st ∧ w_waits r.2 = w_waits w ∧ w_spawns r.2 = w_spawns w)
    (λ _ _, True).
Proof.
  unfold create_pipe. destruct last; [by wp|].
  destruct (w_pipes w) as [|r rs]; [by wp|].
  destruct (pipe_rc r <? 0); [|by wp].
  wp. wp. eapply post_mono; [apply exit_builtin_no_return | | done].
  intros ? ? [].
Qed.

Lemma run_builtin_steady I a0 args ws c :
  steady I → run_builtin a0 args ws = Some c → preserves I c.
Proof.
  intros HI. unfold run_builtin.
  repeat (destruct (String.eqb a0 _);
          [intros [= <-];
           first [ apply exit_builtin_preserves
                 | by apply kill_builtin_steady
                 | by apply fg_builtin_steady
                 | apply preserves_bind;
                   [ first [ by apply jobs_builtin_steady
                           | by apply bg_builtin_steady
                           | by apply stop_builtin_steady
                           | by apply history_builtin_steady
                           | by apply cd_builtin_steady ]
                   | intros ?; apply preserves_ret ] ] |]).
  done.
Qed.

Lemma spawn_command_spawn_inv pipeline cmd a0 new_pipe loc w k st :
  0 ≤ k →
  spawn_inv (l_job loc) (k + 1) st →
  k + 1 ≤ Z.of_nat (length (commands pipeline)) →
  post (spawn_command pipeline cmd a0 new_pipe loc w) st
    (λ r st', spawn_inv (l_job r.1) k st') (λ _ _, True).
Proof.
  intros Hk Hinv Hcap. unfold spawn_command.
  destruct (w_spawns w) as [|r rs]; [by wp|]. wp.
  apply (post_mono _ _ (λ loc' st1, spawn_inv (l_job loc') k st1) _ (λ _ _, True));
    [| | done].
  - destruct (spawn_rc r =? ENOENT).
    + wp. wp. wp. eapply spawn_inv_weaken; [|exact Hinv]. lia.
    + destruct (negb _).
      * wp. wp. eapply post_mono; [apply exit_builtin_no_return | | done].
        intros ? ? [].
      * by apply spawn_success_spawn_inv.
  - intros loc' st1 Hinv1. wp.
    eapply post_mono;
      [by apply (close_pipe_steady _ (spawn_inv_steady (l_job loc') k)) | | done].
    intros ? st2 Hinv2. by wp.
Qed.

Lemma run_command_spawn_inv pipeline cmd last loc w k st :
  0 ≤ k →
  spawn_inv (l_job loc) (k + 1) st →
  k + 1 ≤ Z.of_nat (length (commands pipeline)) →
  post (run_command pipeline cmd last loc w) st
    (λ r st', spawn_inv (l_job r.1) k st') (λ _ _, True).
Proof.
  intros Hk Hinv Hcap. unfold run_command. wp.
  eapply post_mono; [apply create_pipe_state | | done].
  intros npw st1 (-> & _). cbv zeta.
  destruct (argv cmd) as [|a0 args]; [by wp|].
  destruct (run_builtin _ _ _) as [c|] eqn:Hb.
  - wp. eapply post_mono;
      [by apply (run_builtin_steady _ _ _ _ _ (spawn_inv_steady (l_job loc) (k + 1)) Hb)
      | | done].
    intros ws st2 Hinv2. wp. eapply spawn_inv_weaken; [|exact Hinv2]. lia.
  - by apply spawn_command_spawn_inv.
Qed.

Lemma run_commands_spawn_inv pipeline cs loc w st :
  spawn_inv (l_job loc) (Z.of_nat (length cs)) st →
  (length cs ≤ length (commands pipeline))%nat →
  post (run_commands pipeline cs loc w) st
    (λ r st', spawn_inv None 0 st') (λ _ _, True).
Proof.
  revert loc w st. induction cs as [|c cs IH]; intros loc w st Hinv Hlen; simpl.
  - wp. destruct Hinv as [Hc _]. split; [done|]. by intros ? ? [=].
  - wp. eapply post_mono;
      [apply (run_command_spawn_inv _ _ _ _ _ (Z.of_nat (length cs))) | | done].
    + lia.
    + simpl length in Hinv. by replace (Z.of_nat (length cs) + 1)
        with (Z.of_nat (S (length cs))) by lia.
    + simpl in Hlen. lia.
    + intros r st1 Hinv1. apply IH; [done|]. simpl in Hlen. lia.
Qed.

Lemma run_pipeline_counts_ok pipeline w st :
  spawn_inv None 0 st →
  post (run_pipeline pipeline w) st (λ _ st', spawn_inv None 0 st') (λ _ _, True).
Proof.
  intros Hinv. unfold run_pipeline. wp.
  eapply post_mono; [apply run_commands_spawn_inv | | done].
  - destruct Hinv as [Hc _]. split; [done|]. by intros ? ? [=].
  - done.
  - intros r st1 Hinv1. cbv zeta.
    pose proof (spawn_inv_steady None 0) as HI.
    revert st1 Hinv1. change (preserves (spawn_inv None 0)
      match l_job r.1 with
      | Some job =>
          if negb (bg_job pipeline)
          then
           let* j := load_job job
           in termstate_give_terminal_to (saved_tty_state j) (l_pgrp r.1);;
              (let* ws := wait_for_job (w_waits r.2) job
               in let* j' := load_job job
                  in (if bool_decide (status j' = TERMINATED)
                      then remove_job job
                      else ret ());;
                     ret (set_w_waits ws r.2))
          else
           let* j := load_job job
           in printf ("[" +:+ pretty (jid j) +:+ "] " +:+ pretty (pgid j) +:+ nl);;
              ret r.2
      | None => ret r.2
      end).
    pres; first [ by apply wait_for_job_steady | by apply remove_job_steady ].
Qed.

Lemma run_pipelines_counts_ok ps w st :
  spawn_inv None 0 st →
  post (run_pipelines ps w) st (λ _ st', spawn_inv None 0 st') (λ _ _, True).
Proof.
  revert w st. induction ps as [|p ps IH]; intros w st Hinv; simpl; [by wp|].
  wp. eapply post_mono; [by apply run_pipeline_counts_ok | | done].
  intros w' st1 Hinv1. by apply IH.
Qed.

Lemma shell_loop_body_counts_ok i :
  preserves (spawn_inv None 0) (shell_loop_body i).
Proof.
  pose proof (spawn_inv_steady None 0) as HI.
  unfold shell_loop_body.
  pres; first [ by apply deliver_all_steady | by apply deliver_sigchld_steady
              | intros st Hst; by apply run_pipelines_counts_ok ].
Qed.

Lemma shell_loop_counts_ok inputs :
  preserves (spawn_inv None 0) (shell_loop inputs).
Proof.
  induction inputs as [|i inputs IH]; simpl; [apply preserves_ret|].
  apply preserves_bind; [apply shell_loop_body_counts_ok|].
  intros []; [apply preserves_stop | apply IH].
Qed.

(** ** Removing a process keeps the others in order *)

Lemma memmove_procs_live (a a' : list process) (k n : nat) :
  (k < n)%nat →
  memmove_procs a k (S k) (Z.of_nat n - Z.of_nat k - 1) = Some a' →
  take (n - 1) a' = delete k (take n a).
Proof.
  intros Hk Hmv. pose proof (memmove_procs_spec _ _ _ _ _ Hmv) as (_ & _ & Hsrc).
  unfold memmove_procs in Hmv.
  destruct (_ <? 0); [done|]. destruct (_ && _); [|done]. injection Hmv as <-.
  replace (Z.to_nat (Z.of_nat n - Z.of_nat k - 1)) with (n - k - 1)%nat in * by lia.
  rewrite delete_take_drop, take_take, skipn_firstn_comm.
  replace (k `min` n)%nat with k by lia.
  replace (n - S k)%nat with (n - k - 1)%nat by lia.
  rewrite app_assoc, take_app_le.
  - rewrite take_ge; [done|]. rewrite length_app, !length_take, length_drop. lia.
  - rewrite length_app, !length_take, length_drop. lia.
Qed.

Lemma terminated_child_step (st : shell) (pid0 status0 : Z)
    (jp : ptr) (proc : nat) (j : job) :
  sigchld_blocked st = true →
  find_pid pid0 st = Ret (Some (jp, proc)) st →
  heap st !! jp = Some j →
  WIFSTOPPED status0 = false →
  (WIFEXITED status0 || WIFSIGNALED status0) = true →
  count_ok j →
  1 < num_processes_alive j ∨ status j = FOREGROUND →
  ∃ st' j',
    handle_child_status pid0 status0 st = Ret tt st'
    ∧ heap st' !! jp = Some j'
    ∧ num_processes_alive j' = num_processes_alive j - 1
    ∧ live_procs j' = delete proc (live_procs j)
    ∧ length (procs j') = length (procs j)
    ∧ pgid j' = pgid j
    ∧ status j' = (if num_processes_alive j - 1 =? 0 then TERMINATED else status j)
    ∧ (∀ q, q ≠ jp → heap st' !! q = heap st !! q)
    ∧ job_list st' = job_list st
    ∧ sigchld_blocked st' = sigchld_blocked st
    ∧ log st' = log st ++ (if WIFSIGNALED status0
                           then [EStdout (strsignal (WTERMSIG status0) +:+ nl)]
                           else []).
Proof.
  intros Hblk Hfind Hj Hstop Hterm Hok Hsurv.
  pose proof (find_pid_spec pid0 st) as Hspec. rewrite Hfind in Hspec.
  destruct Hspec as (_ & _ & j0 & pr & Hj0 & Hproc & Hpr & _).
  rewrite Hj in Hj0. injection Hj0 as <-.
  match goal with
  | |- ∃ st' j', _ = Ret tt st' ∧ @?Q st' j' =>
      cut (post (handle_child_status pid0 status0) st
             (λ _ st', ∃ j', Q st' j') (λ _ _, False))
  end.
  { intros Hp. apply post_returns in Hp as ([] & st' & Hrun & j' & HQ). eauto. }
  unfold handle_child_status. wp. wp. rewrite Hblk. wp. wp.
  wp. eapply post_known; [exact Hfind|]. cbv beta iota. rewrite Hstop, Hterm.
  unfold handle_terminated_child. wp.
  set (out := if WIFSIGNALED status0
              then [EStdout (strsignal (WTERMSIG status0) +:+ nl)] else []).
  apply (post_mono _ _ (λ _ st1, st1 = set_log (log st ++ out) st) _ (λ _ _, False));
    [subst out; destruct (WIFSIGNALED status0); wp;
       [done | rewrite app_nil_r; by destruct st]
    | | done].
  intros _ st1 ->. wp.
  eapply post_load_job_known; [exact Hj|].
  unfold count_ok in Hok.
  destruct (memmove_procs _ _ _ _) as [a|] eqn:Hmv.
  2: { unfold memmove_procs in Hmv.
       destruct (Z.ltb_spec (num_processes_alive j - Z.of_nat proc - 1) 0); [lia|].
       rewrite !bool_decide_eq_true_2 in Hmv by lia. done. }
  assert (Hlive : take (Z.to_nat (num_processes_alive j) - 1) a
                  = delete proc (live_procs j)).
  { apply memmove_procs_live; [lia|].
    by replace (Z.of_nat (Z.to_nat (num_processes_alive j)))
      with (num_processes_alive j) by lia. }
  apply memmove_procs_spec in Hmv as (Hlen & _).
  cbv zeta. wp. eapply post_store_job_known; [exact Hj|]. fields.
  destruct (Z.eqb_spec (num_processes_alive j - 1) 0) as [Hz|Hnz].
  - destruct Hsurv as [?|Hfg]; [lia|].
    rewrite bool_decide_eq_true_2 by done. wp.
    apply (post_mono _ _ (λ _ st2, ∃ t, st2 = set_shell_tty_state t
               (set_heap (<[jp := set_num_processes_alive
                     (num_processes_alive j - 1) (set_procs a j)]> (heap st))
                  (set_log (log st ++ out) st)))
             _ (λ _ _, False)); [destruct (_ && _); wp; by eexists | | done].
    intros _ st2 [t ->].
    eapply post_store_job_known; [fields; apply lookup_insert_eq|]. fields.
    rewrite lookup_insert_eq. eexists. split; [done|]. fields.
    repeat split; try done.
    + unfold live_procs at 1. fields. rewrite <- Hlive. f_equal. lia.
    + intros q Hq. by rewrite !lookup_insert_ne.
  - wp. rewrite lookup_insert_eq. eexists. split; [done|]. fields.
    repeat split; try done.
    + unfold live_procs at 1. fields. rewrite <- Hlive. f_equal. lia.
    + intros q Hq. by rewrite lookup_insert_ne.
Qed.

Lemma terminated_child_keeps_order (st : shell) (pid0 status0 : Z)
    (jp : ptr) (proc : nat) (j : job) :
  sigchld_blocked st = true →
  find_pid pid0 st = Ret (Some (jp, proc)) st →
  heap st !! jp = Some j →
  WIFSTOPPED status0 = false →
  (WIFEXITED status0 || WIFSIGNALED status0) = true →
  count_ok j →
  1 < num_processes_alive j ∨ status j = FOREGROUND →
  ∃ st' j',
    handle_child_status pid0 status0 st = Ret tt st'
    ∧ heap st' !! jp = Some j'
    ∧ num_processes_alive j' = num_processes_alive j - 1
    ∧ live_procs j' = delete proc (live_procs j).
Proof.
  intros Hblk Hfind Hj Hstop Hterm Hok Hsurv.
  destruct (terminated_child_step st pid0 status0 jp proc j)
    as (st' & j' & Hrun & Hj' & Hn & Hlive & _); try done.
  by exists st', j'.
Qed.

(** C7.  At every prompt, and after every step of the reaper, the count
    of each job equals the length of its live-process sequence (the first
    [num_processes_alive] slots of its array); and when the reaper removes
    a terminated process from a job that survives, the live-process
    sequence is the old one without that process, the others in their
    order. *)
Theorem live_count_invariant :
  (∀ inputs st0 st,
     counts_ok st0 →
     shell_loop inputs st0 = Ret tt st →
     ∀ p j, heap st !! p = Some j →
       Z.of_nat (length (live_procs j)) = num_processes_alive j)
  ∧ (∀ pid0 status0 st st',
       counts_ok st →
       handle_child_status pid0 status0 st = Ret tt st' →
       ∀ p j, heap st' !! p = Some j →
         Z.of_nat (length (live_procs j)) = num_processes_alive j)
  ∧ (∀ pid0 status0 st jp proc j,
       sigchld_blocked st = true →
       find_pid pid0 st = Ret (Some (jp, proc)) st →
       heap st !! jp = Some j →
       WIFSTOPPED status0 = false →
       (WIFEXITED status0 || WIFSIGNALED status0) = true →
       Z.of_nat (length (live_procs j)) = num_processes_alive j →
       1 < num_processes_alive j ∨ status j = FOREGROUND →
       ∃ st' j',
         handle_child_status pid0 status0 st = Ret tt st'
         ∧ heap st' !! jp = Some j'
         ∧ num_processes_alive j' = num_processes_alive j - 1
         ∧ live_procs j' = delete proc (live_procs j)).
Proof.
  assert (Hnone : ∀ s, counts_ok s → spawn_inv None 0 s)
    by (intros s Hs; split; [done | by intros ? ? [=]]).
  split; [|split].
  - intros inputs st0 st Hc0 Hrun p j Hj.
    pose proof (shell_loop_counts_ok inputs st0 (Hnone _ Hc0)) as Hpost.
    unfold post in Hpost. rewrite Hrun in Hpost. destruct Hpost as [Hc _].
    apply count_ok_live_procs. by eapply Hc.
  - intros pid0 status0 st st' Hc Hstep p j Hj.
    pose proof (handle_child_status_steady _ (spawn_inv_steady None 0)
                  pid0 status0 st (Hnone _ Hc)) as Hp.
    unfold post in Hp. rewrite Hstep in Hp. destruct Hp as [Hc' _].
    apply count_ok_live_procs. by eapply Hc'.
  - intros pid0 status0 st jp proc j Hblk Hfind Hj Hstop Hterm Hlive Hsurv.
    eapply terminated_child_keeps_order; eauto.
    by apply count_ok_live_procs.
Qed.

(** ** Programs that are not found *)

Lemma no_new_jobs_steady st0 : steady (no_new_jobs st0).
Proof.
  split; try (intros ? st H; exact H).
  - intros st st' (Hn & Hl & Ht) (_ & Hl' & Ht' & Hn' & _).
    split; [congruence|]. split; [auto|]. by etrans.
  - intros p st st' (Hn & Hl & Ht) (_ & _ & Hl' & Ht' & Hn' & _).
    split; [congruence|]. split; [|by etrans].
    intros q Hq. rewrite Hl' in Hq. apply elem_of_list_remove in Hq. apply Hl. tauto.
  - intros p j s st H _. exact H.
Qed.

Lemma spawn_command_not_found pipeline cmd a0 new_pipe loc w r rs st :
  w_spawns w = r :: rs →
  spawn_rc r = ENOENT →
  ∃ st',
    spawn_command pipeline cmd a0 new_pipe loc w st =
      Ret ({| l_job := l_job loc; l_prev_pipe := new_pipe; l_pgrp := l_pgrp loc |},
           {| w_pipes := w_pipes w; w_spawns := rs; w_waits := w_waits w |}) st'
    ∧ (∃ closes, log st' = log st
          ++ [EStdout (a0 +:+ ": No such file or directory" +:+ nl)] ++ closes
        ∧ Forall (λ e, ∃ fd, e = EClose fd) closes)
    ∧ job_list st' = job_list st
    ∧ jid2job st' = jid2job st
    ∧ heap st' = heap st
    ∧ next_ptr st' = next_ptr st.
Proof.
  intros Hw Hrc. unfold spawn_command. rewrite Hw, Hrc. simpl.
  unfold bind, printf, emit, modify, ret, close_pipe, bind, close, emit, modify.
  destruct (2 <? (l_prev_pipe loc).1), (2 <? (l_prev_pipe loc).2); simpl;
    (eexists; split; [reflexivity|]; simpl; repeat split; try done;
     eexists; split; [rewrite <- ?app_assoc; reflexivity|];
     repeat constructor; eauto).
Qed.

Lemma run_commands_no_job pipeline cs loc w st0 st :
  l_job loc = None →
  Forall (λ r, spawn_rc r ≠ 0) (w_spawns w) →
  no_new_jobs st0 st →
  post (run_commands pipeline cs loc w) st
    (λ r st', l_job r.1 = None ∧ no_new_jobs st0 st') (λ _ _, True).
Proof.
  revert loc w st. induction cs as [|c cs IH]; intros loc w st Hloc Hsp Hinv; simpl.
  { by wp. }
  wp. apply (post_mono _ _
      (λ r st', l_job r.1 = None ∧ Forall (λ r, spawn_rc r ≠ 0) (w_spawns r.2)
                ∧ no_new_jobs st0 st') _ (λ _ _, True)); [| | done].
  2: { intros r st1 (H1 & H2 & H3). by apply IH. }
  unfold run_command. wp.
  eapply post_mono; [apply create_pipe_state | | done].
  intros npw st1 (-> & _ & Hsp1). cbv zeta.
  destruct (argv c) as [|a0 args]; [by wp|].
  destruct (run_builtin _ _ _) as [b|] eqn:Hb.
  - wp. eapply post_mono;
      [by apply (run_builtin_steady _ _ _ _ _ (no_new_jobs_steady st0) Hb) | | done].
    intros ws st2 Hinv2. wp. simpl. rewrite Hsp1. done.
  - unfold spawn_command. rewrite Hsp1.
    destruct (w_spawns w) as [|r rs]; [by wp|].
    apply Forall_cons in Hsp as [Hr Hrs]. wp.
    apply (post_mono _ _ (λ loc' st2, l_job loc' = None ∧ no_new_jobs st0 st2)
             _ (λ _ _, True)); [| | done].
    + destruct (spawn_rc r =? ENOENT).
      * wp. wp. wp. split; [done|]. by apply (steady_log _ (no_new_jobs_steady st0)).
      * destruct (Z.eqb_spec (spawn_rc r) 0); [done|]. simpl.
        wp. wp. eapply post_mono; [apply exit_builtin_no_return | | done].
        intros ? ? [].
    + intros loc' st2 [Hl Hinv2]. wp.
      eapply post_mono;
        [by apply (close_pipe_steady _ (no_new_jobs_steady st0)) | | done].
      intros ? st3 Hinv3. by wp.
Qed.

(** C8.  A command whose spawn fails with ENOENT makes the shell print
    "<argv[0]>: No such file or directory" and go on with the loop: the
    registry is as before and the job of the pipeline, if any, is still
    the current one.  A pipeline none of whose spawns succeeds returns to
    the loop without having created a job: nothing was allocated and both
    registry structures hold only jobs they held before. *)
Theorem program_not_found :
  (∀ pipeline cmd a0 new_pipe loc w r rs st,
     w_spawns w = r :: rs →
     spawn_rc r = ENOENT →
     ∃ st',
       spawn_command pipeline cmd a0 new_pipe loc w st =
         Ret ({| l_job := l_job loc; l_prev_pipe := new_pipe;
                 l_pgrp := l_pgrp loc |},
              {| w_pipes := w_pipes w; w_spawns := rs; w_waits := w_waits w |}) st'
       ∧ (∃ closes, log st' = log st
             ++ [EStdout (a0 +:+ ": No such file or directory" +:+ nl)] ++ closes
           ∧ Forall (λ e, ∃ fd, e = EClose fd) closes)
       ∧ job_list st' = job_list st
       ∧ jid2job st' = jid2job st
       ∧ heap st' = heap st
       ∧ next_ptr st' = next_ptr st)
  ∧ (∀ pipeline w st w' st',
       Forall (λ r, spawn_rc r ≠ 0) (w_spawns w) →
       run_pipeline pipeline w st = Ret w' st' →
       no_new_jobs st st').
Proof.
  split; [apply spawn_command_not_found|].
  intros pipeline w st w' st' Hsp Hrun.
  cut (post (run_pipeline pipeline w) st (λ _ s, no_new_jobs st s) (λ _ _, True)).
  { unfold post. by rewrite Hrun. }
  unfold run_pipeline. wp.
  eapply post_mono; [apply (run_commands_no_job _ _ _ _ st) | | done]; try done.
  intros r st1 [Hl Hinv]. cbv zeta. rewrite Hl. by wp.
Qed.

(** * The properties on sample sessions *)

Lemma tty_stop_of_foreground_job_witness :
  ∃ st', handle_child_status 100 status_ttin
           (sample_shell [sample_job 1 FOREGROUND [100]] true) = Ret tt st'
         ∧ tty_owner st' = 100
         ∧ log st' = [EKill (-100) SIGCONT].
Proof.
  destruct (tty_stop_of_foreground_job
              (sample_shell [sample_job 1 FOREGROUND [100]] true)
              100 status_ttin 0%nat 0%nat (sample_job 1 FOREGROUND [100]))
    as (st' & Hrun & Howner & _ & Hlog & _);
    [reflexivity | reflexivity | reflexivity | reflexivity | reflexivity
    | left; reflexivity |].
  exists st'. split; [exact Hrun|]. split; [exact Howner | exact Hlog].
Defined.

Lemma last_process_terminated_witness :
  (∃ st', handle_child_status 100 status_exit0
            (sample_shell [sample_job 1 FOREGROUND [100]] true) = Ret tt st'
          ∧ job_list st' = [0%nat] ∧ shell_tty_state st' = 0)
  ∧ (∃ st', handle_child_status 100 status_killed
              (sample_shell [sample_job 1 BACKGROUND [100]] true) = Ret tt st'
            ∧ job_list st' = [] ∧ heap st' = ∅).
Proof.
  split.
  - destruct (last_process_terminated
                (sample_shell [sample_job 1 FOREGROUND [100]] true)
                100 status_exit0 0%nat 0%nat (sample_job 1 FOREGROUND [100]))
      as (st' & Hrun & Hl & _ & _ & Hsh);
      [reflexivity | reflexivity | reflexivity | reflexivity | done
      | reflexivity | reflexivity | reflexivity |].
    exists st'. split; [exact Hrun|]. split; [exact Hl | exact Hsh].
  - destruct (last_process_terminated
                (sample_shell [sample_job 1 BACKGROUND [100]] true)
                100 status_killed 0%nat 0%nat (sample_job 1 BACKGROUND [100]))
      as (st' & Hrun & Hl & _ & _ & Hh & _);
      [reflexivity | reflexivity | reflexivity | reflexivity | done
      | reflexivity | reflexivity | reflexivity |].
    exists st'. split; [exact Hrun|]. split; [exact Hl | exact Hh].
Defined.

Lemma wait_failure_policy_witness :
  sigchld_handler SIGCHLD [answer (-1) 0]
    (sample_shell [sample_job 1 FOREGROUND [100]] true)
  = Ret [] (sample_shell [sample_job 1 FOREGROUND [100]] true)
  ∧ ∃ st', wait_for_job [answer (-1) 0] 0%nat
             (sample_shell [sample_job 1 FOREGROUND [100]] true)
           = Halt FatalError st'.
Proof.
  destruct (wait_failure_policy (answer (-1) 0) []
              (sample_shell [sample_job 1 FOREGROUND [100]] true)
              0%nat (sample_job 1 FOREGROUND [100]))
    as (Hh & Hw & _);
    [reflexivity | reflexivity | reflexivity | reflexivity | done |].
  split; [exact Hh | eexists; exact Hw].
Defined.

Lemma sample_shell_heap_1 j b :
  heap (sample_shell [j] b) = <[0%nat := j]> ∅.
Proof. reflexivity. Qed.

Lemma live_count_invariant_witness :
  (∀ p j,
     heap (final_state (shell_loop [sleep_in_background] (init_shell 1 0))) !! p
       = Some j →
     Z.of_nat (length (live_procs j)) = num_processes_alive j)
  ∧ (∀ st', handle_child_status 100 status_tstp
              (sample_shell [sample_job 1 BACKGROUND [100; 101]] true) = Ret tt st' →
       ∀ p j, heap st' !! p = Some j →
         Z.of_nat (length (live_procs j)) = num_processes_alive j)
  ∧ (∃ st' j',
       handle_child_status 100 status_exit0
         (sample_shell [sample_job 1 FOREGROUND [100; 101; 102]] true) = Ret tt st'
       ∧ heap st' !! 0%nat = Some j'
       ∧ pid <$> live_procs j' = [101; 102]).
Proof.
  destruct live_count_invariant as (Hprompt & Hstep & Horder).
  split; [|split].
  - apply (Hprompt [sleep_in_background] (init_shell 1 0)).
    + intros p j Hj. cbn [heap init_shell] in Hj.
      rewrite lookup_empty in Hj. discriminate Hj.
    + vm_compute. reflexivity.
  - intros st'. apply Hstep.
    intros p j Hj. rewrite sample_shell_heap_1 in Hj.
    apply lookup_insert_Some in Hj as [[_ <-]|[_ Hj]];
      [|rewrite lookup_empty in Hj; discriminate Hj].
    unfold count_ok. simpl. lia.
  - destruct (Horder 100 status_exit0
                (sample_shell [sample_job 1 FOREGROUND [100; 101; 102]] true)
                0%nat 0%nat (sample_job 1 FOREGROUND [100; 101; 102]))
      as (st' & j' & Hrun & Hj' & _ & Hlive);
      [reflexivity | reflexivity | reflexivity | reflexivity | reflexivity
      | reflexivity | left; done |].
    exists st', j'. split; [exact Hrun|]. split; [exact Hj'|].
    rewrite Hlive. reflexivity.
Defined.

Lemma program_not_found_witness :
  (∃ st',
     spawn_command (sample_pipeline [["nosuchprogram"]] false)
       (sample_command ["nosuchprogram"]) "nosuchprogram" (-1, STDOUT_FILENO)
       {| l_job := None; l_prev_pipe := (STDIN_FILENO, -1); l_pgrp := 0 |}
       (in_world not_found) (init_shell 1 0)
     = Ret ({| l_job := None; l_prev_pipe := (-1, STDOUT_FILENO); l_pgrp := 0 |},
            no_answers) st'
     ∧ job_list st' = [])
  ∧ no_new_jobs (init_shell 1 0)
      (final_state (run_pipeline (sample_pipeline [["nosuchprogram"]] false)
                      (in_world not_found) (init_shell 1 0))).
Proof.
  destruct program_not_found as [Hcmd Hpipe]. split.
  - destruct (Hcmd (sample_pipeline [["nosuchprogram"]] false)
                (sample_command ["nosuchprogram"]) "nosuchprogram"
                (-1, STDOUT_FILENO)
                {| l_job := None; l_prev_pipe := (STDIN_FILENO, -1); l_pgrp := 0 |}
                (in_world not_found) {| spawn_rc := ENOENT; spawn_pid := 0 |} []
                (init_shell 1 0))
      as (st' & Hrun & _ & Hl & _); [reflexivity | reflexivity |].
    exists st'. split; [exact Hrun | exact Hl].
  - apply (Hpipe (sample_pipeline [["nosuchprogram"]] false) (in_world not_found)
             (init_shell 1 0) no_answers).
    + repeat constructor. discriminate.
    + vm_compute. reflexivity.
Defined.

(** ** [exit_builtin] kills and reaps every job *)

Lemma bind_Ret {A B} (c : M A) (k : A → M B) st a st' :
  c st = Ret a st' → bind c k st = k a st'.
Proof. intros Hc. unfold bind. by rewrite Hc. Qed.

Lemma load_job_Ret p j st : heap st !! p = Some j → load_job p st = Ret j st.
Proof. intros Hp. unfold load_job. by rewrite Hp. Qed.

Lemma wait_for_job_loop_done ws p j st :
  heap st !! p = Some j →
  status j ≠ FOREGROUND ∨ num_processes_alive j ≤ 0 →
  wait_for_job_loop ws p st = Ret ws st.
Proof.
  intros Hj Hdone.
  assert (Hcond : bool_decide (status j = FOREGROUND) && (0 <? num_processes_alive j)
                  = false).
  { destruct Hdone as [Hs|Hn].
    - by rewrite bool_decide_eq_false_2.
    - destruct (Z.ltb_spec 0 (num_processes_alive j)); [lia|]. apply andb_false_r. }
  destruct ws; simpl; rewrite (bind_Ret _ _ _ _ _ (load_job_Ret _ _ _ Hj)), Hcond;
    reflexivity.
Qed.

Lemma find_pid_from_first done p rest pr j st :
  (∀ q, q ∈ done → ∃ jq, heap st !! q = Some jq ∧ num_processes_alive jq = 0) →
  heap st !! p = Some j →
  0 < num_processes_alive j →
  procs j !! 0%nat = Some pr →
  find_pid_from (done ++ p :: rest) (pid pr) st = Ret (Some (p, 0%nat)) st.
Proof.
  intros Hdone Hj Hn Hpr. induction done as [|q done IH]; simpl.
  - rewrite (bind_Ret _ _ _ _ _ (load_job_Ret _ _ _ Hj)).
    destruct (Z.to_nat (num_processes_alive j)) as [|m] eqn:Hm; [lia|]. simpl.
    unfold bind, procs_read. rewrite Hpr. unfold ret. by rewrite Z.eqb_refl.
  - destruct (Hdone q) as (jq & Hq & Hz); [apply elem_of_cons; by left|].
    rewrite (bind_Ret _ _ _ _ _ (load_job_Ret _ _ _ Hq)), Hz. simpl.
    unfold bind at 1. unfold ret at 1. apply IH.
    intros q' Hq'. apply Hdone. apply elem_of_cons. by right.
Qed.

Lemma live_procs_cons j pr prs :
  live_procs j = pr :: prs →
  0 < num_processes_alive j ∧ procs j !! 0%nat = Some pr.
Proof.
  unfold live_procs. intros Hl.
  destruct (Z.to_nat (num_processes_alive j)) as [|m] eqn:Hm; [done|].
  split; [lia|]. destruct (procs j) as [|x a]; [done|]. injection Hl as -> _. reflexivity.
Qed.

Lemma wait_for_job_loop_reaps t prs :
  ∀ st p j done rest ws,
    heap st !! p = Some j →
    status j = FOREGROUND →
    count_ok j →
    live_procs j = prs →
    Forall (λ pr, pid pr ≠ -1) prs →
    sigchld_blocked st = true →
    job_list st = done ++ p :: rest →
    p ∉ done →
    (∀ q, q ∈ done → ∃ jq, heap st !! q = Some jq ∧ num_processes_alive jq = 0) →
    ∃ st' j',
      wait_for_job_loop ((killed t <$> prs) ++ ws) p st = Ret ws st'
      ∧ heap st' !! p = Some j'
      ∧ num_processes_alive j' = 0
      ∧ pgid j' = pgid j
      ∧ (∀ q, q ≠ p → heap st' !! q = heap st !! q)
      ∧ job_list st' = job_list st
      ∧ sigchld_blocked st' = true
      ∧ ∃ l, log st' = log st ++ l.
Proof.
  induction prs as [|pr prs IH];
    intros st p j done rest ws Hj Hfg Hok Hlive Hpids Hblk Hlist Hp Hdone.
  - assert (Hz : num_processes_alive j = 0).
    { apply count_ok_live_procs in Hok. rewrite Hlive in Hok. simpl in Hok. lia. }
    exists st, j. simpl. rewrite (wait_for_job_loop_done _ _ j); [|done|lia].
    repeat split; try done. exists []. by rewrite app_nil_r.
  - destruct (live_procs_cons _ _ _ Hlive) as [Hpos Hpr].
    apply Forall_cons in Hpids as [Hpid Hpids].
    set (st1 := set_tty_mode t st).
    assert (Hfind : find_pid (pid pr) st1 = Ret (Some (p, 0%nat)) st1).
    { unfold find_pid, bind, gets. subst st1. fields. rewrite Hlist.
      by apply (find_pid_from_first _ _ _ _ j). }
    destruct (terminated_child_step st1 (pid pr) status_killed p 0%nat j)
      as (st2 & j2 & Hrun & Hj2 & Hn2 & Hlive2 & _ & Hpg2 & Hst2 & Hoth & Hl2 & Hb2 & Hlog2);
      try done; [by right|].
    assert (Hstep : wait_for_job_loop ((killed t <$> pr :: prs) ++ ws) p st
                    = wait_for_job_loop ((killed t <$> prs) ++ ws) p st2).
    { simpl. rewrite (bind_Ret _ _ _ _ _ (load_job_Ret _ _ _ Hj)), Hfg.
      rewrite bool_decide_eq_true_2 by done.
      replace (0 <? num_processes_alive j) with true by (symmetry; apply Z.ltb_lt; lia).
      simpl. unfold bind at 1. unfold modify at 1.
      replace (pid pr =? -1) with false by (symmetry; by apply Z.eqb_neq).
      simpl. unfold bind at 1. fold st1. by rewrite Hrun. }
    rewrite Hstep. rewrite Hlive in Hlive2. simpl in Hlive2.
    assert (Hb2' : sigchld_blocked st2 = true) by (by rewrite Hb2).
    assert (Hl2' : job_list st2 = job_list st) by (by rewrite Hl2).
    assert (Hoth' : ∀ q, q ≠ p → heap st2 !! q = heap st !! q)
      by (intros q Hq; by rewrite Hoth).
    assert (Hlog2' : ∃ l, log st2 = log st ++ l) by (eexists; exact Hlog2).
    clear Hb2 Hl2 Hoth Hlog2 Hstep Hrun Hfind. clearbody st1.
    assert (Hok2 : count_ok j2).
    { apply count_ok_live_procs. apply count_ok_live_procs in Hok.
      rewrite Hlive2, Hn2. rewrite Hlive in Hok. simpl in Hok. lia. }
    destruct (Z.eqb_spec (num_processes_alive j - 1) 0) as [Hz|Hnz].
    + exists st2, j2.
      assert (prs = []) as ->.
      { apply count_ok_live_procs in Hok2. rewrite Hlive2, Hn2, Hz in Hok2.
        destruct prs; [done | simpl in Hok2; lia]. }
      simpl. rewrite (wait_for_job_loop_done _ _ j2); [|done|lia].
      repeat split; try done; lia.
    + destruct Hlog2' as [l2 Hlog2].
      destruct (IH st2 p j2 done rest ws)
        as (st3 & j3 & Hrun3 & Hj3 & Hn3 & Hpg3 & Hoth3 & Hl3 & Hb3 & l3 & Hlog3);
        try done; try congruence.
      { intros q Hq. rewrite Hoth' by (intros ->; done). by apply Hdone. }
      exists st3, j3. rewrite Hrun3. repeat split; try done; try congruence.
      * intros q Hq. rewrite Hoth3, Hoth' by done. done.
      * eexists. rewrite Hlog3, Hlog2. by rewrite <- app_assoc.
Qed.

Lemma list_next_middle done p rest :
  p ∉ done → list_next (done ++ p :: rest) p = Some (head rest).
Proof.
  intros Hp. induction done as [|q done IH]; simpl.
  - by rewrite decide_True.
  - apply not_elem_of_cons in Hp as [Hne Hp]. rewrite decide_False by done. by apply IH.
Qed.

Lemma kill_answers_cons t st p l :
  kill_answers t st (p :: l)
  = (killed t <$> job_live_procs st p) ++ kill_answers t st l.
Proof. reflexivity. Qed.

Lemma kill_answers_ext t st st' l :
  (∀ q, q ∈ l → heap st' !! q = heap st !! q) →
  kill_answers t st' l = kill_answers t st l.
Proof.
  intros Hl. induction l as [|q l IH]; [done|].
  rewrite !kill_answers_cons. unfold job_live_procs.
  rewrite Hl by (apply elem_of_cons; by left). f_equal.
  apply IH. intros q' Hq'. apply Hl. apply elem_of_cons. by right.
Qed.

Lemma exit_builtin_loop_reaps {A} t rest :
  ∀ done st fuel ws,
    job_list st = done ++ rest →
    NoDup (done ++ rest) →
    (length rest ≤ fuel)%nat →
    sigchld_blocked st = true →
    (∀ q, q ∈ done → ∃ jq, heap st !! q = Some jq ∧ num_processes_alive jq = 0) →
    (∀ q, q ∈ rest → ∃ jq, heap st !! q = Some jq ∧ count_ok jq) →
    (∀ q pr, q ∈ rest → pr ∈ job_live_procs st q → pid pr ≠ -1) →
    ∃ st',
      @exit_builtin_loop A fuel (kill_answers t st rest ++ ws) (head rest) st
        = Halt (Exited 0) st'
      ∧ job_list st' = job_list st
      ∧ (∀ q, q ∈ done → heap st' !! q = heap st !! q)
      ∧ (∀ q jq, q ∈ rest → heap st !! q = Some jq →
           ∃ jq', heap st' !! q = Some jq'
             ∧ num_processes_alive jq' = 0
             ∧ pgid jq' = pgid jq
             ∧ EKill (-1 * pgid jq) SIGKILL ∈ log st')
      ∧ ∃ l, log st' = log st ++ l.
Proof.
  induction rest as [|p rest IH];
    intros done st fuel ws Hlist Hnd Hfuel Hblk Hdone Hrest Hpids.
  - exists st. simpl. destruct fuel; simpl;
      (repeat split; try done; [by intros ? ? ?%elem_of_nil | exists []; by rewrite app_nil_r]).
  - destruct fuel as [|fuel]; [simpl in Hfuel; lia|].
    destruct (Hrest p) as (j & Hj & Hok); [apply elem_of_cons; by left|].
    assert (Hp : p ∉ done).
    { apply NoDup_app in Hnd as (_ & Hdisj & _). intros Hin.
      apply (Hdisj p Hin). apply elem_of_cons. by left. }
    assert (Hprest : p ∉ rest).
    { apply NoDup_app in Hnd as (_ & _ & Hnd). by apply NoDup_cons in Hnd as [? _]. }
    set (j1 := set_status FOREGROUND j).
    set (st1 := set_heap (<[p := j1]> (heap st)) st).
    set (st2 := set_log (log st1 ++ [EKill (-1 * pgid j1) SIGKILL]) st1).
    destruct (wait_for_job_loop_reaps t (live_procs j) st2 p j1 done rest
                (kill_answers t st rest ++ ws))
      as (st3 & j3 & Hwait & Hj3 & Hn3 & Hpg3 & Hoth3 & Hl3 & Hb3 & l3 & Hlog3);
      try done.
    { subst st2 st1. fields. apply lookup_insert_eq. }
    { apply Forall_forall. intros pr Hpr. apply (Hpids p); [apply elem_of_cons; by left|].
      unfold job_live_procs. by rewrite Hj. }
    { intros q Hq. subst st2 st1. fields.
      rewrite lookup_insert_ne by (intros ->; done). by apply Hdone. }
    assert (Hheap3 : ∀ q, q ≠ p → heap st3 !! q = heap st !! q).
    { intros q Hq. rewrite Hoth3 by done. subst st2 st1. fields.
      by rewrite lookup_insert_ne. }
    destruct (IH (done ++ [p]) st3 fuel ws)
      as (st4 & Hrun4 & Hl4 & Hdone4 & Hrest4 & l4 & Hlog4).
    { rewrite Hl3. subst st2 st1. fields. by rewrite Hlist, <- app_assoc. }
    { by rewrite <- app_assoc. }
    { simpl in Hfuel. lia. }
    { done. }
    { intros q [Hq|Hq%list_elem_of_singleton]%elem_of_app.
      - rewrite Hheap3 by (intros ->; done). by apply Hdone.
      - subst q. eauto. }
    { intros q Hq. rewrite Hheap3 by (intros ->; done).
      apply Hrest. apply elem_of_cons. by right. }
    { intros q pr Hq. unfold job_live_procs. rewrite Hheap3 by (intros ->; done).
      apply (Hpids q). apply elem_of_cons. by right. }
    exists st4. split.
    { rewrite kill_answers_cons, <- app_assoc. cbn [exit_builtin_loop head].
      unfold assign_status.
      rewrite (bind_Ret _ _ _ tt st1).
      2: { rewrite (bind_Ret _ _ _ _ _ (load_job_Ret _ _ _ Hj)).
           unfold store_job. by rewrite Hj. }
      rewrite (bind_Ret _ _ _ j1 st1).
      2: { apply load_job_Ret. subst st1. fields. apply lookup_insert_eq. }
      rewrite (bind_Ret _ _ _ tt st2) by reflexivity.
      rewrite (bind_Ret _ _ _ (kill_answers t st rest ++ ws) st3).
      2: { unfold wait_for_job.
           rewrite (bind_Ret _ _ _ true st2)
             by (unfold signal_is_blocked_sigchld, gets;
                 by replace (sigchld_blocked st2) with true).
           simpl. unfold bind at 1. simpl. unfold job_live_procs. rewrite Hj.
           exact Hwait. }
      rewrite (bind_Ret _ _ _ (job_list st3) st3) by reflexivity.
      rewrite Hl3. subst st2 st1. fields. rewrite Hlist.
      rewrite (list_next_middle _ _ _ Hp).
      rewrite <- (kill_answers_ext t st st3 rest); [exact Hrun4|].
      intros q Hq. apply Hheap3. intros ->. done. }
    split; [rewrite Hl4, Hl3; by subst st2 st1|].
    split.
    { intros q Hq. rewrite Hdone4 by (apply elem_of_app; by left).
      apply Hheap3. intros ->. done. }
    split.
    { intros q jq [->|Hq]%elem_of_cons Hjq.
      - rewrite Hj in Hjq. injection Hjq as <-.
        exists j3. rewrite Hdone4 by (apply elem_of_app; right; by apply list_elem_of_singleton).
        split; [done|]. split; [done|]. split; [by rewrite Hpg3|].
        rewrite Hlog4, Hlog3. subst st2 st1. fields.
        apply elem_of_app. left. apply elem_of_app. left. apply elem_of_app. right.
        by apply list_elem_of_singleton.
      - apply Hrest4; [done|]. rewrite Hheap3; [done|]. intros ->. done. }
    eexists. rewrite Hlog4, Hlog3. subst st2 st1. fields.
    by rewrite <- !app_assoc.
Qed.

Lemma exit_builtin_reaps {A} t ws st :
  exit_ready st →
  ∃ st',
    @exit_builtin A (kill_answers t st (job_list st) ++ ws) st = Halt (Exited 0) st'
    ∧ job_list st' = job_list st
    ∧ (∀ p j, p ∈ job_list st → heap st !! p = Some j →
         ∃ j', heap st' !! p = Some j'
           ∧ num_processes_alive j' = 0
           ∧ EKill (-1 * pgid j) SIGKILL ∈ log st')
    ∧ ∃ l, log st' = log st ++ l.
Proof.
  intros [Hblk Hnd Hjobs Hpids].
  destruct (@exit_builtin_loop_reaps A t (job_list st) [] st (length (job_list st)) ws)
    as (st' & Hrun & Hl & _ & Hrest & Hlog); try done.
  { by intros ? ?%elem_of_nil. }
  exists st'. split; [|split; [done|split; [|done]]].
  - unfold exit_builtin. by rewrite (bind_Ret _ _ _ (job_list st) st).
  - intros p j Hp Hj. destruct (Hrest p j Hp Hj) as (j' & ? & ? & ? & ?). eauto.
Qed.

Lemma exit_builtin_halts {A} ws st : ∃ h st', @exit_builtin A ws st = Halt h st'.
Proof.
  pose proof (@exit_builtin_no_return A ws st) as Hp. unfold post in Hp.
  destruct (exit_builtin ws st); [done | eauto].
Qed.

Lemma exit_ready_set_log l st : exit_ready st → exit_ready (set_log l st).
Proof. intros [? ? ? ?]. by split. Qed.

(** ** End of file and [exit] *)

(** X8.  The [exit] builtin is [exit_builtin]: it
    never returns, and when SIGCHLD is blocked, the job list is well formed
    and the kernel reports the death of every live process, it has sent
    SIGKILL to the process group of every job, has reaped every process
    and ends the shell with status 0.  End of file at the prompt ends the
    shell with status 0 at once: no signal is sent, no job is reaped, the
    state is as it was. *)
Theorem exit_and_end_of_file :
  (∀ args ws, run_builtin "exit" args ws = Some (exit_builtin ws))
  ∧ (∀ ws st, ∃ h st', @exit_builtin (list wait_result) ws st = Halt h st')
  ∧ (∀ t ws st,
       exit_ready st →
       ∃ st',
         @exit_builtin (list wait_result)
           (kill_answers t st (job_list st) ++ ws) st = Halt (Exited 0) st'
         ∧ job_list st' = job_list st
         ∧ (∀ p j, p ∈ job_list st → heap st !! p = Some j →
              ∃ j', heap st' !! p = Some j'
                ∧ num_processes_alive j' = 0
                ∧ EKill (-1 * pgid j) SIGKILL ∈ log st'))
  ∧ (∀ i inputs st,
       in_line i = None →
       in_async i = [] →
       sigchld_blocked st = false →
       tty_owner st = shell_pgrp st →
       shell_loop (i :: inputs) st = Halt (Exited 0) st).
Proof.
  split; [reflexivity|]. split; [apply exit_builtin_halts|]. split.
  - intros t ws st Hready.
    destruct (@exit_builtin_reaps (list wait_result) t ws st Hready)
      as (st' & Hrun & Hl & Hjobs & _).
    by exists st'.
  - intros i inputs st Hline Hasync Hblk Hown.
    assert (Hbody : shell_loop_body i st = Ret true st).
    { unfold shell_loop_body.
      rewrite (bind_Ret _ _ _ false st)
        by (unfold signal_is_blocked_sigchld, gets; by rewrite Hblk).
      rewrite (bind_Ret _ _ _ tt st) by reflexivity.
      rewrite (bind_Ret _ _ _ (tty_owner st) st) by reflexivity.
      rewrite (bind_Ret _ _ _ (shell_pgrp st) st) by reflexivity.
      rewrite Hown, Z.eqb_refl.
      rewrite (bind_Ret _ _ _ tt st) by reflexivity.
      rewrite Hasync. rewrite (bind_Ret _ _ _ tt st) by reflexivity.
      by rewrite Hline. }
    simpl. by rewrite (bind_Ret _ _ _ true st).
Qed.

(** End of file with a job still running: the shell leaves with status 0,
    the job is still registered as running with its live process, and no
    signal has been sent. *)
Lemma end_of_file_reaps_nothing :
  ∃ st' j,
    shell_loop [sleep_in_background; end_of_file] (init_shell 1 0)
      = Halt (Exited 0) st'
    ∧ job_list st' = [0%nat]
    ∧ heap st' !! 0%nat = Some j
    ∧ status j = BACKGROUND
    ∧ num_processes_alive j = 1
    ∧ log st' = [EStdout ("[1] 100" +:+ nl)].
Proof.
  eexists _, _. split; [vm_compute; reflexivity|].
  split; [reflexivity|]. split; [vm_compute; reflexivity|].
  split; [reflexivity|]. split; reflexivity.
Qed.

Lemma exit_and_end_of_file_witness :
  (∃ st', @exit_builtin (list wait_result) [answer 100 status_killed]
            (sample_shell [sample_job 1 BACKGROUND [100]] true)
          = Halt (Exited 0) st'
          ∧ EKill (-100) SIGKILL ∈ log st')
  ∧ shell_loop [end_of_file] (init_shell 1 0) = Halt (Exited 0) (init_shell 1 0).
Proof.
  destruct exit_and_end_of_file as (_ & _ & Hexit & Heof). split.
  - destruct (Hexit 7 [] (sample_shell [sample_job 1 BACKGROUND [100]] true))
      as (st' & Hrun & _ & Hjobs).
    + split; [reflexivity | | |].
      * repeat constructor; intros ?%elem_of_nil; done.
      * intros p [->|?%elem_of_nil]%elem_of_cons; [|done].
        eexists. split; [reflexivity|]. unfold count_ok. simpl. lia.
      * intros p pr [->|?%elem_of_nil]%elem_of_cons; [|done].
        intros [->|?%elem_of_nil]%elem_of_cons; done.
    + exists st'. split; [exact Hrun|].
      destruct (Hjobs 0%nat (sample_job 1 BACKGROUND [100]))
        as (j' & _ & _ & Hkill); [by apply elem_of_cons; left | reflexivity |].
      exact Hkill.
  - by apply Heof.
Defined.

(** ** Failure of [pipe2] *)


(** A failing [pipe2] while a job runs in the background: the shell kills
    the job and ends; it does not return to the prompt. *)
Lemma pipe_failure_ends_the_shell :
  ∃ st' j,
    shell_loop [sleep_in_background; pipe_failure] (init_shell 1 0)
      = Halt (Exited 0) st'
    ∧ heap st' !! 0%nat = Some j
    ∧ status j = TERMINATED
    ∧ log st' = [EStdout ("[1] 100" +:+ nl); EStderr "pipe2 error";
                 EKill (-100) SIGKILL; EStdout ("Killed" +:+ nl)].
Proof.
  eexists _, _. split; [vm_compute; reflexivity|].
  split; [vm_compute; reflexivity|]. split; reflexivity.
Qed.


(** * Further properties of the code *)

(** ** [find_pid] and [all_procs_stopped] as functions of the live slots *)

Lemma find_pid_in_procs_take (a : list process) (pid0 : Z) (n i : nat) st :
  (i + n ≤ length a)%nat →
  find_pid_in_procs a pid0 i n st
  = Ret ((λ x, (i + x.1)%nat) <$> list_find (λ pr, pid pr = pid0) (take n (drop i a))) st.
Proof.
  revert i. induction n as [|n IH]; intros i Hlen; simpl; [done|].
  destruct (lookup_lt_is_Some_2 a i) as [pr Hpr]; [lia|].
  rewrite (drop_S _ _ _ Hpr). simpl.
  unfold bind, procs_read. rewrite Hpr. unfold ret at 1.
  destruct (Z.eqb_spec (pid pr) pid0) as [Heq|Hne].
  - rewrite decide_True by done. simpl. unfold ret. do 2 f_equal. lia.
  - rewrite decide_False by done. rewrite IH by lia.
    destruct (list_find _ _) as [[k x]|]; simpl; [|done]. do 2 f_equal. lia.
Qed.

Lemma find_pid_in_procs_live (j : job) (pid0 : Z) st :
  count_ok j →
  find_pid_in_procs (procs j) pid0 0 (Z.to_nat (num_processes_alive j)) st
  = Ret (fst <$> list_find (λ pr, pid pr = pid0) (live_procs j)) st.
Proof.
  intros Hok. unfold count_ok in Hok.
  rewrite find_pid_in_procs_take by lia. rewrite drop_0. unfold live_procs.
  by destruct (list_find _ _) as [[k x]|].
Qed.

Lemma find_pid_from_first_live (l : list ptr) (pid0 : Z) st :
  (∀ p, p ∈ l → ∃ j, heap st !! p = Some j ∧ count_ok j) →
  find_pid_from l pid0 st = Ret (first_live st l pid0) st.
Proof.
  induction l as [|p l IH]; intros Hl; simpl; [done|].
  destruct (Hl p) as (j & Hj & Hok); [apply elem_of_cons; by left|].
  rewrite (bind_Ret _ _ _ _ _ (load_job_Ret _ _ _ Hj)).
  rewrite (bind_Ret _ _ _ _ _ (find_pid_in_procs_live j pid0 st Hok)).
  unfold job_live_procs. rewrite Hj.
  destruct (list_find _ _) as [[k x]|]; simpl; [done|].
  apply IH. intros q Hq. apply Hl. apply elem_of_cons. by right.
Qed.

Lemma first_live_Some st l pid0 p k :
  first_live st l pid0 = Some (p, k) →
  ∃ l1 l2 pr,
    l = l1 ++ p :: l2
    ∧ job_live_procs st p !! k = Some pr
    ∧ pid pr = pid0
    ∧ (∀ k' pr', job_live_procs st p !! k' = Some pr' → (k' < k)%nat →
         pid pr' ≠ pid0)
    ∧ (∀ q pr', q ∈ l1 → pr' ∈ job_live_procs st q → pid pr' ≠ pid0).
Proof.
  induction l as [|q l IH]; simpl; [done|].
  destruct (list_find _ _) as [[k' x]|] eqn:Hfind.
  - intros [= -> ->]. apply list_find_Some in Hfind as (Hk & Hpid & Hfirst).
    exists [], l, x. repeat split; try done.
    intros q' pr' ?%elem_of_nil. done.
  - intros Hrest. destruct (IH Hrest) as (l1 & l2 & pr & -> & Hk & Hpid & Hfirst & Hbefore).
    exists (q :: l1), l2, pr. repeat split; try done.
    intros q' pr' [->|Hq']%elem_of_cons Hpr'; [|by eapply Hbefore].
    apply list_find_None in Hfind. rewrite Forall_forall in Hfind. by apply Hfind.
Qed.

Lemma first_live_None st l pid0 :
  first_live st l pid0 = None →
  ∀ p pr, p ∈ l → pr ∈ job_live_procs st p → pid pr ≠ pid0.
Proof.
  induction l as [|q l IH]; simpl; [by intros _ p pr ?%elem_of_nil|].
  destruct (list_find _ _) as [[k' x]|] eqn:Hfind; [done|].
  intros Hrest p pr [->|Hp]%elem_of_cons Hpr; [|by eapply IH].
  apply list_find_None in Hfind. rewrite Forall_forall in Hfind. by apply Hfind.
Qed.

Lemma first_live_absent st l pid0 :
  (∀ p pr, p ∈ l → pr ∈ job_live_procs st p → pid pr ≠ pid0) →
  first_live st l pid0 = None.
Proof.
  induction l as [|q l IH]; intros Hl; simpl; [done|].
  destruct (list_find _ _) as [[k' x]|] eqn:Hfind.
  - apply list_find_Some in Hfind as (Hk & Hpid & _). exfalso.
    apply (Hl q x); [apply elem_of_cons; by left | | done].
    by eapply list_elem_of_lookup_2.
  - apply IH. intros p pr Hp. apply Hl. apply elem_of_cons. by right.
Qed.

(** X1.  [find_pid] is a first-match search: when every linked job is
    allocated with its count inside its array, it returns without
    touching the state; a result [(job, slot)] names a live process with
    that pid such that no earlier job in the list and no earlier live slot
    of the job has it, and no result means that no live process of any
    linked job has the pid.  Slots beyond the count are never looked at. *)
Theorem find_pid_first_match (pid0 : Z) (st : shell) :
  jobs_allocated st →
  find_pid pid0 st = Ret (first_live st (job_list st) pid0) st
  ∧ (∀ p k, first_live st (job_list st) pid0 = Some (p, k) →
       ∃ l1 l2 pr,
         job_list st = l1 ++ p :: l2
         ∧ job_live_procs st p !! k = Some pr
         ∧ pid pr = pid0
         ∧ (∀ k' pr', job_live_procs st p !! k' = Some pr' → (k' < k)%nat →
              pid pr' ≠ pid0)
         ∧ (∀ q pr', q ∈ l1 → pr' ∈ job_live_procs st q → pid pr' ≠ pid0))
  ∧ (first_live st (job_list st) pid0 = None ↔
       ∀ p pr, p ∈ job_list st → pr ∈ job_live_procs st p → pid pr ≠ pid0).
Proof.
  intros Hall. split; [|split].
  - unfold find_pid. rewrite (bind_Ret _ _ _ (job_list st) st) by reflexivity.
    by apply find_pid_from_first_live.
  - intros p k. apply first_live_Some.
  - split; [apply first_live_None | apply first_live_absent].
Qed.

Lemma find_pid_first_match_witness :
  find_pid 200
    (sample_shell [sample_job 1 BACKGROUND [100; 101];
                   sample_job 2 BACKGROUND [200; 100]] true)
  = Ret (Some (1%nat, 0%nat))
      (sample_shell [sample_job 1 BACKGROUND [100; 101];
                     sample_job 2 BACKGROUND [200; 100]] true)
  ∧ find_pid 100
      (sample_shell [sample_job 1 BACKGROUND [100; 101];
                     sample_job 2 BACKGROUND [200; 100]] true)
    = Ret (Some (0%nat, 0%nat))
        (sample_shell [sample_job 1 BACKGROUND [100; 101];
                       sample_job 2 BACKGROUND [200; 100]] true).
Proof.
  assert (Hall : jobs_allocated
            (sample_shell [sample_job 1 BACKGROUND [100; 101];
                           sample_job 2 BACKGROUND [200; 100]] true)).
  { intros p Hp. simpl in Hp.
    apply elem_of_cons in Hp as [->|Hp];
      [eexists; split; [reflexivity | unfold count_ok; simpl; lia]|].
    apply elem_of_cons in Hp as [->|Hp];
      [eexists; split; [reflexivity | unfold count_ok; simpl; lia]|].
    by apply elem_of_nil in Hp. }
  split.
  - destruct (find_pid_first_match 200 _ Hall) as [Hrun _].
    rewrite Hrun. reflexivity.
  - destruct (find_pid_first_match 100 _ Hall) as [Hrun _].
    rewrite Hrun. reflexivity.
Defined.

Lemma all_procs_stopped_from_take (a : list process) (n i : nat) st :
  (i + n ≤ length a)%nat →
  all_procs_stopped_from a i n st
  = Ret (bool_decide (Forall (λ pr, pstatus pr = PSTAT_STOPPED) (take n (drop i a)))) st.
Proof.
  revert i. induction n as [|n IH]; intros i Hlen.
  - cbn [all_procs_stopped_from take]. unfold ret.
    by rewrite bool_decide_eq_true_2 by constructor.
  - destruct (lookup_lt_is_Some_2 a i) as [pr Hpr]; [lia|].
    rewrite (drop_S _ _ _ Hpr). cbn [all_procs_stopped_from take].
    unfold bind, procs_read. rewrite Hpr. unfold ret at 1.
    destruct (decide (pstatus pr = PSTAT_RUNNING)) as [Hrun|Hrun].
    + unfold ret. rewrite bool_decide_eq_false_2; [done|].
      intros [Hs _]%Forall_cons. congruence.
    + rewrite IH by lia. f_equal. apply bool_decide_ext.
      rewrite Forall_cons. split; [|tauto]. intros H. split; [|done].
      by destruct (pstatus pr).
Qed.

(** X2.  [all_procs_stopped] answers whether every live process of the
    job is recorded as stopped; it only reads the first
    [num_processes_alive] slots, leaves the state alone, and answers yes
    for a job without live processes. *)
Theorem all_procs_stopped_spec (p : ptr) (j : job) (st : shell) :
  heap st !! p = Some j →
  count_ok j →
  all_procs_stopped p st
  = Ret (bool_decide (Forall (λ pr, pstatus pr = PSTAT_STOPPED) (live_procs j))) st
  ∧ (num_processes_alive j = 0 → all_procs_stopped p st = Ret true st).
Proof.
  intros Hj Hok.
  assert (Hrun : all_procs_stopped p st
    = Ret (bool_decide (Forall (λ pr, pstatus pr = PSTAT_STOPPED) (live_procs j))) st).
  { unfold all_procs_stopped. rewrite (bind_Ret _ _ _ _ _ (load_job_Ret _ _ _ Hj)).
    unfold count_ok in Hok. rewrite all_procs_stopped_from_take by lia.
    by rewrite drop_0. }
  split; [done|]. intros Hz. rewrite Hrun. unfold live_procs. rewrite Hz.
  change (take (Z.to_nat 0) (procs j)) with (@nil process).
  by rewrite bool_decide_eq_true_2 by constructor.
Qed.

Lemma all_procs_stopped_spec_witness :
  all_procs_stopped 0%nat (sample_shell [sample_job 1 BACKGROUND [100; 101]] true)
  = Ret false (sample_shell [sample_job 1 BACKGROUND [100; 101]] true)
  ∧ all_procs_stopped 0%nat (sample_shell [sample_job 1 TERMINATED []] true)
    = Ret true (sample_shell [sample_job 1 TERMINATED []] true).
Proof.
  split.
  - destruct (all_procs_stopped_spec 0%nat (sample_job 1 BACKGROUND [100; 101])
                (sample_shell [sample_job 1 BACKGROUND [100; 101]] true))
      as [Hrun _]; [reflexivity | unfold count_ok; simpl; lia |].
    rewrite Hrun. reflexivity.
  - destruct (all_procs_stopped_spec 0%nat (sample_job 1 TERMINATED [])
                (sample_shell [sample_job 1 TERMINATED []] true))
      as [_ Hrun]; [reflexivity | unfold count_ok; simpl; lia |].
    by apply Hrun.
Defined.

(** ** Reports the reaper cannot place *)

(** X3.  A status report for a pid that no live process of a linked job
    has ends the shell: the reaper prints "Received child status for
    unrecognized pid <pid>" to stderr and calls [exit(1)], whatever the
    status word says; nothing else in the state changes.  With SIGCHLD
    not blocked the reaper's assertion fails before anything is looked
    at. *)
Theorem report_for_unknown_pid (pid0 status0 : Z) (st : shell) :
  jobs_allocated st →
  (∀ p pr, p ∈ job_list st → pr ∈ job_live_procs st p → pid pr ≠ pid0) →
  (sigchld_blocked st = true →
   handle_child_status pid0 status0 st
   = Halt (Exited 1)
       (set_log (log st ++ [EStderr ("Received child status for unrecognized pid "
                                     +:+ pretty pid0 +:+ nl)]) st))
  ∧ (sigchld_blocked st = false →
     handle_child_status pid0 status0 st = Halt Aborted st).
Proof.
  intros Hall Hnone. split; intros Hblk.
  - destruct (find_pid_first_match pid0 st Hall) as (Hfind & _ & Hnone').
    apply Hnone' in Hnone. rewrite Hnone in Hfind.
    unfold handle_child_status.
    rewrite (bind_Ret _ _ _ true st)
      by (unfold signal_is_blocked_sigchld, gets; by rewrite Hblk).
    rewrite (bind_Ret _ _ _ tt st) by reflexivity.
    by rewrite (bind_Ret _ _ _ _ _ Hfind).
  - unfold handle_child_status.
    rewrite (bind_Ret _ _ _ false st)
      by (unfold signal_is_blocked_sigchld, gets; by rewrite Hblk).
    reflexivity.
Qed.

Lemma report_for_unknown_pid_witness :
  (∃ st', handle_child_status 555 status_exit0
            (sample_shell [sample_job 1 BACKGROUND [100]] true)
          = Halt (Exited 1) st')
  ∧ handle_child_status 100 status_exit0 (init_shell 1 0)
    = Halt Aborted (init_shell 1 0).
Proof.
  split.
  - destruct (report_for_unknown_pid 555 status_exit0
                (sample_shell [sample_job 1 BACKGROUND [100]] true))
      as [Hrun _].
    + intros p Hp. simpl in Hp. apply elem_of_cons in Hp as [->|Hp];
        [eexists; split; [reflexivity | unfold count_ok; simpl; lia]|].
      by apply elem_of_nil in Hp.
    + intros p pr Hp. simpl in Hp. apply elem_of_cons in Hp as [->|Hp];
        [|by apply elem_of_nil in Hp].
      intros [->|?%elem_of_nil]%elem_of_cons; done.
    + eexists. by apply Hrun.
  - destruct (report_for_unknown_pid 100 status_exit0 (init_shell 1 0))
      as [_ Hrun].
    + by intros p ?%elem_of_nil.
    + by intros p pr ?%elem_of_nil.
    + by apply Hrun.
Defined.

(** ** A stopped child *)

Lemma print_job_line p j s st :
  heap st !! p = Some j →
  cmdline_text true (commands (pipe j)) = Some s →
  print_job p st = Ret tt (set_log (log st ++ job_line j s) st).
Proof.
  intros Hj Hs. unfold print_job.
  rewrite (bind_Ret _ _ _ _ _ (load_job_Ret _ _ _ Hj)).
  unfold bind, printf, emit, modify, print_cmdline. rewrite Hs. simpl.
  unfold job_line. by rewrite <- !app_assoc.
Qed.

(** X4.  A process is reported stopped and the report is not a tty stop
    of a Foreground job: the reaper marks that process Stopped and touches
    no other slot.  If thereby every live process of the job is stopped,
    the job becomes NeedsTerminal (stop by SIGTTIN or SIGTTOU) or Stopped
    (any other signal), the current terminal mode is saved in the job and
    the job's line is printed; otherwise status, saved mode and output are
    as before.  The registry structures and the terminal are untouched. *)
Theorem stopped_child_recorded (st : shell) (pid0 status0 : Z) (jp : ptr)
    (proc : nat) (j : job) (s : string) :
  sigchld_blocked st = true →
  find_pid pid0 st = Ret (Some (jp, proc)) st →
  heap st !! jp = Some j →
  count_ok j →
  WIFSTOPPED status0 = true →
  is_tty_stop status0 && bool_decide (status j = FOREGROUND) = false →
  cmdline_text true (commands (pipe j)) = Some s →
  ∃ st' j' pr,
    handle_child_status pid0 status0 st = Ret tt st'
    ∧ heap st' = <[jp := j']> (heap st)
    ∧ procs j !! proc = Some pr
    ∧ procs j' = <[proc := set_pstatus PSTAT_STOPPED pr]> (procs j)
    ∧ num_processes_alive j' = num_processes_alive j
    ∧ job_list st' = job_list st ∧ jid2job st' = jid2job st
    ∧ tty_owner st' = tty_owner st ∧ tty_mode st' = tty_mode st
    ∧ (if bool_decide (Forall (λ pr, pstatus pr = PSTAT_STOPPED) (live_procs j'))
       then status j' = (if is_tty_stop status0 then NEEDSTERMINAL else STOPPED)
            ∧ saved_tty_state j' = tty_mode st
            ∧ log st' = log st ++ job_line j' s
       else status j' = status j
            ∧ saved_tty_state j' = saved_tty_state j
            ∧ log st' = log st).
Proof.
  intros Hblk Hfind Hj Hok Hstop Htty Hs.
  pose proof (find_pid_spec pid0 st) as Hspec. rewrite Hfind in Hspec.
  destruct Hspec as (_ & _ & j0 & pr & Hj0 & Hproc & Hpr & _).
  rewrite Hj in Hj0. injection Hj0 as <-.
  set (a' := <[proc := set_pstatus PSTAT_STOPPED pr]> (procs j)).
  set (j1 := set_procs a' j).
  set (st1 := set_heap (<[jp := j1]> (heap st)) st).
  assert (Hok1 : count_ok j1).
  { unfold count_ok in *. subst j1 a'. fields. by rewrite length_insert. }
  assert (Hj1 : heap st1 !! jp = Some j1) by (subst st1; fields; apply lookup_insert_eq).
  destruct (all_procs_stopped_spec jp j1 st1 Hj1 Hok1) as [Hall _].
  set (all := bool_decide (Forall (λ pr, pstatus pr = PSTAT_STOPPED) (live_procs j1))) in *.
  assert (Hhead : handle_child_status pid0 status0 st
                  = (let* all := all_procs_stopped jp in
                     if all then
                       let* t := termstate_save in
                       store_job jp
                         (set_saved_tty_state t
                            (set_status (if is_tty_stop status0 then NEEDSTERMINAL
                                         else STOPPED) j1)) ;;
                       print_job jp
                     else ret tt) st1).
  { unfold handle_child_status.
    rewrite (bind_Ret _ _ _ true st)
      by (unfold signal_is_blocked_sigchld, gets; by rewrite Hblk).
    rewrite (bind_Ret _ _ _ tt st) by reflexivity.
    rewrite (bind_Ret _ _ _ _ _ Hfind). cbv beta iota. rewrite Hstop.
    unfold handle_stopped_child.
    rewrite (bind_Ret _ _ _ _ _ (load_job_Ret _ _ _ Hj)). rewrite Htty.
    rewrite (bind_Ret _ _ _ pr st) by (unfold procs_read; by rewrite Hpr).
    cbv zeta. fold a' j1.
    rewrite (bind_Ret _ _ _ tt st1) by (unfold store_job; by rewrite Hj).
    reflexivity. }
  rewrite Hhead. rewrite (bind_Ret _ _ _ _ _ Hall).
  destruct all eqn:Hallv.
  - set (j2 := set_saved_tty_state (tty_mode st)
                 (set_status (if is_tty_stop status0 then NEEDSTERMINAL else STOPPED) j1)).
    set (st2 := set_heap (<[jp := j2]> (heap st1)) st1).
    exists (set_log (log st2 ++ job_line j2 s) st2), j2, pr.
    split.
    { rewrite (bind_Ret _ _ _ (tty_mode st) st1) by reflexivity.
      rewrite (bind_Ret _ _ _ tt st2) by (unfold store_job; by rewrite Hj1).
      apply print_job_line; [subst st2; fields; apply lookup_insert_eq | done]. }
    subst st2 st1. fields. split; [by rewrite insert_insert_eq|].
    repeat split; try done.
    change (live_procs j2) with (live_procs j1). fold all. by rewrite Hallv.
  - exists st1, j1, pr. split; [reflexivity|]. subst st1. fields.
    repeat split; try done. fold all. by rewrite Hallv.
Qed.

Lemma stopped_child_recorded_witness :
  ∃ st' j',
    handle_child_status 100 status_tstp
      (sample_shell [sample_job 1 FOREGROUND [100]] true) = Ret tt st'
    ∧ heap st' = <[0%nat := j']> (heap (sample_shell [sample_job 1 FOREGROUND [100]] true))
    ∧ num_processes_alive j' = 1
    ∧ job_list st' = [0%nat].
Proof.
  destruct (stopped_child_recorded
              (sample_shell [sample_job 1 FOREGROUND [100]] true)
              100 status_tstp 0%nat 0%nat (sample_job 1 FOREGROUND [100])
              "sleep 100")
    as (st' & j' & pr & Hrun & Hheap & _ & _ & Hn & Hl & _);
    [reflexivity | reflexivity | reflexivity | unfold count_ok; simpl; lia
    | reflexivity | reflexivity | reflexivity |].
  exists st', j'. split; [exact Hrun|]. split; [exact Hheap|].
  split; [exact Hn | exact Hl].
Defined.

(** ** What the reaper never does *)

(** X5.  Whatever it is told, a call of the reaper that returns has
    created no job (nothing was allocated, the job list and the id array
    hold only what they held), and every job that is still allocated has
    its process group, its pipeline and its array size unchanged, a count
    that has not grown, and is Foreground or Background only if it was so
    before; the shell's own process group and the SIGCHLD mask are as
    before. *)
Theorem reaper_step_frame (pid0 status0 : Z) (st st' : shell) :
  handle_child_status pid0 status0 st = Ret tt st' →
  next_ptr st' = next_ptr st
  ∧ (∀ p, p ∈ job_list st' → p ∈ job_list st)
  ∧ jid2job st' ⊆ jid2job st
  ∧ shell_pgrp st' = shell_pgrp st
  ∧ sigchld_blocked st' = sigchld_blocked st
  ∧ (∀ p j', heap st' !! p = Some j' →
       ∃ j, heap st !! p = Some j
         ∧ pgid j' = pgid j
         ∧ pipe j' = pipe j
         ∧ length (procs j') = length (procs j)
         ∧ num_processes_alive j' ≤ num_processes_alive j
         ∧ (status j' = FOREGROUND → status j = FOREGROUND)
         ∧ (status j' = BACKGROUND → status j = BACKGROUND)).
Proof.
  intros Hrun. pose proof (handle_child_status_rel pid0 status0 st) as Hrel.
  unfold post in Hrel. rewrite Hrun in Hrel.
  destruct Hrel as (Hjobs & Hl & Ht & Hn & Hg & Hb & _).
  repeat split; try done.
  intros p j' Hp. destruct (Hjobs p j' Hp) as (j & Hj & Hlen & Hpg & Hpipe & Hc).
  exists j. repeat split; try done.
  - destruct Hc as [[-> _]|(_ & -> & _)]; lia.
  - intros Hfg. destruct Hc as [[_ [?|[_ [?|?]]]]|(_ & _ & [[_ ?]|(? & ? & _)])];
      congruence.
  - intros Hbg. destruct Hc as [[_ [?|[_ [?|?]]]]|(_ & _ & [[_ ?]|(? & ? & _)])];
      congruence.
Qed.

Lemma reaper_step_frame_witness :
  next_ptr (final_state (handle_child_status 100 status_killed
              (sample_shell [sample_job 1 BACKGROUND [100]] true))) = 1%nat
  ∧ ∀ p, p ∈ job_list (final_state (handle_child_status 100 status_killed
                         (sample_shell [sample_job 1 BACKGROUND [100]] true))) →
      p ∈ [0%nat].
Proof.
  destruct (reaper_step_frame 100 status_killed
              (sample_shell [sample_job 1 BACKGROUND [100]] true)
              (final_state (handle_child_status 100 status_killed
                 (sample_shell [sample_job 1 BACKGROUND [100]] true))))
    as (Hn & Hl & _); [vm_compute; reflexivity|].
  split; [exact Hn | exact Hl].
Defined.

(** ** Foreground status and the terminal *)

Lemma foreground_owner_reaper st st' :
  foreground_owner st → reaper_rel st st' → foreground_owner st'.
Proof.
  intros [Hone Hown] (Hjobs & _ & _ & _ & _ & _ & Ho).
  assert (Hfg : ∀ p j', heap st' !! p = Some j' → status j' = FOREGROUND →
                  ∃ j, heap st !! p = Some j ∧ status j = FOREGROUND ∧ pgid j' = pgid j).
  { intros p j' Hp Hs. destruct (Hjobs p j' Hp) as (j & Hj & _ & Hpg & _ & Hc).
    exists j. split; [done|]. split; [|done].
    destruct Hc as [[_ [?|[_ [?|?]]]]|(_ & _ & [[_ ?]|(? & ? & _)])]; congruence. }
  split.
  - intros p q j j' Hp Hq Hsp Hsq.
    destruct (Hfg p j Hp Hsp) as (j0 & Hj0 & Hs0 & _).
    destruct (Hfg q j' Hq Hsq) as (j1 & Hj1 & Hs1 & _). by eapply Hone.
  - intros p j' Hp Hs. destruct (Hfg p j' Hp Hs) as (j & Hj & Hsj & ->).
    destruct Ho as [->|(q & jq & Hq & Hsq & ->)]; [by eapply Hown|].
    by rewrite <- (Hown q jq), <- (Hown p j).
Qed.

Lemma wait_for_job_loop_closed (I : shell → Prop) ws p :
  (∀ st st', I st → reaper_rel st st' → I st') →
  (∀ t st, I st → I (set_tty_mode t st)) →
  preserves I (wait_for_job_loop ws p).
Proof.
  intros Hreap Hmode. induction ws as [|w ws IH]; simpl.
  - apply preserves_bind; [apply preserves_load_job|]. intros j.
    destruct (_ && _); [apply preserves_stop | apply preserves_ret].
  - apply preserves_bind; [apply preserves_load_job|]. intros j.
    destruct (_ && _); [|apply preserves_ret].
    apply preserves_bind; [apply preserves_modify; intros; by apply Hmode|].
    intros _. destruct (negb _).
    + apply preserves_bind; [|intros _; apply IH].
      eapply preserves_post; [apply handle_child_status_rel | apply Hreap].
    + intros st Hst. unfold utils_fatal_error.
      apply post_bind. unfold fprintf_stderr. apply post_emit. by apply post_stop.
Qed.

Lemma sigchld_handler_loop_closed (I : shell → Prop) ws :
  (∀ st st', I st → reaper_rel st st' → I st') →
  (∀ t st, I st → I (set_tty_mode t st)) →
  preserves I (sigchld_handler_loop ws).
Proof.
  intros Hreap Hmode. induction ws as [|w ws IH]; simpl; [apply preserves_ret|].
  destruct (0 <? w_child w); [|apply preserves_ret].
  apply preserves_bind; [apply preserves_modify; intros; by apply Hmode|].
  intros _. apply preserves_bind; [|intros _; apply IH].
  eapply preserves_post; [apply handle_child_status_rel | apply Hreap].
Qed.

(** X6.  The reaper never makes a job Foreground and hands the terminal
    only to a job that is Foreground.  Hence, if at most one job is
    Foreground and the terminal belongs to the process group of any job
    that is, the same holds after one call of the reaper, after the whole
    loop of [wait_for_job], and after a run of the SIGCHLD handler. *)
Theorem reaper_keeps_foreground_owner :
  (∀ pid0 status0 st st',
     foreground_owner st →
     handle_child_status pid0 status0 st = Ret tt st' →
     foreground_owner st')
  ∧ (∀ ws p st ws' st',
       foreground_owner st →
       wait_for_job ws p st = Ret ws' st' →
       foreground_owner st')
  ∧ (∀ ws st ws' st',
       foreground_owner st →
       sigchld_handler SIGCHLD ws st = Ret ws' st' →
       foreground_owner st').
Proof.
  assert (Hmode : ∀ t st, foreground_owner st → foreground_owner (set_tty_mode t st))
    by (intros t st H; exact H).
  split; [|split].
  - intros pid0 status0 st st' Hinv Hrun.
    pose proof (handle_child_status_rel pid0 status0 st) as Hrel.
    unfold post in Hrel. rewrite Hrun in Hrel. by eapply foreground_owner_reaper.
  - intros ws p st ws' st' Hinv Hrun.
    assert (Hp : preserves foreground_owner (wait_for_job ws p)).
    { unfold wait_for_job. apply preserves_bind; [apply preserves_gets|].
      intros b. apply preserves_bind; [apply preserves_assert|]. intros _.
      apply wait_for_job_loop_closed; [apply foreground_owner_reaper | apply Hmode]. }
    specialize (Hp st Hinv). unfold post in Hp. by rewrite Hrun in Hp.
  - intros ws st ws' st' Hinv Hrun.
    assert (Hp : preserves foreground_owner (sigchld_handler SIGCHLD ws)).
    { unfold sigchld_handler. apply preserves_bind; [apply preserves_assert|].
      intros _.
      apply sigchld_handler_loop_closed; [apply foreground_owner_reaper | apply Hmode]. }
    specialize (Hp st Hinv). unfold post in Hp. by rewrite Hrun in Hp.
Qed.

Lemma foreground_owner_sample j g b :
  (status j = FOREGROUND → pgid j = g) →
  foreground_owner (set_tty_owner g (sample_shell [j] b)).
Proof.
  intros Hg. split.
  - intros p q j1 j2 Hp Hq _ _.
    change (heap (set_tty_owner g (sample_shell [j] b)))
      with (heap (sample_shell [j] b)) in Hp, Hq.
    rewrite sample_shell_heap_1 in Hp, Hq.
    apply lookup_insert_Some in Hp as [[<- _]|[_ Hp]]; [|by rewrite lookup_empty in Hp].
    apply lookup_insert_Some in Hq as [[<- _]|[_ Hq]]; [|by rewrite lookup_empty in Hq].
    done.
  - intros p j1 Hp Hs.
    change (heap (set_tty_owner g (sample_shell [j] b)))
      with (heap (sample_shell [j] b)) in Hp.
    rewrite sample_shell_heap_1 in Hp.
    apply lookup_insert_Some in Hp as [[_ <-]|[_ Hp]]; [|by rewrite lookup_empty in Hp].
    symmetry. by apply Hg.
Qed.

Lemma reaper_keeps_foreground_owner_witness :
  foreground_owner
    (final_state (handle_child_status 100 status_ttin
       (set_tty_owner 100 (sample_shell [sample_job 1 FOREGROUND [100]] true))))
  ∧ foreground_owner
      (final_state (wait_for_job [answer 100 status_tstp] 0%nat
         (set_tty_owner 100 (sample_shell [sample_job 1 FOREGROUND [100]] true))))
  ∧ foreground_owner
      (final_state (sigchld_handler SIGCHLD [answer 100 status_exit0]
         (set_tty_owner 100 (sample_shell [sample_job 1 FOREGROUND [100]] true)))).
Proof.
  destruct reaper_keeps_foreground_owner as (Hstep & Hwait & Hhandler).
  assert (Hinv : foreground_owner
            (set_tty_owner 100 (sample_shell [sample_job 1 FOREGROUND [100]] true)))
    by (by apply foreground_owner_sample).
  split; [|split].
  - apply (Hstep 100 status_ttin _ _ Hinv). vm_compute. reflexivity.
  - apply (Hwait [answer 100 status_tstp] 0%nat _ [] _ Hinv). vm_compute. reflexivity.
  - apply (Hhandler [answer 100 status_exit0] _ [] _ Hinv). vm_compute. reflexivity.
Defined.

(** ** Builtins and the registry *)

(** X7.  No builtin creates a job: when [exit], [jobs], [kill], [bg],
    [fg], [stop], [history] or [cd] returns, nothing has been allocated
    and the job list and the id array hold only jobs they held before;
    and counts that lay inside their arrays still do. *)
Theorem builtins_create_no_job (a0 : string) (args : list string)
    (ws ws' : list wait_result) (c : M (list wait_result)) (st st' : shell) :
  run_builtin a0 args ws = Some c →
  c st = Ret ws' st' →
  no_new_jobs st st' ∧ (counts_ok st → counts_ok st').
Proof.
  intros Hb Hrun. split.
  - pose proof (run_builtin_steady _ _ _ _ _ (no_new_jobs_steady st) Hb st) as Hp.
    unfold post in Hp. rewrite Hrun in Hp. apply Hp.
    unfold no_new_jobs. repeat split; auto.
  - intros Hc.
    pose proof (run_builtin_steady _ _ _ _ _ (spawn_inv_steady None 0) Hb st) as Hp.
    unfold post in Hp. rewrite Hrun in Hp. apply Hp.
    split; [done | by intros ? ? [=]].
Qed.

Lemma builtins_create_no_job_witness :
  no_new_jobs (sample_shell [sample_job 1 STOPPED [100]] true)
    (final_state (bg_builtin ["bg"; "1"]
                    (sample_shell [sample_job 1 STOPPED [100]] true))).
Proof.
  destruct (builtins_create_no_job "bg" ["bg"; "1"] [] []
              (bg_builtin ["bg"; "1"] ;; ret [])
              (sample_shell [sample_job 1 STOPPED [100]] true)
              (final_state (bg_builtin ["bg"; "1"]
                              (sample_shell [sample_job 1 STOPPED [100]] true))))
    as [Hnew _]; [reflexivity | vm_compute; reflexivity |].
  exact Hnew.
Defined.

(** ** A spawn that fails for another reason than ENOENT *)

(** X10.  When [posix_spawnp] fails with an error other than ENOENT, the
    shell prints "posix_spawnp error: <rc>" on stderr and runs
    [exit_builtin]: the block never returns, so the rest of the pipeline
    is not spawned and no job is recorded for the failed command; and when
    SIGCHLD is blocked, the job list is well formed and the kernel reports
    the death of every live process, every job has been sent SIGKILL and
    reaped and the shell has ended with status 0. *)
Theorem spawn_error_exits (pipeline : ast_pipeline) (cmd : ast_command)
    (a0 : string) (new_pipe : Z * Z) (loc : locals) (w : world)
    (r : spawn_result) (rs : list spawn_result) (st : shell) :
  w_spawns w = r :: rs →
  spawn_rc r ≠ 0 →
  spawn_rc r ≠ ENOENT →
  (∃ h st', spawn_command pipeline cmd a0 new_pipe loc w st = Halt h st')
  ∧ (∀ t ws,
       exit_ready st →
       w_waits w = kill_answers t st (job_list st) ++ ws →
       ∃ st',
         spawn_command pipeline cmd a0 new_pipe loc w st = Halt (Exited 0) st'
         ∧ job_list st' = job_list st
         ∧ EStderr ("posix_spawnp error: " +:+ pretty (spawn_rc r) +:+ nl) ∈ log st'
         ∧ (∀ p j, p ∈ job_list st → heap st !! p = Some j →
              ∃ j', heap st' !! p = Some j'
                ∧ num_processes_alive j' = 0
                ∧ EKill (-1 * pgid j) SIGKILL ∈ log st')).
Proof.
  intros Hw Hrc Hne.
  set (msg := EStderr ("posix_spawnp error: " +:+ pretty (spawn_rc r) +:+ nl)).
  assert (Hcmd : spawn_command pipeline cmd a0 new_pipe loc w st
                 = bind (@exit_builtin locals (w_waits w))
                     (λ loc', close_pipe (l_prev_pipe loc') ;;
                        ret ({| l_job := l_job loc'; l_prev_pipe := new_pipe;
                                l_pgrp := l_pgrp loc' |},
                             {| w_pipes := w_pipes w; w_spawns := rs;
                                w_waits := w_waits w |}))
                     (set_log (log st ++ [msg]) st)).
  { unfold spawn_command. rewrite Hw.
    replace (spawn_rc r =? ENOENT) with false by (symmetry; by apply Z.eqb_neq).
    replace (spawn_rc r =? 0) with false by (symmetry; by apply Z.eqb_neq).
    reflexivity. }
  split.
  - rewrite Hcmd. unfold bind.
    destruct (exit_builtin_halts (A := locals) (w_waits w)
                (set_log (log st ++ [msg]) st)) as (h & st' & ->). eauto.
  - intros t ws Hready Hwaits.
    destruct (@exit_builtin_reaps locals t ws (set_log (log st ++ [msg]) st)
                (exit_ready_set_log _ _ Hready))
      as (st' & Hrun & Hl & Hjobs & l & Hlog).
    change (kill_answers t (set_log (log st ++ [msg]) st)
              (job_list (set_log (log st ++ [msg]) st)))
      with (kill_answers t st (job_list st)) in Hrun.
    exists st'. split; [|split; [exact Hl | split; [|exact Hjobs]]].
    + rewrite Hcmd, Hwaits. unfold bind. by rewrite Hrun.
    + rewrite Hlog. fields. apply elem_of_app. left. apply elem_of_app. right.
      by apply list_elem_of_singleton.
Qed.

Lemma spawn_error_exits_witness :
  ∃ st',
    spawn_command (sample_pipeline [["cat"]] false) (sample_command ["cat"]) "cat"
      (-1, STDOUT_FILENO)
      {| l_job := None; l_prev_pipe := (STDIN_FILENO, -1); l_pgrp := 0 |}
      {| w_pipes := []; w_spawns := [{| spawn_rc := 13; spawn_pid := 0 |}];
         w_waits := [answer 100 status_killed] |}
      (sample_shell [sample_job 1 BACKGROUND [100]] true)
    = Halt (Exited 0) st'
    ∧ job_list st' = [0%nat].
Proof.
  destruct (spawn_error_exits (sample_pipeline [["cat"]] false)
              (sample_command ["cat"]) "cat" (-1, STDOUT_FILENO)
              {| l_job := None; l_prev_pipe := (STDIN_FILENO, -1); l_pgrp := 0 |}
              {| w_pipes := []; w_spawns := [{| spawn_rc := 13; spawn_pid := 0 |}];
                 w_waits := [answer 100 status_killed] |}
              {| spawn_rc := 13; spawn_pid := 0 |} []
              (sample_shell [sample_job 1 BACKGROUND [100]] true))
    as [_ Hexit]; [reflexivity | done | done |].
  destruct (Hexit 7 []) as (st' & Hrun & Hl & _).
  - split; [reflexivity | | |].
    + repeat constructor; intros ?%elem_of_nil; done.
    + intros p [->|?%elem_of_nil]%elem_of_cons; [|done].
      eexists. split; [reflexivity|]. unfold count_ok. simpl. lia.
    + intros p pr [->|?%elem_of_nil]%elem_of_cons; [|done].
      intros [->|?%elem_of_nil]%elem_of_cons; done.
  - reflexivity.
  - exists st'. split; [exact Hrun | exact Hl].
Defined.

(** ** Allocation, lookup and removal *)

Lemma list_remove_app_fresh (p : ptr) (l : list ptr) :
  p ∉ l → list_remove p (l ++ [p]) = l.
Proof.
  unfold list_remove. induction l as [|q l IH]; intros Hp; simpl.
  - rewrite filter_cons_False by (intros H; by apply H). done.
  - apply not_elem_of_cons in Hp as [Hne Hp].
    rewrite filter_cons_True by done. f_equal. by apply IH.
Qed.

(** X11.  A job allocated by [add_job] is found by [get_job_from_jid]
    under the id it was given, and the lookup of every other id answers
    as before.  Removing it again (the job list did not link its address
    before) restores the job list and the id array, frees it, and the
    lookup of its id finds nothing. *)
Theorem add_lookup_remove (pipeline : ast_pipeline) (uninit : job)
    (st st' : shell) (p : ptr) :
  add_job pipeline uninit st = Ret p st' →
  p ∉ job_list st →
  ∃ j st'',
    heap st' !! p = Some j
    ∧ get_job_from_jid (jid j) st' = Ret (Some p) st'
    ∧ (∀ i, i ≠ jid j → ∀ r, get_job_from_jid i st' = Ret r st' ↔
                              get_job_from_jid i st = Ret r st)
    ∧ remove_job p st' = Ret tt st''
    ∧ job_list st'' = job_list st
    ∧ jid2job st'' = jid2job st
    ∧ heap st'' = delete p (heap st)
    ∧ get_job_from_jid (jid j) st'' = Ret None st''.
Proof.
  intros Hadd Hfresh.
  pose proof (add_job_spec pipeline uninit st) as Hspec. rewrite Hadd in Hspec.
  destruct Hspec as (j & Hj & Hzero & Hpipe & Hjid & Hfree & Hsmall & Htab & Hlist).
  pose proof (add_job_heap pipeline uninit st) as Hheap. unfold post in Hheap.
  rewrite Hadd in Hheap. destruct Hheap as (j0 & Hheap & _).
  assert (j0 = j) as ->.
  { rewrite Hheap, lookup_insert_eq in Hj. congruence. }
  assert (Hlook : ∀ i s, get_job_from_jid i s
                         = Ret (if bool_decide (0 < i < 65536) then jid2job s !! i
                                else None) s)
    by (intros i s; apply get_job_from_jid_spec).
  rewrite MAXJOBS_eq in Hjid.
  set (st1 := set_job_list (list_remove p (job_list st')) st').
  set (st2 := set_heap (<[p := set_jid (-1) j]> (heap st1)) st1).
  set (st3 := set_jid2job (delete (jid j) (jid2job st2)) st2).
  set (st4 := set_heap (delete p (heap st3)) st3).
  exists j, st4. split; [done|]. split.
  { rewrite Hlook, bool_decide_eq_true_2 by lia. by rewrite Htab, lookup_insert_eq. }
  split.
  { intros i Hi r. rewrite !Hlook. destruct (bool_decide (0 < i < 65536)).
    - rewrite Htab, lookup_insert_ne by done. split; congruence.
    - split; congruence. }
  split.
  { unfold remove_job. rewrite (bind_Ret _ _ _ _ _ (load_job_Ret _ _ _ Hj)).
    rewrite (bind_Ret _ _ _ tt st1) by reflexivity.
    unfold delete_job.
    rewrite (bind_Ret _ _ _ j st1) by (apply load_job_Ret; exact Hj).
    replace (jid j =? -1) with false by (symmetry; apply Z.eqb_neq; lia).
    rewrite (bind_Ret _ _ _ (jid2job st1) st1) by reflexivity.
    unfold jid2job_read. rewrite MAXJOBS_eq.
    replace ((0 <=? jid j) && (jid j <? 65536)) with true
      by (symmetry; apply andb_true_iff; split; [apply Z.leb_le | apply Z.ltb_lt]; lia).
    subst st1. fields. rewrite Htab, lookup_insert_eq.
    rewrite (bind_Ret _ _ _ j _) by (apply load_job_Ret; exact Hj).
    rewrite (bind_Ret _ _ _ tt st2) by (unfold store_job; fields; by rewrite Hj).
    reflexivity. }
  subst st4 st3 st2 st1. fields. rewrite Hlist, Htab, Hheap.
  split; [by apply list_remove_app_fresh|].
  split; [rewrite delete_insert_eq; by apply delete_id|].
  split.
  { by rewrite insert_insert_eq, delete_insert_eq. }
  rewrite Hlook, bool_decide_eq_true_2 by lia. fields.
  by rewrite delete_insert_eq, lookup_delete_eq.
Qed.

Lemma add_lookup_remove_witness :
  ∃ j st'',
    heap (final_state (add_job (sample_pipeline [["ls"]] false)
                         (uninit_job (sample_pipeline [["ls"]] false))
                         (init_shell 1 0))) !! 0%nat = Some j
    ∧ jid j = 1
    ∧ remove_job 0%nat
        (final_state (add_job (sample_pipeline [["ls"]] false)
                        (uninit_job (sample_pipeline [["ls"]] false))
                        (init_shell 1 0))) = Ret tt st''
    ∧ job_list st'' = [].
Proof.
  destruct (add_lookup_remove (sample_pipeline [["ls"]] false)
              (uninit_job (sample_pipeline [["ls"]] false)) (init_shell 1 0)
              (final_state (add_job (sample_pipeline [["ls"]] false)
                              (uninit_job (sample_pipeline [["ls"]] false))
                              (init_shell 1 0))) 0%nat)
    as (j & st'' & Hj & _ & _ & Hrm & Hl & _).
  - vm_compute. reflexivity.
  - by intros ?%elem_of_nil.
  - exists j, st''. split; [exact Hj|]. split; [|split; [exact Hrm | exact Hl]].
    vm_compute in Hj. by injection Hj as <-.
Defined.

(** ** What [wait_for_job] guarantees when it returns *)

Lemma wait_for_job_loop_returns ws p :
  ∀ st ws' st',
    wait_for_job_loop ws p st = Ret ws' st' →
    (∃ used, ws = used ++ ws' ∧ Forall (λ w, w_child w ≠ -1) used)
    ∧ ∃ j', heap st' !! p = Some j'
        ∧ (status j' ≠ FOREGROUND ∨ num_processes_alive j' ≤ 0).
Proof.
  assert (Hcond : ∀ j, bool_decide (status j = FOREGROUND)
                       && (0 <? num_processes_alive j) = false →
                       status j ≠ FOREGROUND ∨ num_processes_alive j ≤ 0).
  { intros j [Hs|Hn]%andb_false_iff.
    - left. by apply bool_decide_eq_false in Hs.
    - right. apply Z.ltb_ge in Hn. lia. }
  induction ws as [|w ws IH]; intros st ws' st' Hrun; simpl in Hrun;
    unfold bind, load_job in Hrun; destruct (heap st !! p) as [j|] eqn:Hj;
    try discriminate Hrun;
    destruct (bool_decide (status j = FOREGROUND) && (0 <? num_processes_alive j))
      eqn:Hc; try discriminate Hrun.
  - injection Hrun as <- <-. split; [exists []; by split|]. eauto.
  - simpl in Hrun. destruct (Z.eqb_spec (w_child w) (-1)) as [Heq|Hne];
      simpl in Hrun; [discriminate Hrun|].
    destruct (handle_child_status _ _ _) as [[] st1|h st1]; [|discriminate Hrun].
    destruct (IH _ _ _ Hrun) as ((used & -> & Hused) & Hjob).
    split; [|exact Hjob]. exists (w :: used). split; [done|]. by constructor.
  - injection Hrun as <- <-. split; [exists []; by split|]. eauto.
Qed.

(** X12.  [wait_for_job] returns only with SIGCHLD blocked (otherwise its
    assertion fails), after using up a prefix of the kernel's answers none
    of which was a failure, and then the job is allocated and is no longer
    a Foreground job with live processes.  For a job that already is in
    that condition it returns at once, using no answer and changing
    nothing. *)
Theorem wait_for_job_returns (ws : list wait_result) (p : ptr) (st : shell) :
  (∀ ws' st',
     wait_for_job ws p st = Ret ws' st' →
     sigchld_blocked st = true
     ∧ (∃ used, ws = used ++ ws' ∧ Forall (λ w, w_child w ≠ -1) used)
     ∧ ∃ j', heap st' !! p = Some j'
         ∧ (status j' ≠ FOREGROUND ∨ num_processes_alive j' ≤ 0))
  ∧ (∀ j,
       sigchld_blocked st = true →
       heap st !! p = Some j →
       status j ≠ FOREGROUND ∨ num_processes_alive j ≤ 0 →
       wait_for_job ws p st = Ret ws st)
  ∧ (sigchld_blocked st = false → wait_for_job ws p st = Halt Aborted st).
Proof.
  split; [|split].
  - intros ws' st' Hrun. unfold wait_for_job, bind, signal_is_blocked_sigchld, gets in Hrun.
    destruct (sigchld_blocked st) eqn:Hblk; [|discriminate Hrun].
    simpl in Hrun. split; [done|]. by apply wait_for_job_loop_returns in Hrun.
  - intros j Hblk Hj Hdone. unfold wait_for_job.
    rewrite (bind_Ret _ _ _ true st)
      by (unfold signal_is_blocked_sigchld, gets; by rewrite Hblk).
    rewrite (bind_Ret _ _ _ tt st) by reflexivity.
    by apply (wait_for_job_loop_done _ _ j).
  - intros Hblk. unfold wait_for_job.
    rewrite (bind_Ret _ _ _ false st)
      by (unfold signal_is_blocked_sigchld, gets; by rewrite Hblk).
    reflexivity.
Qed.

Lemma wait_for_job_returns_witness :
  (∃ j', heap (final_state (wait_for_job [answer 100 status_tstp; answer 7 0] 0%nat
                  (sample_shell [sample_job 1 FOREGROUND [100]] true))) !! 0%nat
         = Some j'
         ∧ (status j' ≠ FOREGROUND ∨ num_processes_alive j' ≤ 0))
  ∧ wait_for_job [answer 100 status_tstp] 0%nat
      (sample_shell [sample_job 1 STOPPED [100]] true)
    = Ret [answer 100 status_tstp] (sample_shell [sample_job 1 STOPPED [100]] true)
  ∧ wait_for_job [] 0%nat (sample_shell [sample_job 1 STOPPED [100]] false)
    = Halt Aborted (sample_shell [sample_job 1 STOPPED [100]] false).
Proof.
  split; [|split].
  - destruct (wait_for_job_returns [answer 100 status_tstp; answer 7 0] 0%nat
                (sample_shell [sample_job 1 FOREGROUND [100]] true)) as [Hret _].
    destruct (Hret [answer 7 0]
                (final_state (wait_for_job [answer 100 status_tstp; answer 7 0] 0%nat
                   (sample_shell [sample_job 1 FOREGROUND [100]] true))))
      as (_ & _ & Hjob); [vm_compute; reflexivity | exact Hjob].
  - destruct (wait_for_job_returns [answer 100 status_tstp] 0%nat
                (sample_shell [sample_job 1 STOPPED [100]] true)) as (_ & Hdone & _).
    apply (Hdone (sample_job 1 STOPPED [100])); [reflexivity | reflexivity | by left].
  - destruct (wait_for_job_returns [] 0%nat
                (sample_shell [sample_job 1 STOPPED [100]] false)) as (_ & _ & Hab).
    by apply Hab.
Defined.

(** ** Job ids that name no job *)





(** ** [fg] on a job that has no live process *)

(** X14.  [fg] applied to a registered job that has no live process left
    (for instance one that is Terminated and waits to be removed) marks it
    Foreground, hands it the terminal, sends SIGCONT and prints its
    command line; the wait returns at once without using an answer, and as
    the job is not Terminated any more it is not removed: it stays in the
    job list and the id array as a Foreground job without processes. *)
Theorem fg_of_finished_job (a0 a1 : string) (rest : list string)
    (ws : list wait_result) (st : shell) (p : ptr) (j : job) (s : string) :
  0 < atoi a1 < 65536 →
  jid2job st !! atoi a1 = Some p →
  heap st !! p = Some j →
  num_processes_alive j ≤ 0 →
  sigchld_blocked st = true →
  cmdline_text true (commands (pipe j)) = Some s →
  fg_builtin ws (a0 :: a1 :: rest) st
  = Ret ws
      (set_log (log st ++ [EKill (-1 * pgid j) SIGCONT; EStdout s; EStdout nl])
         (set_tty_owner (pgid j)
            (set_tty_mode (saved_tty_state j)
               (set_heap (<[p := set_status FOREGROUND j]> (heap st)) st)))).
Proof.
  intros Hjid Htab Hj Hn Hblk Hs.
  set (j1 := set_status FOREGROUND j).
  set (st1 := set_heap (<[p := j1]> (heap st)) st).
  set (st2 := set_tty_owner (pgid j) (set_tty_mode (saved_tty_state j) st1)).
  set (st3 := set_log (log st ++ [EKill (-1 * pgid j) SIGCONT; EStdout s; EStdout nl]) st2).
  assert (Hb : builtin_job (a0 :: a1 :: rest) st = Ret (atoi a1, Some p) st).
  { unfold builtin_job.
    replace (atoi a1 <? 1) with false by (symmetry; apply Z.ltb_ge; lia).
    rewrite (bind_Ret _ _ _ tt st) by reflexivity.
    erewrite bind_Ret; [|apply get_job_from_jid_spec].
    by rewrite bool_decide_eq_true_2, Htab by lia. }
  assert (Hj3 : heap st3 !! p = Some j1) by (subst st3 st2 st1; fields; apply lookup_insert_eq).
  unfold fg_builtin. rewrite (bind_Ret _ _ _ _ _ Hb). cbn [snd].
  rewrite (bind_Ret _ _ _ tt st1).
  2: { unfold assign_status. rewrite (bind_Ret _ _ _ _ _ (load_job_Ret _ _ _ Hj)).
       unfold store_job. by rewrite Hj. }
  rewrite (bind_Ret _ _ _ j1 st1)
    by (apply load_job_Ret; subst st1; fields; apply lookup_insert_eq).
  rewrite (bind_Ret _ _ _ tt st2) by reflexivity.
  rewrite (bind_Ret _ _ _ tt (set_log (log st ++ [EKill (-1 * pgid j) SIGCONT]) st2))
    by reflexivity.
  rewrite (bind_Ret _ _ _ tt
             (set_log (log st ++ [EKill (-1 * pgid j) SIGCONT; EStdout s]) st2)).
  2: { unfold print_cmdline. change (pipe j1) with (pipe j). rewrite Hs.
       unfold printf, emit, modify. fields. by rewrite <- app_assoc. }
  rewrite (bind_Ret _ _ _ tt st3).
  2: { unfold printf, emit, modify. subst st3. fields. by rewrite <- app_assoc. }
  rewrite (bind_Ret _ _ _ ws st3).
  2: { unfold wait_for_job.
       rewrite (bind_Ret _ _ _ true st3)
         by (unfold signal_is_blocked_sigchld, gets;
             by replace (sigchld_blocked st3) with true).
       rewrite (bind_Ret _ _ _ tt st3) by reflexivity.
       apply (wait_for_job_loop_done _ _ j1); [done | by right]. }
  rewrite (bind_Ret _ _ _ _ _ (load_job_Ret _ _ _ Hj3)).
  rewrite bool_decide_eq_false_2 by done. reflexivity.
Qed.

Lemma fg_of_finished_job_witness :
  ∃ st' j',
    fg_builtin [] ["fg"; "1"] (sample_shell [sample_job 1 TERMINATED []] true)
    = Ret [] st'
    ∧ job_list st' = [0%nat]
    ∧ heap st' !! 0%nat = Some j'
    ∧ status j' = FOREGROUND.
Proof.
  eexists _, _. split.
  - apply (fg_of_finished_job "fg" "1" [] []
             (sample_shell [sample_job 1 TERMINATED []] true) 0%nat
             (sample_job 1 TERMINATED []) "");
      [done | reflexivity | reflexivity | done | reflexivity | reflexivity].
  - split; [reflexivity|]. split; [apply lookup_insert_eq | reflexivity].
Defined.

(** ** The exact effect of a reported death *)

Lemma set_log_app_nil st : set_log (log st ++ []) st = st.
Proof. destruct st. unfold set_log. simpl. by rewrite app_nil_r. Qed.




(** ** [kill]: the job is killed, reaped and dropped *)






(** ** Spawning a pipeline of external commands *)

Lemma run_builtin_None a0 args ws ws' :
  run_builtin a0 args ws = None → run_builtin a0 args ws' = None.
Proof.
  unfold run_builtin. by repeat destruct (String.eqb a0 _).
Qed.

Lemma close_pipe_exact fds st :
  close_pipe fds st = Ret tt (set_log (log st ++ close_events fds) st).
Proof.
  unfold close_pipe, close_events, close, emit, bind, modify, ret.
  destruct (2 <? fds.1), (2 <? fds.2); fields; simpl.
  all: destruct st; unfold set_log; simpl; f_equal;
    rewrite ?app_nil_r, <- ?app_assoc; done.
Qed.

Lemma spawn_success_existing pipeline c proc_pid loc st p j :
  l_job loc = Some p →
  heap st !! p = Some j →
  0 ≤ num_processes_alive j < Z.of_nat (length (procs j)) →
  spawn_success pipeline c proc_pid loc st
  = Ret {| l_job := Some p; l_prev_pipe := l_prev_pipe loc;
           l_pgrp := if l_pgrp loc =? 0 then proc_pid else l_pgrp loc |}
      (set_heap
         (<[p := set_num_processes_alive (num_processes_alive j + 1)
                   (set_procs (<[Z.to_nat (num_processes_alive j) :=
                                  {| pid := proc_pid; pstatus := PSTAT_RUNNING;
                                     command := c |}]> (procs j)) j)]> (heap st))
         (if bg_job pipeline then st
          else set_tty_owner (if l_pgrp loc =? 0 then proc_pid else l_pgrp loc) st)).
Proof.
  intros Hjob Hj Hn. unfold spawn_success. rewrite Hjob.
  set (pgrp := if l_pgrp loc =? 0 then proc_pid else l_pgrp loc).
  set (st1 := if bg_job pipeline then st else set_tty_owner pgrp st).
  assert (Hj1 : heap st1 !! p = Some j) by (subst st1; by destruct (bg_job pipeline)).
  rewrite (bind_Ret _ _ _ tt st1) by (subst st1; by destruct (bg_job pipeline)).
  rewrite (bind_Ret _ _ _ p st1) by reflexivity.
  rewrite (bind_Ret _ _ _ _ _ (load_job_Ret _ _ _ Hj1)).
  replace ((0 <=? num_processes_alive j)
           && (num_processes_alive j <? Z.of_nat (length (procs j)))) with true
    by (symmetry; apply andb_true_iff; split; [apply Z.leb_le | apply Z.ltb_lt]; lia).
  unfold bind, store_job, ret. rewrite Hj1.
  replace (heap st1) with (heap st) by (subst st1; by destruct (bg_job pipeline)). done.
Qed.

Lemma spawn_success_new pipeline c proc_pid loc st i :
  l_job loc = None →
  first_free_jid (jid2job st) 1 (Z.to_nat (MAXJOBS - 1)) = Some i →
  commands pipeline ≠ [] →
  spawn_success pipeline c proc_pid loc st
  = Ret {| l_job := Some (next_ptr st); l_prev_pipe := l_prev_pipe loc;
           l_pgrp := if l_pgrp loc =? 0 then proc_pid else l_pgrp loc |}
      (set_heap
         (<[next_ptr st :=
              {| pipe := pipeline; jid := i;
                 status := if bg_job pipeline then BACKGROUND else FOREGROUND;
                 num_processes_alive := 1;
                 saved_tty_state := tty_mode st;
                 pgid := if l_pgrp loc =? 0 then proc_pid else l_pgrp loc;
                 procs := <[0%nat := {| pid := proc_pid; pstatus := PSTAT_RUNNING;
                                         command := c |}]>
                            (replicate (length (commands pipeline)) uninit_process) |}]>
            (heap st))
         (set_jid2job (<[i := next_ptr st]> (jid2job st))
            (set_job_list (job_list st ++ [next_ptr st])
               (set_next_ptr (S (next_ptr st))
                  (if bg_job pipeline then st
                   else set_tty_owner (if l_pgrp loc =? 0 then proc_pid
                                       else l_pgrp loc) st))))).
Proof.
  intros Hjob Hfree Hne. unfold spawn_success. rewrite Hjob.
  set (pgrp := if l_pgrp loc =? 0 then proc_pid else l_pgrp loc).
  set (st1 := if bg_job pipeline then st else set_tty_owner pgrp st).
  assert (Hst1 : jid2job st1 = jid2job st ∧ heap st1 = heap st
                 ∧ next_ptr st1 = next_ptr st ∧ job_list st1 = job_list st
                 ∧ tty_mode st1 = tty_mode st)
    by (subst st1; by destruct (bg_job pipeline)).
  destruct Hst1 as (Ht1 & Hh1 & Hn1 & Hl1 & Hm1).
  rewrite (bind_Ret _ _ _ tt st1) by (subst st1; by destruct (bg_job pipeline)).
  assert (Hlen : (0 < length (commands pipeline))%nat)
    by (destruct (commands pipeline); [done | simpl; lia]).
  unfold bind at 1. unfold bind at 1. unfold add_job. fields.
  rewrite Ht1, Hfree, Hn1, Hh1, Hl1. fields.
  unfold bind at 1. unfold load_job. fields. rewrite lookup_insert_eq.
  unfold bind at 1. unfold termstate_save, gets. fields.
  unfold bind at 1. unfold store_job. fields. rewrite lookup_insert_eq.
  unfold ret at 1. unfold bind at 1. unfold load_job. fields.
  rewrite lookup_insert_eq. fields. rewrite length_replicate.
  replace ((0 <=? 0) && (0 <? Z.of_nat (length (commands pipeline)))) with true
    by (symmetry; apply andb_true_iff; split; [apply Z.leb_le | apply Z.ltb_lt]; lia).
  unfold bind, store_job, ret. fields. rewrite lookup_insert_eq.
  rewrite !insert_insert_eq, Hm1. f_equal.
Qed.

Lemma create_pipe_ok r ps rs ws st :
  0 ≤ pipe_rc r →
  create_pipe false {| w_pipes := r :: ps; w_spawns := rs; w_waits := ws |} st
  = Ret ((pipe_rd r, pipe_wr r), {| w_pipes := ps; w_spawns := rs; w_waits := ws |}) st.
Proof.
  intros Hr. unfold create_pipe. cbn [w_pipes w_spawns w_waits].
  by replace (pipe_rc r <? 0) with false by (symmetry; apply Z.ltb_ge; lia).
Qed.

Lemma run_command_spawns pipeline c last loc w st r rs new_pipe ps loc1 st1 :
  external c →
  create_pipe last w st
  = Ret (new_pipe, {| w_pipes := ps; w_spawns := r :: rs; w_waits := w_waits w |}) st →
  spawn_rc r = 0 →
  spawn_success pipeline c (spawn_pid r) loc st = Ret loc1 st1 →
  run_command pipeline c last loc w st
  = Ret ({| l_job := l_job loc1; l_prev_pipe := new_pipe; l_pgrp := l_pgrp loc1 |},
         {| w_pipes := ps; w_spawns := rs; w_waits := w_waits w |})
      (set_log (log st1 ++ close_events (l_prev_pipe loc1)) st1).
Proof.
  intros (a0 & rest & Hargv & Hext) Hpipe Hrc Hspawn.
  unfold run_command. rewrite (bind_Ret _ _ _ _ _ Hpipe). cbn [fst snd].
  rewrite Hargv. rewrite <- Hargv.
  rewrite (run_builtin_None _ _ _ _ Hext).
  unfold spawn_command. cbn [w_pipes w_spawns w_waits].
  rewrite Hrc. change (0 =? ENOENT) with false. change (negb (0 =? 0)) with false.
  cbv iota. rewrite (bind_Ret _ _ _ _ _ Hspawn).
  by rewrite (bind_Ret _ _ _ _ _ (close_pipe_exact _ _)).
Qed.

Lemma spawned_slots (l : list process) (n k : nat) x xs :
  (n < length l)%nat →
  take (S n) (<[n := x]> l) ++ xs ++ drop (S n + k) (<[n := x]> l)
  = take n l ++ (x :: xs) ++ drop (n + S k) l.
Proof.
  intros Hn. rewrite (insert_take_drop l n x Hn).
  assert (Hlen : length (take n l) = n) by (rewrite length_take; lia).
  replace (take (S n) (take n l ++ x :: drop (S n) l)) with (take n l ++ [x]).
  2: { rewrite take_app_ge by lia. rewrite Hlen.
       by replace (S n - n)%nat with 1%nat by lia. }
  replace (drop (S n + k) (take n l ++ x :: drop (S n) l)) with (drop (n + S k) l).
  2: { rewrite drop_app_ge by lia. rewrite Hlen.
       replace (S n + k - n)%nat with (S k) by lia. simpl.
       rewrite drop_drop. f_equal. lia. }
  by rewrite <- app_assoc.
Qed.

Lemma run_commands_rest pipeline cs :
  ∀ ps rs ps' rs' ws loc st p j,
    cs ≠ [] →
    Forall external cs →
    length rs = length cs →
    length ps = pred (length cs) →
    Forall (λ r, 0 ≤ pipe_rc r) ps →
    Forall (λ r, spawn_rc r = 0) rs →
    l_job loc = Some p →
    l_pgrp loc ≠ 0 →
    heap st !! p = Some j →
    0 ≤ num_processes_alive j →
    num_processes_alive j + Z.of_nat (length cs) ≤ Z.of_nat (length (procs j)) →
    run_commands pipeline cs loc
      {| w_pipes := ps ++ ps'; w_spawns := rs ++ rs'; w_waits := ws |} st
    = Ret ({| l_job := Some p; l_prev_pipe := (-1, STDOUT_FILENO);
              l_pgrp := l_pgrp loc |},
           {| w_pipes := ps'; w_spawns := rs'; w_waits := ws |})
        (set_log (log st ++ close_events (l_prev_pipe loc) ++ (ps ≫= pipe_closes))
           (set_heap
              (<[p := set_num_processes_alive
                        (num_processes_alive j + Z.of_nat (length cs))
                        (set_procs
                           (take (Z.to_nat (num_processes_alive j)) (procs j)
                            ++ zip_with spawned cs rs
                            ++ drop (Z.to_nat (num_processes_alive j) + length cs)
                                 (procs j)) j)]> (heap st))
              (if bg_job pipeline then st else set_tty_owner (l_pgrp loc) st))).
Proof.
  induction cs as [|c cs IH];
    intros ps rs ps' rs' ws loc st p j Hne Hext Hrs Hps Hpipes Hspawns Hjob Hpg Hj Hn0 Hn;
    [done|].
  destruct rs as [|r rs]; [done|]. simpl in Hrs, Hps, Hn.
  apply Forall_cons in Hext as [Hc Hext]. apply Forall_cons in Hspawns as [Hr Hspawns].
  set (n := num_processes_alive j) in *.
  set (j1 := set_num_processes_alive (n + 1)
               (set_procs (<[Z.to_nat n := spawned c r]> (procs j)) j)).
  set (st0 := if bg_job pipeline then st else set_tty_owner (l_pgrp loc) st).
  set (st1 := set_heap (<[p := j1]> (heap st)) st0).
  assert (Hspawn : spawn_success pipeline c (spawn_pid r) loc st
                   = Ret {| l_job := Some p; l_prev_pipe := l_prev_pipe loc;
                            l_pgrp := l_pgrp loc |} st1).
  { rewrite (spawn_success_existing pipeline c (spawn_pid r) loc st p j Hjob Hj) by lia.
    by replace (l_pgrp loc =? 0) with false by (symmetry; by apply Z.eqb_neq). }
  set (st2 := set_log (log st1 ++ close_events (l_prev_pipe loc)) st1).
  assert (Hslot : (Z.to_nat n < length (procs j))%nat) by lia.
  cbn [run_commands].
  destruct cs as [|c2 cs].
  - destruct ps; [|done]. destruct rs; [|done].
    rewrite bool_decide_eq_true_2 by done.
    erewrite bind_Ret.
    2: { eapply (run_command_spawns pipeline c true loc _ st r rs'
                   (-1, STDOUT_FILENO) ps'); [done | reflexivity | done | exact Hspawn]. }
    cbn [run_commands fst snd w_waits l_job l_prev_pipe l_pgrp]. unfold ret. f_equal.
    subst st2 st1 j1. simpl bind. rewrite app_nil_r.
    pose proof (spawned_slots (procs j) (Z.to_nat n) 0 (spawned c r) [] Hslot) as Hs.
    rewrite !app_nil_l in Hs. simpl zip_with.
    replace (Z.to_nat n + length [c])%nat with (Z.to_nat n + 1)%nat by done.
    rewrite <- Hs. rewrite Nat.add_0_r.
    replace (S (Z.to_nat n)) with (Z.to_nat n + 1)%nat by lia.
    rewrite take_drop.
    replace (n + Z.of_nat (length [c])) with (n + 1) by (simpl; lia).
    subst st0. by destruct (bg_job pipeline).
  - destruct ps as [|r0 ps]; [done|]. simpl in Hps.
    apply Forall_cons in Hpipes as [Hr0 Hpipes].
    rewrite bool_decide_eq_false_2 by done.
    erewrite bind_Ret.
    2: { eapply (run_command_spawns pipeline c false loc _ st r (rs ++ rs')
                   (pipe_rd r0, pipe_wr r0) (ps ++ ps'));
           [done | by apply create_pipe_ok | done | exact Hspawn]. }
    cbn [fst snd w_waits l_job l_prev_pipe l_pgrp].
    rewrite (IH ps rs ps' rs' ws _ st2 p j1); try done.
    2: { injection Hrs as Hrs. done. }
    2: { injection Hps as Hps. simpl. lia. }
    2: { subst st2 st1. fields. apply lookup_insert_eq. }
    2: { subst j1. fields. lia. }
    2: { subst j1. fields. rewrite length_insert. simpl length in *. lia. }
    cbn [l_pgrp l_prev_pipe]. f_equal.
    subst st2 st1 j1 st0. fields.
    replace (Z.to_nat (n + 1)) with (S (Z.to_nat n)) by lia.
    rewrite (spawned_slots (procs j) (Z.to_nat n) (length (c2 :: cs)) (spawned c r)
               (zip_with spawned (c2 :: cs) rs) Hslot).
    replace (n + 1 + Z.of_nat (length (c2 :: cs)))
      with (n + Z.of_nat (length (c :: c2 :: cs))) by (simpl length; lia).
    change (length (c :: c2 :: cs)) with (S (length (c2 :: cs))).
    change (zip_with spawned (c :: c2 :: cs) (r :: rs))
      with (spawned c r :: zip_with spawned (c2 :: cs) rs).
    change ((r0 :: ps) ≫= pipe_closes) with (pipe_closes r0 ++ (ps ≫= pipe_closes)).
    unfold pipe_closes at 2.
    destruct (bg_job pipeline), st; unfold set_log, set_heap, set_tty_owner; simpl;
      rewrite insert_insert_eq, <- !app_assoc; reflexivity.
Qed.

Lemma first_free_jid_smallest (t : gmap Z ptr) (i : Z) :
  0 < i < 65536 →
  t !! i = None →
  (∀ k, 0 < k < i → is_Some (t !! k)) →
  first_free_jid t 1 (Z.to_nat (MAXJOBS - 1)) = Some i.
Proof.
  intros Hi Hfree Hused.
  pose proof (first_free_jid_spec t (Z.to_nat (MAXJOBS - 1)) 1) as Hspec.
  rewrite MAXJOBS_eq in *.
  destruct (first_free_jid t 1 (Z.to_nat (65536 - 1))) as [k|].
  - destruct Hspec as (Hk & Hkfree & Hkused). f_equal.
    destruct (Z.lt_trichotomy k i) as [Hlt|[->|Hgt]]; [|done|].
    + destruct (Hused k) as [q Hq]; [lia | congruence].
    + destruct (Hkused i) as [q Hq]; [lia | congruence].
  - destruct (Hspec i) as [q Hq]; [lia | congruence].
Qed.

Lemma run_commands_spawns_all pipeline ps rs ps' rs' ws st i :
  commands pipeline ≠ [] →
  Forall external (commands pipeline) →
  length rs = length (commands pipeline) →
  length ps = pred (length (commands pipeline)) →
  Forall (λ r, 0 ≤ pipe_rc r) ps →
  Forall (λ r, spawn_rc r = 0) rs →
  Forall (λ r, spawn_pid r ≠ 0) rs →
  first_free_jid (jid2job st) 1 (Z.to_nat (MAXJOBS - 1)) = Some i →
  run_commands pipeline (commands pipeline)
    {| l_job := None; l_prev_pipe := (STDIN_FILENO, -1); l_pgrp := 0 |}
    {| w_pipes := ps ++ ps'; w_spawns := rs ++ rs'; w_waits := ws |} st
  = Ret ({| l_job := Some (next_ptr st); l_prev_pipe := (-1, STDOUT_FILENO);
            l_pgrp := default 0 (spawn_pid <$> head rs) |},
         {| w_pipes := ps'; w_spawns := rs'; w_waits := ws |})
      (set_log (log st ++ (ps ≫= pipe_closes))
         (set_heap
            (<[next_ptr st := spawned_job pipeline i (tty_mode st) rs]> (heap st))
            (set_jid2job (<[i := next_ptr st]> (jid2job st))
               (set_job_list (job_list st ++ [next_ptr st])
                  (set_next_ptr (S (next_ptr st))
                     (if bg_job pipeline then st
                      else set_tty_owner (default 0 (spawn_pid <$> head rs)) st)))))).
Proof.
  intros Hne Hext Hrs Hps Hpipes Hspawns Hpids Hfree.
  unfold spawned_job.
  destruct (commands pipeline) as [|c cs] eqn:Hcmds; [done|].
  destruct rs as [|r rs]; [done|]. simpl in Hrs, Hps.
  apply Forall_cons in Hext as [Hc Hext]. apply Forall_cons in Hspawns as [Hr Hspawns].
  apply Forall_cons in Hpids as [Hpid _].
  cbn [head fmap option_fmap option_map default].
  set (p := next_ptr st).
  set (st0 := if bg_job pipeline then st else set_tty_owner (spawn_pid r) st).
  set (j1 := {| pipe := pipeline; jid := i;
                status := if bg_job pipeline then BACKGROUND else FOREGROUND;
                num_processes_alive := 1; saved_tty_state := tty_mode st;
                pgid := spawn_pid r;
                procs := <[0%nat := spawned c r]>
                           (replicate (length (c :: cs)) uninit_process) |}).
  set (st1 := set_heap (<[p := j1]> (heap st))
                (set_jid2job (<[i := p]> (jid2job st))
                   (set_job_list (job_list st ++ [p]) (set_next_ptr (S p) st0)))).
  assert (Hspawn : spawn_success pipeline c (spawn_pid r)
                     {| l_job := None; l_prev_pipe := (STDIN_FILENO, -1); l_pgrp := 0 |} st
                   = Ret {| l_job := Some p; l_prev_pipe := (STDIN_FILENO, -1);
                            l_pgrp := spawn_pid r |} st1).
  { rewrite (spawn_success_new pipeline c (spawn_pid r) _ st i); try done.
    - by rewrite Hcmds.
    - by rewrite Hcmds. }
  cbn [run_commands].
  destruct cs as [|c2 cs].
  - destruct ps; [|done]. destruct rs; [|done].
    rewrite bool_decide_eq_true_2 by done.
    erewrite bind_Ret.
    2: { eapply (run_command_spawns pipeline c true _ _ st r rs'
                   (-1, STDOUT_FILENO) ps'); [done | reflexivity | done | exact Hspawn]. }
    cbn [run_commands fst snd w_waits l_job l_prev_pipe l_pgrp]. unfold ret. f_equal.
    subst st1 j1 st0 p. simpl.
    destruct (bg_job pipeline), st; unfold set_log, set_heap, set_tty_owner; simpl;
      by rewrite !app_nil_r.
  - destruct ps as [|r0 ps]; [done|]. simpl in Hps.
    apply Forall_cons in Hpipes as [Hr0 Hpipes].
    rewrite bool_decide_eq_false_2 by done.
    erewrite bind_Ret.
    2: { eapply (run_command_spawns pipeline c false _ _ st r (rs ++ rs')
                   (pipe_rd r0, pipe_wr r0) (ps ++ ps'));
           [done | by apply create_pipe_ok | done | exact Hspawn]. }
    cbn [fst snd w_waits l_job l_prev_pipe l_pgrp].
    set (st2 := set_log _ st1).
    rewrite (run_commands_rest pipeline (c2 :: cs) ps rs ps' rs' ws _ st2 p j1); try done.
    2: { injection Hrs as Hrs. done. }
    2: { injection Hps as Hps. simpl. lia. }
    2: { subst st2 st1. fields. apply lookup_insert_eq. }
    2: { subst j1. fields. rewrite length_insert, length_replicate. simpl length. lia. }
    cbn [l_pgrp l_prev_pipe]. f_equal.
    subst st2 st1 j1 st0 p. fields.
    change (Z.to_nat 1) with 1%nat.
    change (take 1 (<[0%nat:=spawned c r]> (replicate (length (c :: c2 :: cs)) uninit_process)))
      with [spawned c r].
    rewrite drop_ge by (rewrite length_insert, length_replicate; simpl; lia).
    rewrite app_nil_r.
    replace (1 + Z.of_nat (length (c2 :: cs))) with (Z.of_nat (length (c :: c2 :: cs)))
      by (simpl length; lia).
    change ((r0 :: ps) ≫= pipe_closes) with (pipe_closes r0 ++ (ps ≫= pipe_closes)).
    unfold pipe_closes at 2.
    rewrite insert_insert_eq, !app_nil_r.
    destruct (bg_job pipeline); fields; by destruct st.
Qed.

(** X16.  A background pipeline all of whose commands are external
    programs, with every [pipe2] and every [posix_spawnp] succeeding (one
    pipe between two neighbours, pids other than 0): exactly one job is
    created, at a fresh address, appended to the job list and entered in the
    id array under the smallest free id [i]; it is Background, its process
    group is the first pid, it saved the terminal mode current at the
    spawn, and its live processes are the commands in pipeline order, each
    with the pid its spawn answered, all Running.  The shell closes both ends
    of every pipe it created, in creation order, prints "[i] <first pid>",
    uses no answer of [waitpid] and leaves the terminal alone. *)
Theorem background_pipeline_job (pipeline : ast_pipeline)
    (ps ps' : list pipe_result) (rs rs' : list spawn_result)
    (ws : list wait_result) (st : shell) (i : Z) :
  bg_job pipeline = true →
  Forall external (commands pipeline) →
  length rs = length (commands pipeline) →
  S (length ps) = length (commands pipeline) →
  Forall (λ r, 0 ≤ pipe_rc r) ps →
  Forall (λ r, spawn_rc r = 0) rs →
  Forall (λ r, spawn_pid r ≠ 0) rs →
  0 < i < 65536 →
  jid2job st !! i = None →
  (∀ k, 0 < k < i → is_Some (jid2job st !! k)) →
  run_pipeline pipeline
    {| w_pipes := ps ++ ps'; w_spawns := rs ++ rs'; w_waits := ws |} st
  = Ret {| w_pipes := ps'; w_spawns := rs'; w_waits := ws |}
      (set_log (log st ++ (ps ≫= pipe_closes)
                ++ [EStdout ("[" +:+ pretty i +:+ "] "
                             +:+ pretty (default 0 (spawn_pid <$> head rs)) +:+ nl)])
         (set_heap
            (<[next_ptr st := spawned_job pipeline i (tty_mode st) rs]> (heap st))
            (set_jid2job (<[i := next_ptr st]> (jid2job st))
               (set_job_list (job_list st ++ [next_ptr st])
                  (set_next_ptr (S (next_ptr st)) st))))).
Proof.
  intros Hbg Hext Hrs Hps Hpipes Hspawns Hpids Hi Hfree Hused.
  unfold run_pipeline.
  rewrite (bind_Ret _ _ _ _ _
             (run_commands_spawns_all pipeline ps rs ps' rs' ws st i
                ltac:(intros Hnil; by rewrite Hnil in Hps) Hext Hrs
                ltac:(by rewrite <- Hps) Hpipes Hspawns Hpids
                (first_free_jid_smallest _ _ Hi Hfree Hused))).
  cbn [fst snd l_job]. rewrite Hbg. cbn [negb].
  erewrite bind_Ret; [|apply load_job_Ret; fields; apply lookup_insert_eq].
  unfold bind, printf, emit, modify, ret. fields. unfold spawned_job at 1 2. fields.
  by rewrite <- app_assoc.
Qed.

Lemma background_pipeline_job_witness :
  ∃ st',
    run_pipeline (sample_pipeline [["ls"]; ["wc"]] true)
      {| w_pipes := [{| pipe_rc := 0; pipe_rd := 3; pipe_wr := 4 |}];
         w_spawns := [{| spawn_rc := 0; spawn_pid := 100 |};
                      {| spawn_rc := 0; spawn_pid := 101 |}];
         w_waits := [] |} (init_shell 1 0)
    = Ret no_answers st'
    ∧ job_list st' = [0%nat]
    ∧ log st' = [EClose 3; EClose 4; EStdout ("[1] 100" +:+ nl)]
    ∧ tty_owner st' = 1.
Proof.
  eexists. split.
  - apply (background_pipeline_job (sample_pipeline [["ls"]; ["wc"]] true)
             [{| pipe_rc := 0; pipe_rd := 3; pipe_wr := 4 |}] []
             [{| spawn_rc := 0; spawn_pid := 100 |}; {| spawn_rc := 0; spawn_pid := 101 |}]
             [] [] (init_shell 1 0) 1).
    + reflexivity.
    + repeat constructor; eexists _, _; split; reflexivity.
    + reflexivity.
    + reflexivity.
    + repeat constructor; simpl; lia.
    + repeat constructor.
    + repeat constructor; simpl; lia.
    + lia.
    + reflexivity.
    + intros k Hk. lia.
  - split; [reflexivity|]. split; reflexivity.
Defined.



(** ** The descriptors of a spawned command *)

Lemma run_actions_if (c : bool) (a : file_action) (l : list file_action)
    (t t' : gmap Z file) :
  (c = true → run_action t a = Some t') →
  run_actions ((if c then [a] else []) ++ l) t = run_actions l (if c then t' else t).
Proof.
  intros Ha. destruct c; [|done]. simpl. by rewrite Ha.
Qed.

Lemma lookup_if_insert_ne (c : bool) (k fd : Z) (v : file) (t : gmap Z file) :
  k ≠ fd → (if c then <[k := v]> t else t) !! fd = t !! fd.
Proof. intros Hne. destruct c; [by rewrite lookup_insert_ne | done]. Qed.

Lemma lookup_if_insert_eq (c : bool) (k : Z) (v : file) (t : gmap Z file) :
  (if c then <[k := v]> t else t) !! k = if c then Some v else t !! k.
Proof. destruct c; [by rewrite lookup_insert_eq | done]. Qed.

Lemma lookup_if_delete (k fd : Z) (t : gmap Z file) :
  (if 2 <? k then delete k t else t) !! fd
  = if bool_decide (fd = k ∧ 2 < k) then None else t !! fd.
Proof.
  destruct (Z.ltb_spec 2 k).
  - destruct (decide (fd = k)) as [->|Hne].
    + by rewrite lookup_delete_eq, bool_decide_eq_true_2.
    + rewrite lookup_delete_ne by done. by rewrite bool_decide_eq_false_2 by tauto.
  - by rewrite bool_decide_eq_false_2 by lia.
Qed.

(** X18.  The descriptors with which a spawned command starts, when the
    pipe ends above 2 that the shell passes are open and so is its standard
    output: standard input is the read end of the previous pipe if that is
    above 2, else the input file for the first command of a pipeline that
    redirects its input (opened read-only), else the shell's; standard
    output is the write end of the new pipe if that is above 2, else the
    output file for the last command of a pipeline that redirects its
    output, else the shell's; standard error is whatever standard output
    has become if the command asks for it, else the shell's.  Every pipe
    end above 2 is closed in the child, every other descriptor above 2 is
    inherited as it was, and no action fails.  The output file is opened
    write-only with O_CREAT, with O_APPEND exactly if appending was asked
    for, and never with O_TRUNC. *)
Theorem child_descriptors (pipeline : ast_pipeline) (first last : bool)
    (command : ast_command) (prev_pipe new_pipe : Z * Z) (t0 : gmap Z file) :
  (2 < prev_pipe.1 → is_Some (t0 !! prev_pipe.1)) →
  (2 < new_pipe.2 → is_Some (t0 !! new_pipe.2)) →
  is_Some (t0 !! STDOUT_FILENO) →
  ∃ t o_flags,
    run_actions (setup_file_actions pipeline first last command prev_pipe new_pipe) t0
    = Some t
    ∧ t !! STDIN_FILENO
      = (if 2 <? prev_pipe.1 then t0 !! prev_pipe.1
         else match (if first then iored_input pipeline else None) with
              | Some f => Some (Opened f O_RDONLY 0)
              | None => t0 !! STDIN_FILENO
              end)
    ∧ t !! STDOUT_FILENO
      = (if 2 <? new_pipe.2 then t0 !! new_pipe.2
         else match (if last then iored_output pipeline else None) with
              | Some f => Some (Opened f o_flags 438)
              | None => t0 !! STDOUT_FILENO
              end)
    ∧ t !! STDERR_FILENO
      = (if dup_stderr_to_stdout command then t !! STDOUT_FILENO
         else t0 !! STDERR_FILENO)
    ∧ (∀ fd, 2 < fd →
         t !! fd = if bool_decide (fd ∈ [prev_pipe.1; prev_pipe.2; new_pipe.1; new_pipe.2])
                   then None else t0 !! fd)
    ∧ Z.land o_flags 3 = O_WRONLY
    ∧ Z.land o_flags O_CREAT = O_CREAT
    ∧ Z.land o_flags O_TRUNC = 0
    ∧ (Z.land o_flags O_APPEND = O_APPEND ↔ append_to_output pipeline = true).
Proof.
  destruct prev_pipe as [pr pw], new_pipe as [nr nw]. cbn [fst snd].
  intros Hpr Hnw Hout.
  set (o_flags := if append_to_output pipeline
                  then Z.lor (Z.lor O_WRONLY O_CREAT) O_APPEND
                  else Z.lor O_WRONLY O_CREAT).
  set (fin := if first then iored_input pipeline else None).
  set (fout := if last then iored_output pipeline else None).
  set (t1 := match fin with
             | Some f => <[STDIN_FILENO := Opened f O_RDONLY 0]> t0
             | None => t0
             end).
  set (t2 := match fout with
             | Some f => <[STDOUT_FILENO := Opened f o_flags 438]> t1
             | None => t1
             end).
  set (dpr := default (Inherited 0) (t0 !! pr)).
  set (dnw := default (Inherited 0) (t0 !! nw)).
  set (t3 := if 2 <? pr then <[STDIN_FILENO := dpr]> t2 else t2).
  set (t4 := if 2 <? nw then <[STDOUT_FILENO := dnw]> t3 else t3).
  set (t5 := if 2 <? pr then delete pr t4 else t4).
  set (t6 := if 2 <? pw then delete pw t5 else t5).
  set (t7 := if 2 <? nr then delete nr t6 else t6).
  set (t8 := if 2 <? nw then delete nw t7 else t7).
  set (d1 := default (Inherited 0) (t8 !! STDOUT_FILENO)).
  set (t9 := if dup_stderr_to_stdout command then <[STDERR_FILENO := d1]> t8 else t8).
  assert (Hhigh : ∀ fd, 2 < fd → t2 !! fd = t0 !! fd).
  { intros fd Hfd. subst t2 t1. unfold STDIN_FILENO, STDOUT_FILENO.
    destruct fout, fin; rewrite ?lookup_insert_ne by lia; done. }
  assert (H0 : t2 !! STDIN_FILENO = match fin with
                                    | Some f => Some (Opened f O_RDONLY 0)
                                    | None => t0 !! STDIN_FILENO
                                    end).
  { subst t2 t1. unfold STDIN_FILENO, STDOUT_FILENO.
    destruct fout, fin; rewrite ?lookup_insert_ne by lia;
      rewrite ?lookup_insert_eq; done. }
  assert (H1 : t2 !! STDOUT_FILENO = match fout with
                                     | Some f => Some (Opened f o_flags 438)
                                     | None => t0 !! STDOUT_FILENO
                                     end).
  { subst t2 t1. unfold STDIN_FILENO, STDOUT_FILENO.
    destruct fout, fin; rewrite ?lookup_insert_eq; rewrite ?lookup_insert_ne by lia;
      done. }
  assert (H2 : t2 !! STDERR_FILENO = t0 !! STDERR_FILENO).
  { subst t2 t1. unfold STDIN_FILENO, STDOUT_FILENO, STDERR_FILENO.
    destruct fout, fin; rewrite ?lookup_insert_ne by lia; done. }
  assert (Hdpr : 2 < pr → t0 !! pr = Some dpr).
  { intros H. destruct (Hpr H) as [x Hx]. subst dpr. by rewrite Hx. }
  assert (Hdnw : 2 < nw → t0 !! nw = Some dnw).
  { intros H. destruct (Hnw H) as [x Hx]. subst dnw. by rewrite Hx. }
  assert (H81 : t8 !! STDOUT_FILENO = if 2 <? nw then Some dnw else t2 !! STDOUT_FILENO).
  { subst t8 t7 t6 t5 t4 t3. unfold STDOUT_FILENO, STDIN_FILENO.
    rewrite !lookup_if_delete, !bool_decide_eq_false_2 by lia.
    rewrite lookup_if_insert_eq. destruct (2 <? nw); [done|].
    by rewrite lookup_if_insert_ne by lia. }
  assert (Hd1 : t8 !! STDOUT_FILENO = Some d1).
  { subst d1. rewrite H81. destruct (2 <? nw); [done|]. rewrite H1.
    destruct fout; [done|]. by destruct Hout as [x ->]. }
  assert (Hrun : run_actions
                   (setup_file_actions pipeline first last command (pr, pw) (nr, nw)) t0
                 = Some t9).
  { unfold setup_file_actions. cbn [fst snd].
    replace (if first then match iored_input pipeline with
                           | Some f => [FA_open STDIN_FILENO f O_RDONLY 0]
                           | None => []
                           end else [])
      with (match fin with
            | Some f => [FA_open STDIN_FILENO f O_RDONLY 0]
            | None => []
            end) by (subst fin; by destruct first).
    replace (if last then match iored_output pipeline with
                          | Some f =>
                              [FA_open STDOUT_FILENO f
                                 (if append_to_output pipeline
                                  then Z.lor (Z.lor O_WRONLY O_CREAT) O_APPEND
                                  else Z.lor O_WRONLY O_CREAT) 438]
                          | None => []
                          end else [])
      with (match fout with
            | Some f => [FA_open STDOUT_FILENO f o_flags 438]
            | None => []
            end) by (subst fout; by destruct last).
    assert (E1 : ∀ l, run_actions (match fin with
                                   | Some f => [FA_open STDIN_FILENO f O_RDONLY 0]
                                   | None => []
                                   end ++ l) t0 = run_actions l t1)
      by (intros l; subst t1; by destruct fin).
    assert (E2 : ∀ l, run_actions (match fout with
                                   | Some f => [FA_open STDOUT_FILENO f o_flags 438]
                                   | None => []
                                   end ++ l) t1 = run_actions l t2)
      by (intros l; subst t2; by destruct fout).
    rewrite E1, E2.
    rewrite (run_actions_if _ _ _ t2 (<[STDIN_FILENO := dpr]> t2)).
    2: { intros H%Z.ltb_lt. cbn [run_action]. by rewrite Hhigh, (Hdpr H) by done. }
    fold t3.
    rewrite (run_actions_if _ _ _ t3 (<[STDOUT_FILENO := dnw]> t3)).
    2: { intros H%Z.ltb_lt. cbn [run_action]. subst t3. unfold STDIN_FILENO.
         rewrite lookup_if_insert_ne by lia. by rewrite Hhigh, (Hdnw H) by done. }
    fold t4.
    rewrite (run_actions_if _ _ _ t4 (delete pr t4)) by done. fold t5.
    rewrite (run_actions_if _ _ _ t5 (delete pw t5)) by done. fold t6.
    rewrite (run_actions_if _ _ _ t6 (delete nr t6)) by done. fold t7.
    rewrite (run_actions_if _ _ _ t7 (delete nw t7)) by done. fold t8.
    rewrite <- (app_nil_r (if dup_stderr_to_stdout command then _ else _)).
    rewrite (run_actions_if _ _ _ t8 (<[STDERR_FILENO := d1]> t8)).
    2: { intros _. cbn [run_action]. by rewrite Hd1. }
    done. }
  assert (H91 : t9 !! STDOUT_FILENO = t8 !! STDOUT_FILENO).
  { subst t9. unfold STDERR_FILENO, STDOUT_FILENO. by rewrite lookup_if_insert_ne by lia. }
  exists t9, o_flags. split; [exact Hrun|]. split; [|split; [|split; [|split]]].
  - subst t9 t8 t7 t6 t5 t4 t3. unfold STDERR_FILENO, STDOUT_FILENO, STDIN_FILENO in *.
    rewrite lookup_if_insert_ne by lia.
    rewrite !lookup_if_delete, !bool_decide_eq_false_2 by lia.
    rewrite lookup_if_insert_ne by lia. rewrite lookup_if_insert_eq.
    destruct (Z.ltb_spec 2 pr); [by rewrite Hdpr | done].
  - rewrite H91, H81. destruct (Z.ltb_spec 2 nw); [by rewrite Hdnw | done].
  - rewrite H91. subst t9. rewrite lookup_if_insert_eq.
    destruct (dup_stderr_to_stdout command); [by rewrite Hd1|].
    subst t8 t7 t6 t5 t4 t3. unfold STDERR_FILENO, STDOUT_FILENO, STDIN_FILENO in *.
    rewrite !lookup_if_delete, !bool_decide_eq_false_2 by lia.
    by rewrite !lookup_if_insert_ne by lia.
  - intros fd Hfd. subst t9 t8 t7 t6 t5 t4 t3.
    unfold STDERR_FILENO, STDOUT_FILENO, STDIN_FILENO in *.
    rewrite lookup_if_insert_ne by lia. rewrite !lookup_if_delete.
    rewrite !lookup_if_insert_ne by lia. rewrite Hhigh by done.
    destruct (bool_decide (fd ∈ [pr; pw; nr; nw])) eqn:Hin.
    + apply bool_decide_eq_true in Hin.
      repeat case_bool_decide; try done. exfalso.
      repeat (apply elem_of_cons in Hin as [->|Hin]; [lia|]).
      by apply elem_of_nil in Hin.
    + apply bool_decide_eq_false in Hin.
      repeat case_bool_decide; try done; exfalso; apply Hin;
        repeat (first [ apply list_elem_of_here; fail | apply elem_of_cons; (left; lia) || right ]).
  - subst o_flags. unfold O_WRONLY, O_CREAT, O_TRUNC, O_APPEND.
    destruct (append_to_output pipeline); repeat split; try reflexivity; try done.
Qed.

Lemma child_descriptors_witness :
  ∃ t o_flags,
    run_actions
      (setup_file_actions
         {| commands := [sample_command ["ls"]]; iored_input := None;
            iored_output := Some "out"; append_to_output := false;
            bg_job := false |}
         true true (sample_command ["ls"]) (STDIN_FILENO, -1) (-1, STDOUT_FILENO))
      {[ 0 := Inherited 0; 1 := Inherited 1; 2 := Inherited 2 ]}
    = Some t
    ∧ t !! STDOUT_FILENO = Some (Opened "out" o_flags 438)
    ∧ Z.land o_flags O_TRUNC = 0.
Proof.
  destruct (child_descriptors
              {| commands := [sample_command ["ls"]]; iored_input := None;
                 iored_output := Some "out"; append_to_output := false;
                 bg_job := false |}
              true true (sample_command ["ls"]) (STDIN_FILENO, -1) (-1, STDOUT_FILENO)
              {[ 0 := Inherited 0; 1 := Inherited 1; 2 := Inherited 2 ]})
    as (t & o_flags & Hrun & _ & H1 & _ & _ & _ & _ & Htrunc & _).
  - cbn [fst]. unfold STDIN_FILENO. lia.
  - cbn [snd]. unfold STDOUT_FILENO. lia.
  - exists (Inherited 1). reflexivity.
  - exists t, o_flags. split; [exact Hrun|]. split; [exact H1 | exact Htrunc].
Defined.

(** ** What [jobs] prints *)

Lemma jobs_builtin_loop_lines (st0 : shell) (l : list ptr) (lines : list (list event)) :
  Forall2 (λ p evs, ∃ j s, heap st0 !! p = Some j
                     ∧ cmdline_text true (commands (pipe j)) = Some s
                     ∧ evs = job_line j s) l lines →
  ∀ st, heap st = heap st0 →
    jobs_builtin_loop l st = Ret tt (set_log (log st ++ concat lines) st).
Proof.
  induction 1 as [|p evs l lines (j & s & Hj & Hs & ->) _ IH]; intros st Hheap.
  - simpl. unfold ret. by rewrite set_log_app_nil.
  - cbn [jobs_builtin_loop concat].
    rewrite (bind_Ret _ _ _ tt _ (print_job_line p j s st ltac:(by rewrite Hheap) Hs)).
    rewrite IH by done. fields. by rewrite <- app_assoc.
Qed.

(** X19.  [jobs] prints one line for every job of the job list, in list
    order and whatever the job's status is (a Foreground or a Terminated
    job is listed like any other): "[<jid>]", the status name and the
    command line in parentheses.  It changes nothing else. *)
Theorem jobs_builtin_lists (st : shell) (lines : list (list event)) :
  Forall2 (λ p evs, ∃ j s, heap st !! p = Some j
                     ∧ cmdline_text true (commands (pipe j)) = Some s
                     ∧ evs = job_line j s) (job_list st) lines →
  jobs_builtin st = Ret tt (set_log (log st ++ concat lines) st).
Proof.
  intros Hlines. unfold jobs_builtin.
  rewrite (bind_Ret _ _ _ (job_list st) st) by reflexivity.
  by apply (jobs_builtin_loop_lines st).
Qed.

Lemma jobs_builtin_lists_witness :
  jobs_builtin (sample_shell [sample_job 1 BACKGROUND [10];
                              sample_job 2 TERMINATED []] true)
  = Ret tt
      (set_log
         (log (sample_shell [sample_job 1 BACKGROUND [10];
                             sample_job 2 TERMINATED []] true)
          ++ concat [job_line (sample_job 1 BACKGROUND [10]) "sleep 100";
                     job_line (sample_job 2 TERMINATED []) ""])
         (sample_shell [sample_job 1 BACKGROUND [10]; sample_job 2 TERMINATED []] true)).
Proof.
  apply (jobs_builtin_lists
           (sample_shell [sample_job 1 BACKGROUND [10]; sample_job 2 TERMINATED []] true)).
  repeat constructor.
  - exists (sample_job 1 BACKGROUND [10]), "sleep 100". repeat split; reflexivity.
  - exists (sample_job 2 TERMINATED []), "". repeat split; reflexivity.
Defined.

(** ** Back at the prompt *)

Lemma deliver_sigchld_unblocked ws st :
  sigchld_blocked st = false →
  post (deliver_sigchld ws) st (λ _ st', sigchld_blocked st' = false) (λ _ _, True).
Proof.
  intros Hblk. unfold deliver_sigchld. wp. wp. rewrite Hblk. wp. wp. wp.
  apply post_any; [|done]. intros ? st1. wp. done.
Qed.

Lemma shell_loop_body_prompt i cline st :
  in_line i = Some (Some cline) →
  pipes cline ≠ [] →
  post (shell_loop_body i) st
    (λ b st', b = false ∧ sigchld_blocked st = false ∧ tty_owner st = shell_pgrp st
              ∧ sigchld_blocked st' = false ∧ tty_owner st' = shell_pgrp st'
              ∧ tty_mode st' = shell_tty_state st')
    (λ _ _, True).
Proof.
  intros Hline Hpipes. unfold shell_loop_body. rewrite Hline.
  destruct (pipes cline) as [|p0 ps] eqn:Hps; [done|].
  wp. wp. wp. wp; [|done]. wp. wp. wp. wp. wp. wp; [|done].
  match goal with H : negb _ = true |- _ => apply negb_true_iff in H; rename H into Hb end.
  match goal with H : (_ =? _) = true |- _ => apply Z.eqb_eq in H; rename H into Ho end.
  wp. apply post_any; [|done]. intros ? st1. wp. wp. wp.
  apply post_any; [|done]. intros ? st2. wp. wp. wp.
  apply (post_mono _ _ (λ _ st', sigchld_blocked st' = false) _ (λ _ _, True));
    [destruct (in_pending i); [by apply deliver_sigchld_unblocked | by wp] | | done].
  intros ? st3 H3. wp. wp. wp. done.
Qed.

(** X20.  A round of the read/eval loop that runs a command line with at
    least one pipeline and returns: it was entered with SIGCHLD unblocked
    and the shell owning the terminal (otherwise an assertion fails), it
    does not leave the loop, and it ends with SIGCHLD unblocked again, the
    terminal back with the shell's process group and in the shell's own
    mode, whatever the line did in between; so the two assertions at the
    head of the loop hold when the next round begins. *)
Theorem back_at_the_prompt (i : prompt_input) (cline : ast_command_line)
    (st st' : shell) (b : bool) :
  in_line i = Some (Some cline) →
  pipes cline ≠ [] →
  shell_loop_body i st = Ret b st' →
  b = false
  ∧ sigchld_blocked st = false ∧ tty_owner st = shell_pgrp st
  ∧ sigchld_blocked st' = false ∧ tty_owner st' = shell_pgrp st'
  ∧ tty_mode st' = shell_tty_state st'.
Proof.
  intros Hline Hpipes Hrun.
  pose proof (shell_loop_body_prompt i cline st Hline Hpipes) as Hpost.
  unfold post in Hpost. by rewrite Hrun in Hpost.
Qed.

Lemma back_at_the_prompt_witness :
  sigchld_blocked (final_state (shell_loop_body sleep_in_background (init_shell 1 0)))
  = false
  ∧ tty_owner (final_state (shell_loop_body sleep_in_background (init_shell 1 0)))
    = shell_pgrp (final_state (shell_loop_body sleep_in_background (init_shell 1 0))).
Proof.
  destruct (back_at_the_prompt sleep_in_background
              {| pipes := [sample_pipeline [["sleep"; "100"]] true] |}
              (init_shell 1 0)
              (final_state (shell_loop_body sleep_in_background (init_shell 1 0)))
              false)
    as (_ & _ & _ & Hb & Ho & _).
  - reflexivity.
  - done.
  - vm_compute. reflexivity.
  - split; [exact Hb | exact Ho].
Defined.
